(** * Stream-data-to-table: customer type marker and markdown converter

    A shallow embedding of [mark_customer_type.py] (class
    [CustomerTypeMarker]) and of [markdown_to_excel.py] (class
    [MarkdownToExcelConverter]), with the properties of the
    specification proved about it. *)

From Stdlib Require Import ZArith NArith QArith Qround Ascii.
From stdpp Require Import gmap list strings.

Local Open Scope Z_scope.
Local Open Scope nat_scope.

(** ** Python strings

    A Python [str] is a sequence of Unicode code points: [len], slicing,
    character classes and [rstrip] all count code points, not bytes.  The
    literals of the source are written here as UTF-8 text and decoded. *)

Definition char := N.
Definition str := list N.

Fixpoint utf8_decode (bs : list N) : str :=
  match bs with
  | [] => []
  | b :: r =>
      if (b <? 128)%N then b :: utf8_decode r
      else if (b <? 224)%N then
        match r with
        | c1 :: r' => ((b - 192) * 64 + (c1 - 128))%N :: utf8_decode r'
        | _ => []
        end
      else if (b <? 240)%N then
        match r with
        | c1 :: c2 :: r' =>
            ((b - 224) * 4096 + (c1 - 128) * 64 + (c2 - 128))%N :: utf8_decode r'
        | _ => []
        end
      else
        match r with
        | c1 :: c2 :: c3 :: r' =>
            ((b - 240) * 262144 + (c1 - 128) * 4096 + (c2 - 128) * 64 + (c3 - 128))%N
              :: utf8_decode r'
        | _ => []
        end
  end.

Fixpoint bytes_of_string (s : string) : list N :=
  match s with
  | EmptyString => []
  | String a r => Ascii.N_of_ascii a :: bytes_of_string r
  end.

Definition utf8 (s : string) : str := utf8_decode (bytes_of_string s).

(** * Pipeline A: [CustomerTypeMarker] *)

Module Marker.

(** A cell of the pandas table.  [CNa] stands for every value [pd.isna]
    accepts (NaN, None, NaT); a timestamp is its number of nanoseconds
    since the epoch, as pandas stores it. *)
Inductive cell :=
| CNa
| CStr (s : str)
| CNum (z : Z)
| CDatetime (t : Z).

#[global] Instance cell_eq_dec : EqDecision cell.
Proof. solve_decision. Defined.

Definition cell_encode (c : cell) : unit + str + Z + Z :=
  match c with
  | CNa => inl (inl (inl tt))
  | CStr s => inl (inl (inr s))
  | CNum z => inl (inr z)
  | CDatetime t => inr t
  end.

Definition cell_decode (x : unit + str + Z + Z) : cell :=
  match x with
  | inl (inl (inl _)) => CNa
  | inl (inl (inr s)) => CStr s
  | inl (inr z) => CNum z
  | inr t => CDatetime t
  end.

#[global] Instance cell_countable : Countable cell.
Proof.
  apply (inj_countable' cell_encode cell_decode).
  intros []; reflexivity.
Defined.

(** [self.df]: the column labels and the rows, in index order (the index
    read_excel builds is 0, 1, 2, ...). *)
Record DataFrame := {
  columns : list str;
  data : list (list cell)
}.

(** A frame is rectangular. *)
Definition wf_frame (df : DataFrame) : Prop :=
  Forall (fun r => length r = length (columns df)) (data df).

Definition pd_isna (c : cell) : bool :=
  match c with CNa => true | _ => false end.

(** Days since 1970-01-01 of a proleptic Gregorian date, and the pandas
    [Timestamp] of midnight on that day. *)
Definition days_from_civil (y m d : Z) : Z :=
  let y' := (if m <=? 2 then y - 1 else y)%Z in
  let era := (y' / 400)%Z in
  let yoe := (y' - era * 400)%Z in
  let mp := ((m + 9) mod 12)%Z in
  let doy := ((153 * mp + 2) / 5 + d - 1)%Z in
  let doe := (yoe * 365 + yoe / 4 - yoe / 100 + doy)%Z in
  (era * 146097 + doe - 719468)%Z.

Definition Timestamp (y m d : Z) : Z :=
  (days_from_civil y m d * 86400 * 1000000000)%Z.

(** [year_2025_start = pd.Timestamp('2025-01-01')] *)
Definition year_2025_start : Z := Timestamp 2025 1 1.

Definition date_col_idx : nat := 2.
Definition id_col_idx : nat := 6.
Definition mark_col_idx : nat := 19.

(** '新增' and '存量' *)
Definition label_new : str := utf8 "新增".
Definition label_existing : str := utf8 "存量".

(** [row[col]] by position; read_excel makes the labels unique, so the
    label [self.df.columns[j]] selects exactly column [j]. *)
Definition row_get (r : list cell) (j : nat) : cell := default CNa (r !! j).

Definition get_column (j : nat) (rows : list (list cell)) : list cell :=
  (fun r => row_get r j) <$> rows.

(** [df[col] = values] *)
Definition set_column (j : nat) (vals : list cell) (rows : list (list cell))
  : list (list cell) :=
  zip_with (fun r v => <[j := v]> r) rows vals.

(** What pandas' parser makes of a value that is neither missing nor
    already a datetime: a timestamp without a UTC offset, a timestamp with
    one (a text such as 2025-03-01T10:00:00+08:00), or nothing. *)
Inductive parsed :=
| PNaive (t : Z)
| PAware
| PNaT.

Section Classifier.

(** pandas' own parser, which may look at the whole column (format
    inference). *)
Variable coerce_other : list cell -> cell -> parsed.

(** The cells of the column under [errors='coerce']: a datetime read from
    the sheet is kept whatever its year (pandas 3; pandas 2 turns a date
    after 2262-04-11 into NaT), and a value the parser cannot read
    becomes NaT. *)
Definition coerce_cells (col : list cell) : list cell :=
  (fun c =>
     match c with
     | CNa => CNa
     | CDatetime t => CDatetime t
     | _ => match coerce_other col c with
            | PNaive t => CDatetime t
            | _ => CNa
            end
     end) <$> col.

(** The value is read with a UTC offset. *)
Definition reads_offset (col : list cell) (c : cell) : bool :=
  match c with
  | CNa | CDatetime _ => false
  | _ => match coerce_other col c with
         | PAware => true
         | _ => false
         end
  end.

(** [pd.to_datetime(self.df[date_col], errors='coerce')], as far as the
    comparison with the naive [year_2025_start] can use its result.
    [errors='coerce'] does not cover a value read with a UTC offset: next
    to values without one [pd.to_datetime] raises ValueError (mixed
    timezones), and a column of such values alone is tz-aware, on which
    the comparison with the naive timestamp raises TypeError.  [None]
    stands for both. *)
Definition to_datetime (col : list cell) : option (list cell) :=
  if existsb (reads_offset col) col then None else Some (coerce_cells col).

(** [order_date < year_2025_start]; a comparison with NaT is False. *)
Definition before_2025 (c : cell) : bool :=
  match c with
  | CDatetime t => bool_decide (t < year_2025_start)%Z
  | _ => false
  end.

(** [set(self.df[self.df[date_col] < year_2025_start][id_col].dropna().unique())] *)
Definition pre_2025_customers (rows : list (list cell)) : gset cell :=
  list_to_set
    (filter (fun c => pd_isna c = false)
       (get_column id_col_idx
          (filter (fun r => before_2025 (row_get r date_col_idx) = true) rows))).

(** The body of the loop over [self.df.iterrows()], for one row whose
    mark cell was initialised to ''. *)
Definition mark_row (pre : gset cell) (r : list cell) : list cell :=
  let order_date := row_get r date_col_idx in
  let customer_id := row_get r id_col_idx in
  if pd_isna order_date || pd_isna customer_id then r
  else if before_2025 order_date then <[mark_col_idx := CStr label_existing]> r
  else if bool_decide (customer_id ∈ pre) then <[mark_col_idx := CStr label_existing]> r
  else <[mark_col_idx := CStr label_new]> r.

(** [mark_customer_types]: [None] is the [except] branch (the method
    prints the error and returns False), reached when [self.df.columns]
    has no position 19, or when the date column cannot be read and
    compared; [Some df'] is the table after a run that returned True. *)
Definition mark_customer_types (df : DataFrame) : option DataFrame :=
  if length (columns df) <? 20 then None
  else
    match to_datetime (get_column date_col_idx (data df)) with
    | None => None
    | Some dates =>
        let rows1 := set_column date_col_idx dates (data df) in
        let pre := pre_2025_customers rows1 in
        let rows2 := set_column mark_col_idx ((fun _ => CStr []) <$> rows1) rows1 in
        Some {| columns := columns df; data := mark_row pre <$> rows2 |}
    end.

End Classifier.

(** *** The worksheet (openpyxl) *)

Record PatternFill := {
  start_color : string;
  end_color : string;
  fill_type : option string
}.

(** A worksheet cell: its value ([None] when empty) and its fill. *)
Record Cell := {
  value : option cell;
  fill : PatternFill
}.

(** [PatternFill()], the fill of a cell that was never formatted. *)
Definition no_fill : PatternFill :=
  {| start_color := "00000000"; end_color := "00000000"; fill_type := None |}.

Definition blank_cell : Cell := {| value := None; fill := no_fill |}.

Definition COLOR_NEW_CUSTOMER : string := "C6EFCE".
Definition COLOR_EXISTING_CUSTOMER : string := "FFEB9C".

(** The colour a fill keeps for the text it is built from: openpyxl stores
    aRGB, and puts 00 in front of six digits. *)
Definition aRGB (s : string) : string :=
  if String.length s =? 6 then ("00" ++ s)%string else s.

(** [PatternFill(start_color=..., end_color=..., fill_type='solid')] *)
Definition solid_fill (start_color end_color : string) : PatternFill :=
  {| start_color := aRGB start_color; end_color := aRGB end_color;
     fill_type := Some "solid"%string |}.

Definition fill_new : PatternFill :=
  solid_fill COLOR_NEW_CUSTOMER COLOR_NEW_CUSTOMER.
Definition fill_existing : PatternFill :=
  solid_fill COLOR_EXISTING_CUSTOMER COLOR_EXISTING_CUSTOMER.

(** Column letters to the column number: 'A' is 1, 'T' is 20, 'AA' is 27. *)
Definition column_index_from_string (s : string) : nat :=
  foldl (fun acc b => acc * 26 + (N.to_nat b - 64)) 0 (bytes_of_string s).

Definition mark_col_letter : string := "T".
Definition start_row : nat := 3.

(** The cells of the sheet, by (row, column) as openpyxl keeps them; a
    coordinate that is not in the map is a cell never touched. *)
Definition ws_cell (ws : gmap (nat * nat) Cell) (col : string) (row : nat) : Cell :=
  default blank_cell (ws !! (row, column_index_from_string col)).

(** The two assignments of the loop body of [apply_formatting], on the
    cell they are made to: [cell.value = mark_value], then [cell.fill]
    when the value is one of the two labels. *)
Definition write_mark (c : Cell) (mark_value : cell) : Cell :=
  let c1 := {| value := Some mark_value; fill := fill c |} in
  if bool_decide (mark_value = CStr label_new)
  then {| value := value c1; fill := fill_new |}
  else if bool_decide (mark_value = CStr label_existing)
  then {| value := value c1; fill := fill_existing |}
  else c1.

Section Formatting.

(** The coordinates of the sheet that lie in a merged range without being
    its top left corner ([ws.merged_cells]).  openpyxl keeps a MergedCell
    there, whose value is read-only: [cell.value = ...] raises
    AttributeError. *)
Variable merged : gset (nat * nat).

(** One iteration of the loop of [apply_formatting]; [None] when the
    assignment of the value raises. *)
Definition format_row (ws : gmap (nat * nat) Cell) (idx : nat) (r : list cell)
  : option (gmap (nat * nat) Cell) :=
  let excel_row := start_row + idx in
  let mark_value := row_get r mark_col_idx in
  let coordinate := (excel_row, column_index_from_string mark_col_letter) in
  if bool_decide (coordinate ∈ merged) then None
  else
    let c := ws_cell ws mark_col_letter excel_row in
    Some (<[coordinate := write_mark c mark_value]> ws).

(** The loop, which stops at the first exception. *)
Fixpoint format_rows (ws : gmap (nat * nat) Cell) (idx : nat) (rows : list (list cell))
  : option (gmap (nat * nat) Cell) :=
  match rows with
  | [] => Some ws
  | r :: rest =>
      match format_row ws idx r with
      | None => None
      | Some ws1 => format_rows ws1 (S idx) rest
      end
  end.

(** [apply_formatting]: [None] is the [except] branch (the method prints
    the error and returns False), reached on the first row when the table
    has no column 19, before any cell is written, or at the first row
    whose mark cell is read-only; the cells written before that stay
    written in the workbook, which [process] then does not save.
    [Some ws'] is the sheet after a run that returned True. *)
Definition apply_formatting (df : DataFrame) (ws : gmap (nat * nat) Cell)
  : option (gmap (nat * nat) Cell) :=
  match data df with
  | [] => Some ws
  | _ => if length (columns df) <? 20 then None
         else format_rows ws 0 (data df)
  end.

End Formatting.

(** *** Views of a table used to state its properties *)

Section Views.

Variable coerce_other : list cell -> cell -> parsed.

(** The date column as [pd.to_datetime] leaves it, when it returns. *)
Definition coerced_dates (df : DataFrame) : list cell :=
  coerce_cells coerce_other (get_column date_col_idx (data df)).

(** The date column can be read and compared with the cutoff. *)
Definition dates_usable (df : DataFrame) : Prop :=
  is_Some (to_datetime coerce_other (get_column date_col_idx (data df))).

(** The rows once the date column is coerced and the mark column reset,
    before the loop. *)
Definition prepared (df : DataFrame) : list (list cell) :=
  let rows1 := set_column date_col_idx (coerced_dates df) (data df) in
  set_column mark_col_idx ((fun _ => CStr []) <$> rows1) rows1.

End Views.

(** No mark cell of the data rows is read-only. *)
Definition marks_writable (merged : gset (nat * nat)) (df : DataFrame) : Prop :=
  forall i, i < length (data df) ->
            (start_row + i, column_index_from_string mark_col_letter) ∉ merged.

Definition customer_ids (df : DataFrame) : list cell := get_column id_col_idx (data df).
Definition labels (df : DataFrame) : list cell := get_column mark_col_idx (data df).

(** The label the loop body gives to a row with this date and identifier. *)
Definition label_for (pre : gset cell) (order_date customer_id : cell) : cell :=
  if pd_isna order_date || pd_isna customer_id then CStr []
  else if before_2025 order_date || bool_decide (customer_id ∈ pre)
       then CStr label_existing else CStr label_new.

(** *** A small table

    Twenty columns under the headers of [test_marker.py]; the rows are an
    old customer's order of 2024, the same customer again in 2025, a
    customer first seen in 2025, and three rows the classifier skips, the
    first of which carries a stale mark. *)
Definition sample_headers : list str :=
  utf8 <$> ["序号"; "订单编号"; "订单创建日期"; "客户姓名"; "联系电话";
            "客户地址"; "客户身份证号"; "设备型号"; "设备编号"; "租赁开始日期";
            "租赁结束日期"; "月租金"; "押金"; "支付方式"; "订单状态";
            "业务员"; "备注"; "创建人"; "更新时间"; "客户类型"]%string.

Definition sample_row (order_date customer_id mark : cell) : list cell :=
  [CNum 1; CStr (utf8 "ORD1000"); order_date; CStr (utf8 "客户1"); CNa; CNa;
   customer_id; CNa; CNa; CNa; CNa; CNum 300; CNum 2000; CStr (utf8 "微信");
   CNa; CNa; CNa; CStr (utf8 "系统"); CNa; mark].

Definition old_customer : cell := CStr (utf8 "330119800101123X").
Definition new_customer : cell := CStr (utf8 "330219900202456X").

Definition sample_frame : DataFrame :=
  {| columns := sample_headers;
     data := [
       sample_row (CDatetime (Timestamp 2024 3 5)) old_customer CNa;
       sample_row (CDatetime (Timestamp 2025 2 1)) old_customer CNa;
       sample_row (CDatetime (Timestamp 2025 2 3)) new_customer CNa;
       sample_row CNa new_customer (CStr label_new);
       sample_row (CStr (utf8 "unknown")) old_customer CNa;
       sample_row (CDatetime (Timestamp 2025 4 1)) CNa CNa
     ] |}.

(** A parser that reads no text as a date, and one that reads every text
    as a date with a UTC offset. *)
Definition no_text_dates : list cell -> cell -> parsed := fun _ _ => PNaT.
Definition offset_text_dates : list cell -> cell -> parsed := fun _ _ => PAware.

(** The merged cells of the sheet [test_marker.py] builds: the title
    range A1:T1 without its corner.  And a sheet where T5 lies in a
    merged range S5:T5. *)
Definition title_merged : gset (nat * nat) :=
  list_to_set ((fun col => (1, col)) <$> seq 2 19).
Definition note_merged : gset (nat * nat) := {[ (5, 20) ]} ∪ title_merged.

(** The sheet of an earlier run: T6 carries a mark and a fill. *)
Definition sample_sheet : gmap (nat * nat) Cell :=
  {[ (6, 20) := {| value := Some (CStr label_new); fill := fill_new |};
     (2, 20) := {| value := Some (CStr (utf8 "客户类型")); fill := no_fill |};
     (3, 3) := {| value := Some (CDatetime (Timestamp 2024 3 5)); fill := no_fill |} ]}.

End Marker.

(** * Python's [re] module

    The part of [re] the converter uses: patterns are compiled from their
    source text, and matched by backtracking with Python's priorities
    (leftmost start, alternatives in order, greedy and lazy repeats). *)

Module Re.

(** The first code point of every block of Unicode decimal digits
    (category Nd, Unicode 14): what [\d] matches and [float] reads. *)
Definition unicode_decimal_zeros : list N :=
  [48; 1632; 1776; 1984; 2406; 2534; 2662; 2790; 2918; 3046; 3174; 3302;
   3430; 3558; 3664; 3792; 3872; 4160; 4240; 6112; 6160; 6470; 6608; 6784;
   6800; 6992; 7088; 7232; 7248; 42528; 43216; 43264; 43472; 43504; 43600;
   44016; 65296; 66720; 68912; 69734; 69872; 69942; 70096; 70384; 70736;
   70864; 71248; 71360; 71472; 71904; 72016; 72784; 73040; 73120; 92768;
   92864; 93008; 120782; 120792; 120802; 120812; 120822; 123200; 123632;
   125264; 130032]%N.

(** The value of a decimal digit, [None] for every other code point. *)
Definition digit_value (c : N) : option N :=
  match List.find (fun z => (z <=? c)%N && (c <? z + 10)%N) unicode_decimal_zeros with
  | Some z => Some (c - z)%N
  | None => None
  end.

Definition is_digit (c : N) : bool :=
  match digit_value c with Some _ => true | None => false end.

(** The code points [str.isspace] accepts: what [\s] matches and
    [str.strip()] removes. *)
Definition unicode_spaces : list N :=
  [9; 10; 11; 12; 13; 28; 29; 30; 31; 32; 133; 160; 5760; 8192; 8193; 8194;
   8195; 8196; 8197; 8198; 8199; 8200; 8201; 8202; 8232; 8233; 8239; 8287;
   12288]%N.

Definition is_space (c : N) : bool := existsb (N.eqb c) unicode_spaces.

(** An item of a character set [[...]]. *)
Inductive citem :=
| IChar (c : N)
| IRange (lo hi : N)
| IDigit
| INotDigit
| ISpace
| INotSpace.

Inductive regex :=
| REmpty
| RLit (c : N)
| RAny
| RSet (negate : bool) (items : list citem)
| RBol
| REol
| RSeq (r1 r2 : regex)
| RAlt (r1 r2 : regex)
| RRepeat (lo : nat) (hi : option nat) (greedy : bool) (r : regex)
| RGroup (n : nat) (r : regex).

Definition item_matches (it : citem) (c : N) : bool :=
  match it with
  | IChar x => (c =? x)%N
  | IRange lo hi => (lo <=? c)%N && (c <=? hi)%N
  | IDigit => is_digit c
  | INotDigit => negb (is_digit c)
  | ISpace => is_space c
  | INotSpace => negb (is_space c)
  end.

Definition set_matches (negate : bool) (items : list citem) (c : N) : bool :=
  xorb negate (existsb (fun it => item_matches it c) items).

(** The state of a match attempt: the position in the subject, the code
    point before it ([None] at the start of the subject), the text still
    to read, and the spans of the groups closed so far. *)
Record mstate := {
  m_pos : nat;
  m_prev : option N;
  m_rest : str;
  m_groups : list (nat * (nat * nat))
}.

Definition advance (c : N) (rest : str) (st : mstate) : mstate :=
  {| m_pos := S (m_pos st); m_prev := Some c; m_rest := rest;
     m_groups := m_groups st |}.

Definition close_group (n start : nat) (st : mstate) : mstate :=
  {| m_pos := m_pos st; m_prev := m_prev st; m_rest := m_rest st;
     m_groups := (n, (start, m_pos st)) :: m_groups st |}.

(** [^]: the start of the subject, and with MULTILINE also after a newline. *)
Definition at_bol (multiline : bool) (st : mstate) : bool :=
  match m_prev st with
  | None => true
  | Some c => multiline && (c =? 10)%N
  end.

(** [$]: the end of the subject or just before its final newline, and with
    MULTILINE before every newline. *)
Definition at_eol (multiline : bool) (st : mstate) : bool :=
  match m_rest st with
  | [] => true
  | c :: rest => (c =? 10)%N && (multiline || match rest with [] => true | _ => false end)
  end.

Definition below_max (hi : option nat) (count : nat) : bool :=
  match hi with
  | None => true
  | Some h => count <? h
  end.

(** The loop of a repeat whose body is matched by [body]: [lo] iterations
    first, then one more iteration preferred to the continuation [k]
    (greedy) or the continuation preferred (lazy).  An optional iteration
    has to consume text, so [fuel] above [lo] plus the length of the text
    is never used up. *)
Fixpoint repeat_loop (body : mstate -> (mstate -> option mstate) -> option mstate)
    (lo : nat) (hi : option nat) (greedy : bool) (k : mstate -> option mstate)
    (fuel count : nat) (st : mstate) {struct fuel} : option mstate :=
  match fuel with
  | O => None
  | S fuel' =>
      if count <? lo
      then body st (fun st1 => repeat_loop body lo hi greedy k fuel' (S count) st1)
      else
        let more (_ : unit) :=
          if below_max hi count
          then body st (fun st1 => if m_pos st1 <=? m_pos st then None
                                   else repeat_loop body lo hi greedy k fuel' (S count) st1)
          else None in
        if greedy
        then match more tt with
             | Some res => Some res
             | None => k st
             end
        else match k st with
             | Some res => Some res
             | None => more tt
             end
  end.

(** The backtracking matcher, in continuation-passing style: [k] is the
    rest of the pattern. *)
Fixpoint rmatch (multiline : bool) (r : regex) (st : mstate)
    (k : mstate -> option mstate) {struct r} : option mstate :=
  match r with
  | REmpty => k st
  | RLit x =>
      match m_rest st with
      | c :: rest => if (c =? x)%N then k (advance c rest st) else None
      | [] => None
      end
  | RAny =>
      match m_rest st with
      | c :: rest => if (c =? 10)%N then None else k (advance c rest st)
      | [] => None
      end
  | RSet negate items =>
      match m_rest st with
      | c :: rest => if set_matches negate items c then k (advance c rest st) else None
      | [] => None
      end
  | RBol => if at_bol multiline st then k st else None
  | REol => if at_eol multiline st then k st else None
  | RSeq r1 r2 => rmatch multiline r1 st (fun st1 => rmatch multiline r2 st1 k)
  | RAlt r1 r2 =>
      match rmatch multiline r1 st k with
      | Some res => Some res
      | None => rmatch multiline r2 st k
      end
  | RGroup n r1 =>
      rmatch multiline r1 st (fun st1 => k (close_group n (m_pos st) st1))
  | RRepeat lo hi greedy r1 =>
      repeat_loop (rmatch multiline r1) lo hi greedy k
        (S (lo + length (m_rest st))) 0 st
  end.

(** A match object: its span and the spans of its groups. *)
Record Match := {
  m_start : nat;
  m_end : nat;
  m_spans : list (nat * (nat * nat))
}.

(** One attempt at the current position.  [must_advance] refuses an empty
    match there (the scanner sets it after an empty match). *)
Definition attempt (multiline : bool) (r : regex) (must_advance : bool)
    (pos : nat) (prev : option N) (rest : str) : option Match :=
  match rmatch multiline r
          {| m_pos := pos; m_prev := prev; m_rest := rest; m_groups := [] |}
          (fun st => if must_advance && (m_pos st =? pos) then None else Some st) with
  | Some st => Some {| m_start := pos; m_end := m_pos st; m_spans := m_groups st |}
  | None => None
  end.

(** [pattern.search]: the first position, from the current one on, where
    an attempt succeeds. *)
Fixpoint search_from (multiline : bool) (r : regex) (pos : nat) (prev : option N)
    (rest : str) : option Match :=
  match attempt multiline r false pos prev rest with
  | Some m => Some m
  | None =>
      match rest with
      | [] => None
      | c :: rest' => search_from multiline r (S pos) (Some c) rest'
      end
  end.

Definition search (multiline : bool) (r : regex) (s : str) : option Match :=
  search_from multiline r 0 None s.

(** [pattern.finditer]: the scanner searches again from the end of each
    match; [skip] counts the code points left inside the last match.  After
    an empty match the same position is tried once more for a match that
    is not empty. *)
Fixpoint scan_from (multiline : bool) (r : regex) (pos : nat) (prev : option N)
    (rest : str) (skip : nat) {struct rest} : list Match :=
  let next (sk : nat) : list Match :=
    match rest with
    | [] => []
    | c :: rest' => scan_from multiline r (S pos) (Some c) rest' sk
    end in
  match skip with
  | S sk => next sk
  | O =>
      match attempt multiline r false pos prev rest with
      | None => next 0
      | Some m =>
          if m_end m =? pos
          then m :: match attempt multiline r true pos prev rest with
                    | Some m2 => m2 :: next (m_end m2 - pos - 1)
                    | None => next 0
                    end
          else m :: next (m_end m - pos - 1)
      end
  end.

Definition finditer (multiline : bool) (r : regex) (s : str) : list Match :=
  scan_from multiline r 0 None s 0.

(** [s[i:j]] for [0 <= i] and [0 <= j]. *)
Definition slice (s : str) (i j : nat) : str := take (j - i) (drop i s).

(** The span of group [n], [None] when the group took no part in the match
    (group 0 is the whole match). *)
Definition group_span (m : Match) (n : nat) : option (nat * nat) :=
  match n with
  | O => Some (m_start m, m_end m)
  | _ => snd <$> List.find (fun g => fst g =? n) (m_spans m)
  end.

Definition group_text (s : str) (m : Match) (n : nat) : option str :=
  (fun sp => slice s (fst sp) (snd sp)) <$> group_span m n.

(** *** Compiling a pattern

    [PError] is [re.error]; [POutside] is a pattern whose syntax is legal
    or not decided here, outside the fragment embedded (look-around, word
    boundaries, back-references, [\w], possessive repeats, flags, repeats
    of a body that can match the empty string). *)

Inductive presult (A : Type) :=
| POk (a : A)
| PError
| POutside.
Arguments POk {A} a.
Arguments PError {A}.
Arguments POutside {A}.

Definition pbind {A B : Type} (x : presult A) (f : A -> presult B) : presult B :=
  match x with
  | POk a => f a
  | PError => PError
  | POutside => POutside
  end.

Definition ch (a : Ascii.ascii) : N := Ascii.N_of_ascii a.
Definition is_ch (c : N) (a : Ascii.ascii) : bool := (c =? ch a)%N.
Arguments ch a%_char.
Arguments is_ch c a%_char.

Definition is_ascii_digit (c : N) : bool := (48 <=? c)%N && (c <=? 57)%N.
Definition is_ascii_letter (c : N) : bool :=
  ((65 <=? c)%N && (c <=? 90)%N) || ((97 <=? c)%N && (c <=? 122)%N).

Fixpoint read_digits (s : str) (acc : option nat) : option nat * str :=
  match s with
  | c :: s' =>
      if is_ascii_digit c
      then read_digits s' (Some (10 * default 0 acc + N.to_nat (c - 48)))
      else (acc, s)
  | [] => (acc, s)
  end.

(** What follows a '{': a repeat [{m}], [{m,n}], [{m,}], [{,n}], or
    nothing of the kind, in which case the brace is a literal. *)
Inductive braces :=
| BLiteral
| BRepeat (lo : nat) (hi : option nat) (rest : str)
| BBad.

Definition parse_braces (s : str) : braces :=
  match s with
  | c :: _ =>
      if is_ch c "}" then BLiteral
      else
        let '(lo, s1) := read_digits s None in
        let '(hi, s2) :=
          match s1 with
          | c1 :: s1' => if is_ch c1 "," then read_digits s1' None else (lo, s1)
          | [] => (lo, s1)
          end in
        match s2 with
        | c2 :: rest =>
            if is_ch c2 "}"
            then match hi with
                 | Some h => if h <? default 0 lo then BBad
                             else BRepeat (default 0 lo) (Some h) rest
                 | None => BRepeat (default 0 lo) None rest
                 end
            else BLiteral
        | [] => BLiteral
        end
  | [] => BLiteral
  end.

(** A backslash escape, inside a set or outside. *)
Inductive esc :=
| ELit (c : N)
| ECat (it : citem)
| EBad
| EOutside.

Definition escape (in_set : bool) (c : N) : esc :=
  if is_ch c "d" then ECat IDigit
  else if is_ch c "D" then ECat INotDigit
  else if is_ch c "s" then ECat ISpace
  else if is_ch c "S" then ECat INotSpace
  else if is_ch c "a" then ELit 7
  else if is_ch c "f" then ELit 12
  else if is_ch c "n" then ELit 10
  else if is_ch c "r" then ELit 13
  else if is_ch c "t" then ELit 9
  else if is_ch c "v" then ELit 11
  else if is_ch c "b" then (if in_set then ELit 8 else EOutside)
  else if is_ch c "w" || is_ch c "W" || is_ch c "x" || is_ch c "u" || is_ch c "U" || is_ch c "N"
          || is_ascii_digit c then EOutside
  else if is_ch c "A" || is_ch c "B" || is_ch c "Z" then (if in_set then EBad else EOutside)
  else if is_ascii_letter c then EBad
  else ELit c.

(** One member of a set, with the text after it. *)
Definition set_member (s : str) : presult (esc * str) :=
  match s with
  | [] => PError
  | c :: s' =>
      if is_ch c "\" then
        match s' with
        | e :: s'' => POk (escape true e, s'')
        | [] => PError
        end
      else POk (ELit c, s')
  end.

Definition item_of_esc (e : esc) : presult citem :=
  match e with
  | ELit c => POk (IChar c)
  | ECat it => POk it
  | EBad => PError
  | EOutside => POutside
  end.

(** The members of a set up to its closing bracket; a bracket that comes
    first is a literal. *)
Fixpoint parse_set (fuel : nat) (s : str) (acc : list citem) : presult (list citem * str) :=
  match fuel with
  | O => POutside
  | S fuel' =>
      match s with
      | [] => PError
      | c :: s' =>
          if is_ch c "]" && negb (bool_decide (acc = []))
          then POk (rev acc, s')
          else
            pbind (set_member s) (fun '(e1, s1) =>
            pbind (item_of_esc e1) (fun it1 =>
              match s1 with
              | d :: s2 =>
                  if is_ch d "-" then
                    match s2 with
                    | [] => PError
                    | c2 :: s3 =>
                        if is_ch c2 "]" then POk (rev (IChar (ch "-") :: it1 :: acc), s3)
                        else
                          pbind (set_member s2) (fun '(e2, s4) =>
                          pbind (item_of_esc e2) (fun it2 =>
                            match it1, it2 with
                            | IChar lo, IChar hi =>
                                if (hi <? lo)%N then PError
                                else parse_set fuel' s4 (IRange lo hi :: acc)
                            | _, _ => PError
                            end))
                    end
                  else parse_set fuel' s1 (it1 :: acc)
              | [] => PError
              end))
      end
  end.

Fixpoint nullable (r : regex) : bool :=
  match r with
  | REmpty | RBol | REol => true
  | RLit _ | RAny | RSet _ _ => false
  | RSeq r1 r2 => nullable r1 && nullable r2
  | RAlt r1 r2 => nullable r1 || nullable r2
  | RRepeat lo _ _ r1 => (lo =? 0) || nullable r1
  | RGroup _ r1 => nullable r1
  end.

(** The repeat that follows an item, if any: its bounds, whether it is
    greedy, and the text after it. *)
Definition parse_repeat (s : str) : presult (option (nat * option nat * bool) * str) :=
  let bounds :=
    match s with
    | c :: s' =>
        if is_ch c "*" then POk (Some (0, None, s'))
        else if is_ch c "+" then POk (Some (1, None, s'))
        else if is_ch c "?" then POk (Some (0, Some 1, s'))
        else if is_ch c "{" then
          match parse_braces s' with
          | BLiteral => POk None
          | BRepeat lo hi rest => POk (Some (lo, hi, rest))
          | BBad => PError
          end
        else POk None
    | [] => POk None
    end in
  pbind bounds (fun b =>
    match b with
    | None => POk (None, s)
    | Some (lo, hi, s1) =>
        let '(greedy, s2) :=
          match s1 with
          | c :: s1' => if is_ch c "?" then (false, s1') else (true, s1)
          | [] => (true, s1)
          end in
        match s2 with
        | c :: s2' =>
            if is_ch c "*" || is_ch c "+" || is_ch c "?" then POutside
            else if is_ch c "{" then
              match parse_braces s2' with
              | BLiteral => POk (Some (lo, hi, greedy), s2)
              | _ => POutside
              end
            else POk (Some (lo, hi, greedy), s2)
        | [] => POk (Some (lo, hi, greedy), s2)
        end
    end).

Definition apply_repeat (r : regex) (q : option (nat * option nat * bool)) : presult regex :=
  match q with
  | None => POk r
  | Some (lo, hi, greedy) =>
      match r with
      | RBol | REol => PError
      | _ => if nullable r then POutside else POk (RRepeat lo hi greedy r)
      end
  end.

(** [parse_alt] reads branches separated by '|' and [parse_seq] one branch,
    up to a ')' or the end; [g] is the number of groups opened so far. *)
Fixpoint parse_alt (fuel g : nat) (s : str) {struct fuel} : presult (regex * nat * str) :=
  match fuel with
  | O => POutside
  | S fuel' =>
      pbind (parse_seq fuel' g s) (fun '(r1, g1, s1) =>
        match s1 with
        | c :: s2 =>
            if is_ch c "|"
            then pbind (parse_alt fuel' g1 s2) (fun '(r2, g2, s3) => POk (RAlt r1 r2, g2, s3))
            else POk (r1, g1, s1)
        | [] => POk (r1, g1, s1)
        end)
  end
with parse_seq (fuel g : nat) (s : str) {struct fuel} : presult (regex * nat * str) :=
  match fuel with
  | O => POutside
  | S fuel' =>
      match s with
      | [] => POk (REmpty, g, [])
      | c :: s' =>
          if is_ch c "|" || is_ch c ")" then POk (REmpty, g, s)
          else
            let atom : presult (regex * nat * str) :=
              if is_ch c "." then POk (RAny, g, s')
              else if is_ch c "^" then POk (RBol, g, s')
              else if is_ch c "$" then POk (REol, g, s')
              else if is_ch c "*" || is_ch c "+" || is_ch c "?" then PError
              else if is_ch c "{" then
                match parse_braces s' with
                | BLiteral => POk (RLit c, g, s')
                | _ => PError
                end
              else if is_ch c "\" then
                match s' with
                | e :: s'' =>
                    match escape false e with
                    | ELit x => POk (RLit x, g, s'')
                    | ECat it => POk (RSet false [it], g, s'')
                    | EBad => PError
                    | EOutside => POutside
                    end
                | [] => PError
                end
              else if is_ch c "[" then
                let '(negate, s1) :=
                  match s' with
                  | n :: s'' => if is_ch n "^" then (true, s'') else (false, s')
                  | [] => (false, s')
                  end in
                pbind (parse_set (S (length s1)) s1 [])
                      (fun '(items, s2) => POk (RSet negate items, g, s2))
              else if is_ch c "(" then
                let close (capture : bool) (inner : presult (regex * nat * str)) :=
                  pbind inner (fun '(r1, g1, s1) =>
                    match s1 with
                    | p :: s2 =>
                        if is_ch p ")"
                        then POk (if capture then RGroup (S g) r1 else r1, g1, s2)
                        else PError
                    | [] => PError
                    end) in
                match s' with
                | q :: s'' =>
                    if is_ch q "?" then
                      match s'' with
                      | k :: s3 => if is_ch k ":" then close false (parse_alt fuel' g s3)
                                   else POutside
                      | [] => PError
                      end
                    else close true (parse_alt fuel' (S g) s')
                | [] => PError
                end
              else POk (RLit c, g, s') in
            pbind atom (fun '(r1, g1, s1) =>
            pbind (parse_repeat s1) (fun '(q, s2) =>
            pbind (apply_repeat r1 q) (fun item =>
            pbind (parse_seq fuel' g1 s2) (fun '(r2, g2, s3) =>
              POk (RSeq item r2, g2, s3)))))
      end
  end.

(** A compiled pattern: the expression and its number of groups. *)
Record Pattern := {
  p_regex : regex;
  p_groups : nat
}.

(** [re.compile] *)
Definition compile (pattern : str) : presult Pattern :=
  pbind (parse_alt (2 * length pattern + 3) 0 pattern) (fun '(r, g, rest) =>
    match rest with
    | [] => POk {| p_regex := r; p_groups := g |}
    | _ => PError
    end).

End Re.

(** * Pipeline B: [MarkdownToExcelConverter] *)

Module Converter.
Import Re.

(** ** Python values and exceptions *)

(** The configuration is what [yaml.safe_load] or [load_default_config]
    builds: nested dictionaries with string keys, lists and scalars. *)
#[warnings="-register-all"]
Inductive pyobj :=
| PyNone
| PyBool (b : bool)
| PyInt (z : Z)
| PyStr (s : str)
| PyList (l : list pyobj)
| PyDict (d : list (str * pyobj)).

Inductive exception :=
| KeyError
| TypeError
| AttributeError
| IndexError
| ValueError
| ReError
| YAMLError
| IsADirectoryError.

(** The result of running a piece of the program: a value, a Python
    exception, or [Unmodelled] when the run leaves the embedded fragment
    (a pattern [compile] answers [POutside] for, a file that is not text
    the model can hold). *)
Inductive outcome (A : Type) :=
| Return (a : A)
| Raise (e : exception)
| Unmodelled.
Arguments Return {A} a.
Arguments Raise {A} e.
Arguments Unmodelled {A}.

#[global] Instance outcome_ret : MRet outcome := fun A a => Return a.
#[global] Instance outcome_bind : MBind outcome := fun A B f x =>
  match x with
  | Return a => f a
  | Raise e => Raise e
  | Unmodelled => Unmodelled
  end.

(** A [dict] keeps its keys in insertion order; assigning to a key that is
    present keeps its place. *)
Fixpoint dict_get {V : Type} (k : str) (d : list (str * V)) : option V :=
  match d with
  | [] => None
  | (k', v) :: d' => if bool_decide (k' = k) then Some v else dict_get k d'
  end.

Fixpoint dict_set {V : Type} (k : str) (v : V) (d : list (str * V)) : list (str * V) :=
  match d with
  | [] => [(k, v)]
  | (k', v') :: d' =>
      if bool_decide (k' = k) then (k, v) :: d' else (k', v') :: dict_set k v d'
  end.

(** [o[k]] for a string key *)
Definition getitem (o : pyobj) (k : str) : outcome pyobj :=
  match o with
  | PyDict d =>
      match dict_get k d with
      | Some v => Return v
      | None => Raise KeyError
      end
  | _ => Raise TypeError
  end.

(** [o.get(k, dflt)] *)
Definition py_get (o : pyobj) (k : str) (dflt : pyobj) : outcome pyobj :=
  match o with
  | PyDict d => Return (default dflt (dict_get k d))
  | _ => Raise AttributeError
  end.

(** [o.items()] *)
Definition py_items (o : pyobj) : outcome (list (str * pyobj)) :=
  match o with
  | PyDict d => Return d
  | _ => Raise AttributeError
  end.

(** [for x in o] *)
Definition py_iter (o : pyobj) : outcome (list pyobj) :=
  match o with
  | PyList l => Return l
  | PyStr s => Return (map (fun c => PyStr [c]) s)
  | PyDict d => Return (map (fun kv => PyStr (fst kv)) d)
  | _ => Raise TypeError
  end.

(** [bool(o)] *)
Definition truthy (o : pyobj) : bool :=
  match o with
  | PyNone => false
  | PyBool b => b
  | PyInt z => negb (z =? 0)%Z
  | PyStr s => negb (bool_decide (s = []))
  | PyList l => negb (bool_decide (length l = 0))
  | PyDict d => negb (bool_decide (length d = 0))
  end.

(** ** String methods *)

Fixpoint lstrip_by (f : N -> bool) (s : str) : str :=
  match s with
  | c :: s' => if f c then lstrip_by f s' else s
  | [] => []
  end.

Definition rstrip_by (f : N -> bool) (s : str) : str :=
  rev (lstrip_by f (rev s)).

(** [s.strip()] *)
Definition strip (s : str) : str := rstrip_by is_space (lstrip_by is_space s).

(** [s.rstrip(chars)] *)
Definition rstrip (chars : str) (s : str) : str :=
  rstrip_by (fun c => existsb (N.eqb c) chars) s.

(** [s.split(sep)] for a separator of one code point: never an empty list. *)
Fixpoint split_char (sep : N) (s : str) : list str :=
  match s with
  | [] => [[]]
  | c :: s' =>
      if (c =? sep)%N then [] :: split_char sep s'
      else match split_char sep s' with
           | piece :: pieces => (c :: piece) :: pieces
           | [] => [[c]]
           end
  end.

(** [s.replace(',', '')] *)
Definition remove_char (x : N) (s : str) : str :=
  List.filter (fun c => negb (c =? x)%N) s.

(** ** Floating point

    [float] of a decimal literal is the binary64 number nearest to it
    (ties to even), or infinity past the largest one.  A float is kept as
    the rational it stands for. *)
Inductive pyfloat :=
| FFinite (v : Q)
| FInf.

(** The integer nearest to [n / d], ties to even, for [0 <= n], [0 < d]. *)
Definition round_half_even (n d : Z) : Z :=
  let q := (n / d)%Z in
  let r := (n mod d)%Z in
  if (2 * r <? d)%Z then q
  else if (d <? 2 * r)%Z then (q + 1)%Z
  else if Z.even q then q else (q + 1)%Z.

(** [n / d] divided by [2 ^ p], as a fraction. *)
Definition scale2 (n d p : Z) : Z * Z :=
  if (0 <=? p)%Z then (n, d * 2 ^ p)%Z else (n * 2 ^ (- p), d)%Z.

Definition binary64_round (n d : Z) : pyfloat :=
  if (n =? 0)%Z then FFinite 0
  else
    let e0 := (Z.log2 n - Z.log2 d)%Z in
    let '(n0, d0) := scale2 n d e0 in
    let e := if (n0 <? d0)%Z then (e0 - 1)%Z else e0 in
    let p := Z.max (e - 52) (-1074) in
    let '(n1, d1) := scale2 n d p in
    let m := round_half_even n1 d1 in
    if (0 <=? p)%Z
    then if (2 ^ 1024 <=? m * 2 ^ p)%Z then FInf else FFinite (inject_Z (m * 2 ^ p))
    else FFinite (Qred (Qmake m (Z.to_pos (2 ^ (- p))))).

(** The digits of a run of decimal digits, as a number. *)
Fixpoint digits_value (s : str) (acc : Z) : option Z :=
  match s with
  | [] => Some acc
  | c :: s' =>
      match digit_value c with
      | Some v => digits_value s' (10 * acc + Z.of_N v)%Z
      | None => None
      end
  end.

(** [float(s)] for a literal made of digits, optionally followed by a
    point and more digits; every other argument is left out. *)
Definition py_float (s : str) : outcome pyfloat :=
  match split_char (ch ".") s with
  | [ip] =>
      match ip, digits_value ip 0 with
      | _ :: _, Some n => Return (binary64_round n 1)
      | _, _ => Unmodelled
      end
  | [ip; fp] =>
      match ip, digits_value (ip ++ fp) 0 with
      | _ :: _, Some n => Return (binary64_round n (10 ^ Z.of_nat (length fp)))
      | _, _ => Unmodelled
      end
  | _ => Unmodelled
  end.

(** ** Calls into [re] *)

(** [re.compile(pattern)] on whatever the configuration holds *)
Definition re_compile (pattern : pyobj) : outcome Pattern :=
  match pattern with
  | PyStr p =>
      match compile p with
      | POk pat => Return pat
      | PError => Raise ReError
      | POutside => Unmodelled
      end
  | _ => Raise TypeError
  end.

(** [re.search(pattern, s)]: the pattern compiled, with the match *)
Definition re_search (pattern : pyobj) (s : str) : outcome (Pattern * option Match) :=
  pat ← re_compile pattern;
  mret (pat, search false (p_regex pat) s).

(** [re.finditer(pattern, s, re.MULTILINE)] *)
Definition re_finditer_multiline (pattern : pyobj) (s : str)
  : outcome (Pattern * list Match) :=
  pat ← re_compile pattern;
  mret (pat, finditer true (p_regex pat) s).

(** [match.group(1)]: [None] when the group took no part in the match *)
Definition match_group1 (pat : Pattern) (s : str) (m : Match) : outcome (option str) :=
  if p_groups pat <? 1 then Raise IndexError
  else mret (group_text s m 1).

(** [match.group(1).strip()] *)
Definition group1_strip (pat : Pattern) (s : str) (m : Match) : outcome str :=
  g ← match_group1 pat s m;
  match g with
  | Some t => mret (strip t)
  | None => Raise AttributeError
  end.

(** The pieces of [s] between the matches [ms], from [last] on. *)
Fixpoint pieces_between (s : str) (last : nat) (ms : list Match) : list str :=
  match ms with
  | [] => [slice s last (length s)]
  | m :: ms' => slice s last (m_start m) :: pieces_between s (m_end m) ms'
  end.

(** [re.split(pattern, s)] for a pattern without groups *)
Definition re_split (pattern : str) (s : str) : outcome (list str) :=
  pat ← re_compile (PyStr pattern);
  if 0 <? p_groups pat then Unmodelled
  else mret (pieces_between s 0 (finditer false (p_regex pat) s)).

(** ** The converter *)

Definition record := list (str * str).

(** [load_default_config] *)
Definition load_default_config : pyobj :=
  PyDict [
    (utf8 "parsing_rules", PyDict [
      (utf8 "date_pattern", PyStr (utf8 "## (\d{4}-\d{2}-\d{2})"));
      (utf8 "entry_pattern", PyStr (utf8 "### (.+?)(?=###|##|$)"));
      (utf8 "header_name_extraction", PyBool true);
      (utf8 "field_patterns", PyDict [
        (utf8 "姓名", PyStr (utf8 "姓名[：:]\s*([^；;]+)"));
        (utf8 "交易笔数", PyStr (utf8 "交易笔数[：:]\s*([^；;]+)"));
        (utf8 "交易金额", PyStr (utf8 "交易金额[：:]\s*([^；;]+)"));
        (utf8 "交易日期", PyStr (utf8 "交易日期[：:]\s*([^；;]+)"));
        (utf8 "交易时间", PyStr (utf8 "交易时间[：:]\s*([^；;]+)"));
        (utf8 "交易流水号",
           PyStr (utf8 "交易流水号[/订单号/交易单号/流水号]*[：:]\s*([^；;]+)"));
        (utf8 "支付方式", PyStr (utf8 "支付方式[：:]\s*([^；;]+)"));
        (utf8 "商户", PyStr (utf8 "商户[：:]\s*([^；;]+)"));
        (utf8 "备注", PyStr (utf8 "备注[：:]\s*([^；;]+)"))
      ]);
      (utf8 "header_name_patterns", PyList [
        PyStr (utf8 "^客户姓名[：:]\s*(.+?)(?:\s|$)");
        PyStr (utf8 "^姓名[：:]\s*(.+?)(?:\s|$)");
        PyStr (utf8 "^(.+?)(?:\s|$)")
      ])
    ]);
    (utf8 "output_settings", PyDict [
      (utf8 "excel_filename", PyStr (utf8 "转换结果_{timestamp}.xlsx"));
      (utf8 "sheet_name", PyStr (utf8 "交易记录"));
      (utf8 "include_summary", PyBool true);
      (utf8 "auto_resize_columns", PyBool true)
    ]);
    (utf8 "validation", PyDict [
      (utf8 "required_fields", PyList [PyStr (utf8 "姓名"); PyStr (utf8 "交易金额")]);
      (utf8 "amount_validation", PyBool true);
      (utf8 "date_validation", PyBool true)
    ])
  ].

(** The instance: [self.config], [self.data], [self.field_mappings]. *)
Record Converter := {
  config : pyobj;
  data : list record;
  field_mappings : list (str * str)
}.

(** [__init__] *)
Definition init : Converter :=
  {| config := load_default_config; data := []; field_mappings := [] |}.

(** What a path names on disk; a file is kept as its decoded text. *)
Inductive fs_node :=
| FsFile (text : str)
| FsDir.

Section LoadConfig.

(** The file system, and [yaml.safe_load] on a file's text. *)
Variable fs : str -> option fs_node.
Variable safe_load : str -> outcome pyobj.

(** [load_config]: the instance after the call, or the exception it
    raises (the instance is then as before). *)
Definition load_config (self : Converter) (config_path : str) : outcome Converter :=
  match fs config_path with
  | None => mret self
  | Some FsDir => Raise IsADirectoryError
  | Some (FsFile text) =>
      c ← safe_load text;
      mret {| config := c; data := data self; field_mappings := field_mappings self |}
  end.

End LoadConfig.

(** The characters [rstrip('；;。.')] removes. *)
Definition trailing_punctuation : str := utf8 "；;。.".

Definition default_header_name_patterns : pyobj :=
  PyList [
    PyStr (utf8 "^客户姓名[：:]\s*(.+?)(?:\s|$)");
    PyStr (utf8 "^姓名[：:]\s*(.+?)(?:\s|$)");
    PyStr (utf8 "^(.+?)(?:\s|$)")
  ].

(** The loop of [extract_name_from_header] over the candidate patterns:
    [re.error] moves on to the next pattern, any other exception leaves
    the method. *)
Fixpoint try_header_patterns (patterns : list pyobj) (first_line : str)
  : outcome (option str) :=
  match patterns with
  | [] => mret None
  | pattern :: rest =>
      match re_search pattern first_line with
      | Raise ReError => try_header_patterns rest first_line
      | Raise e => Raise e
      | Unmodelled => Unmodelled
      | Return (pat, None) => try_header_patterns rest first_line
      | Return (pat, Some m) =>
          name ← group1_strip pat first_line m;
          let name := rstrip trailing_punctuation name in
          if (1 <=? length name) && (length name <=? 10)
          then
            '(_, bad) ← re_search (PyStr (utf8 "[\d\(\)\[\]/\\\-_=+]")) name;
            match bad with
            | None => mret (Some name)
            | Some _ => try_header_patterns rest first_line
            end
          else try_header_patterns rest first_line
      end
  end.

(** [extract_name_from_header] *)
Definition extract_name_from_header (config : pyobj) (entry : str) : outcome (option str) :=
  rules ← getitem config (utf8 "parsing_rules");
  enabled ← py_get rules (utf8 "header_name_extraction") (PyBool true);
  if negb (truthy enabled) then mret None
  else
    match split_char 10 (strip entry) with
    | [] => mret None
    | line :: _ =>
        let first_line := strip line in
        rules ← getitem config (utf8 "parsing_rules");
        header_patterns ← py_get rules (utf8 "header_name_patterns")
                            default_header_name_patterns;
        patterns ← py_iter header_patterns;
        try_header_patterns patterns first_line
    end.

(** [record.get(field, "")] for whatever a list of required fields holds:
    a list or a dictionary cannot be a key. *)
Definition record_get_obj (r : record) (field : pyobj) : outcome str :=
  match field with
  | PyStr k => mret (default [] (dict_get k r))
  | PyList _ | PyDict _ => Raise TypeError
  | _ => mret []
  end.

(** The loop of [validate_record] over the required fields: [false] as
    soon as one is blank. *)
Fixpoint required_present (fields : list pyobj) (r : record) : outcome bool :=
  match fields with
  | [] => mret true
  | field :: rest =>
      v ← record_get_obj r field;
      if bool_decide (strip v = []) then mret false
      else required_present rest r
  end.

(** [validate_record] *)
Definition validate_record (config : pyobj) (r : record) : outcome bool :=
  validation ← getitem config (utf8 "validation");
  required ← getitem validation (utf8 "required_fields");
  if negb (truthy required) then mret true
  else
    validation ← getitem config (utf8 "validation");
    required ← getitem validation (utf8 "required_fields");
    fields ← py_iter required;
    ok ← required_present fields r;
    if negb ok then mret false
    else
      validation ← getitem config (utf8 "validation");
      amount_validation ← getitem validation (utf8 "amount_validation");
      if truthy amount_validation
      then
        let amount := default [] (dict_get (utf8 "交易金额") r) in
        if bool_decide (amount = []) then mret true
        else
          '(_, found) ← re_search (PyStr (utf8 "\d+\.?\d*")) amount;
          match found with
          | None => mret false
          | Some _ => mret true
          end
      else mret true.

(** [clean_amount] *)
Definition clean_amount (amount_str : str) : outcome pyfloat :=
  if bool_decide (amount_str = []) then mret (FFinite 0)
  else
    let subject := remove_char (ch ",") amount_str in
    '(pat, found) ← re_search (PyStr (utf8 "(\d+\.?\d*)")) subject;
    match found with
    | Some m =>
        g ← match_group1 pat subject m;
        match g with
        | Some t => py_float t
        | None => Raise TypeError
        end
    | None => mret (FFinite 0)
    end.

(** The loop of [parse_markdown_content] over [date_matches], which
    builds [sections]; [last_end] is the end of the section before. *)
Fixpoint build_sections (pat : Pattern) (date_pattern : pyobj) (content : str)
    (last_end : nat) (date_matches : list Match) : outcome (list (option str * str)) :=
  match date_matches with
  | [] => mret []
  | m :: rest =>
      let before :=
        if last_end <? m_start m
        then [(None, slice content last_end (m_start m))]
        else [] in
      '(_, next_date) ← re_search date_pattern (drop (m_end m) content);
      let section_end :=
        match next_date with
        | Some nd => m_end m + m_start nd
        | None => length content
        end in
      date ← match_group1 pat content m;
      sections ← build_sections pat date_pattern content section_end rest;
      mret (before ++ (date, slice content (m_start m) section_end) :: sections)
  end.

(** The first half of [parse_markdown_content]: the list [sections]. *)
Definition date_sections (config : pyobj) (content : str)
  : outcome (list (option str * str)) :=
  rules ← getitem config (utf8 "parsing_rules");
  date_pattern ← getitem rules (utf8 "date_pattern");
  rules ← getitem config (utf8 "parsing_rules");
  entry_pattern ← getitem rules (utf8 "entry_pattern");
  '(pat, date_matches) ← re_finditer_multiline date_pattern content;
  build_sections pat date_pattern content 0 date_matches.

(** [re.split(r'### ', section)[1:]] *)
Definition entry_marker : str := utf8 "### ".

Definition section_entries (section : str) : outcome (list str) :=
  pieces ← re_split entry_marker section;
  mret (tail pieces).

(** The loop over the field patterns, for one entry. *)
Fixpoint extract_fields (fields : list (str * pyobj)) (entry : str) (r : record)
  : outcome record :=
  match fields with
  | [] => mret r
  | (field_name, pattern) :: rest =>
      '(pat, found) ← re_search pattern entry;
      r' ← match found with
           | Some m =>
               value ← group1_strip pat entry m;
               mret (dict_set field_name (rstrip trailing_punctuation value) r)
           | None =>
               if bool_decide (field_name = utf8 "姓名")
                  && bool_decide (default [] (dict_get (utf8 "姓名") r) = [])
               then mret (dict_set field_name [] r)
               else mret (dict_set field_name (default [] (dict_get field_name r)) r)
           end;
      extract_fields rest entry r'
  end.

(** The body of the loop over the entries of a section: the record when
    it passes [validate_record], [None] when it is dropped. *)
Definition parse_entry (config : pyobj) (current_date : str) (entry : str)
  : outcome (option record) :=
  let r := [(utf8 "日期", current_date)] in
  header_name ← extract_name_from_header config entry;
  let r := match header_name with
           | Some (c :: name) => dict_set (utf8 "姓名") (c :: name) r
           | _ => r
           end in
  rules ← getitem config (utf8 "parsing_rules");
  field_patterns ← getitem rules (utf8 "field_patterns");
  fields ← py_items field_patterns;
  r ← extract_fields fields entry r;
  ok ← validate_record config r;
  mret (if ok : bool then Some r else None).

Fixpoint parse_entries (config : pyobj) (current_date : str) (entries : list str)
  : outcome (list record) :=
  match entries with
  | [] => mret []
  | entry :: rest =>
      if bool_decide (strip entry = []) then parse_entries config current_date rest
      else
        r ← parse_entry config current_date entry;
        records ← parse_entries config current_date rest;
        mret (match r with Some x => x :: records | None => records end)
  end.

(** The loop over [sections]. *)
Fixpoint parse_sections (config : pyobj) (sections : list (option str * str))
  : outcome (list record) :=
  match sections with
  | [] => mret []
  | (None, _) :: rest => parse_sections config rest
  | (Some date, section) :: rest =>
      entries ← section_entries section;
      records ← parse_entries config date entries;
      more ← parse_sections config rest;
      mret (records ++ more)
  end.

(** [parse_markdown_content] *)
Definition parse_markdown_content (config : pyobj) (content : str)
  : outcome (list record) :=
  sections ← date_sections config content;
  parse_sections config sections.

(** The entries the segmenter hands to the extractor, each with the date
    of its section, in the order the loops visit them. *)
Fixpoint raw_entries_of (sections : list (option str * str)) : outcome (list (str * str)) :=
  match sections with
  | [] => mret []
  | (None, _) :: rest => raw_entries_of rest
  | (Some date, section) :: rest =>
      entries ← section_entries section;
      more ← raw_entries_of rest;
      mret (map (fun e => (date, e)) entries ++ more)
  end.

Definition raw_entries (config : pyobj) (content : str) : outcome (list (str * str)) :=
  sections ← date_sections config content;
  raw_entries_of sections.

(** *** The head of [export_to_excel]: the frame and its numeric column *)

(** A cell of the exported frame; a key a record lacks is NaN. *)
Inductive xcell :=
| XStr (s : str)
| XFloat (f : pyfloat)
| XNaN.

(** [pd.DataFrame(data).columns]: the keys in order of first appearance. *)
Definition frame_columns (data : list record) : list str :=
  foldl (fun cols r =>
           foldl (fun cols kv =>
                    if bool_decide (fst kv ∈ cols) then cols else cols ++ [fst kv])
                 cols r)
        [] data.

Definition frame_row (cols : list str) (r : record) : list (str * xcell) :=
  map (fun c => (c, match dict_get c r with Some v => XStr v | None => XNaN end)) cols.

(** [self.clean_amount] applied to a cell of the amount column. *)
Definition clean_amount_cell (c : option xcell) : outcome pyfloat :=
  match c with
  | Some (XStr v) => clean_amount v
  | _ => Raise AttributeError
  end.

Fixpoint add_amount_column (rows : list (list (str * xcell)))
  : outcome (list (list (str * xcell))) :=
  match rows with
  | [] => mret []
  | row :: rest =>
      a ← clean_amount_cell (dict_get (utf8 "交易金额") row);
      rest' ← add_amount_column rest;
      mret (dict_set (utf8 "金额数值") (XFloat a) row :: rest')
  end.

(** The frame [export_to_excel] writes to the main sheet. *)
Definition export_frame (data : list record) : outcome (list (list (str * xcell))) :=
  match data with
  | [] => Raise ValueError
  | _ =>
      let cols := frame_columns data in
      let rows := map (frame_row cols) data in
      if bool_decide (utf8 "交易金额" ∈ cols) then add_amount_column rows
      else mret rows
  end.

End Converter.

(** * Specification-side definitions

    The notions the properties below are stated with: runs of digits and
    the first decimal number of a string, the rejection rule of a record,
    configurations that differ in one key, and the headings, sections and
    entries of a document. *)

Module ReSpec.
Import Re.

(** The state after the longest run of code points [p] accepts. *)
Fixpoint run_state (p : N -> bool) (pos : nat) (prev : option N) (rest : str)
    (g : list (nat * (nat * nat))) : mstate :=
  match rest with
  | c :: rest' =>
      if p c then run_state p (S pos) (Some c) rest' g
      else {| m_pos := pos; m_prev := prev; m_rest := rest; m_groups := g |}
  | [] => {| m_pos := pos; m_prev := prev; m_rest := []; m_groups := g |}
  end.

(** The code point before the position [run_state] stops at. *)
Fixpoint run_prev (p : N -> bool) (prev : option N) (rest : str) : option N :=
  match rest with
  | c :: rest' => if p c then run_prev p (Some c) rest' else prev
  | [] => prev
  end.

(** The longest prefix of code points [p] accepts. *)
Fixpoint prefix_by (p : N -> bool) (s : str) : str :=
  match s with
  | c :: s' => if p c then c :: prefix_by p s' else []
  | [] => []
  end.

(** The longest prefix of decimal digits. *)
Definition digits_prefix (s : str) : str := prefix_by is_digit s.

(** The decimal number [s] starts with: digits, then optionally a point
    and the digits after it. *)
Definition decimal_number_at (s : str) : option str :=
  match digits_prefix s with
  | [] => None
  | ip =>
      match drop (length ip) s with
      | c :: r => if (c =? 46)%N then Some (ip ++ 46%N :: digits_prefix r) else Some ip
      | [] => Some ip
      end
  end.

(** The first decimal number in [s]. *)
Fixpoint first_decimal_number (s : str) : option str :=
  match decimal_number_at s with
  | Some t => Some t
  | None =>
      match s with
      | [] => None
      | _ :: s' => first_decimal_number s'
      end
  end.

(** [\d+\.?\d*] compiled. *)
Definition amount_regex : regex :=
  RSeq (RRepeat 1 None true (RSet false [IDigit]))
    (RSeq (RRepeat 0 (Some 1) true (RLit 46))
       (RSeq (RRepeat 0 None true (RSet false [IDigit])) REmpty)).

End ReSpec.

Module ConverterSpec.
Import Re ReSpec Converter.

(** A value that is empty or made of whitespace only. *)
Definition whitespace_only (v : str) : Prop := Forall (fun c => is_space c = true) v.

(** [record.get(field, "")] *)
Definition field_value (r : record) (field : str) : str := default [] (dict_get field r).

(** The rejection rule in the words of the specification: some required
    field is empty or whitespace-only, or amount validation is on and the
    amount is not empty but has no decimal digit in it. *)
Definition spec_rejects (required_fields : list str) (amount_validation : bool)
    (r : record) : Prop :=
  (∃ f, f ∈ required_fields ∧ whitespace_only (field_value r f))
  ∨ (amount_validation = true
     ∧ field_value r (utf8 "交易金额") ≠ []
     ∧ Forall (fun c => is_digit c = false) (field_value r (utf8 "交易金额"))).

(** The configuration asks for these required fields and this amount
    validation. *)
Definition validation_of (config : pyobj) (required_fields : list str)
    (amount_validation : bool) : Prop :=
  ∃ v, getitem config (utf8 "validation") = Return v
       ∧ getitem v (utf8 "required_fields") = Return (PyList (PyStr <$> required_fields))
       ∧ getitem v (utf8 "amount_validation") = Return (PyBool amount_validation).

(** [config["validation"]["required_fields"] = fields] on a configuration
    of the default shape. *)
Definition with_required_fields (fields : list str) (config : pyobj) : pyobj :=
  match config with
  | PyDict d =>
      match dict_get (utf8 "validation") d with
      | Some (PyDict v) =>
          PyDict (dict_set (utf8 "validation")
                    (PyDict (dict_set (utf8 "required_fields") (PyList (PyStr <$> fields)) v)) d)
      | _ => config
      end
  | _ => config
  end.

(** [config["parsing_rules"]["entry_pattern"] = v]; a configuration that
    has no dictionary of parsing rules is left as it is. *)
Definition with_entry_pattern (v : pyobj) (config : pyobj) : pyobj :=
  match config with
  | PyDict d =>
      match dict_get (utf8 "parsing_rules") d with
      | Some (PyDict p) =>
          PyDict (dict_set (utf8 "parsing_rules")
                    (PyDict (dict_set (utf8 "entry_pattern") v p)) d)
      | _ => config
      end
  | _ => config
  end.

(** Two dictionaries of parsing rules that differ at most in the value of
    [entry_pattern], which both hold. *)
Definition rules_agree (r1 r2 : pyobj) : Prop :=
  (forall k, k ≠ utf8 "entry_pattern" -> getitem r1 k = getitem r2 k)
  ∧ (forall k d, k ≠ utf8 "entry_pattern" -> py_get r1 k d = py_get r2 k d)
  ∧ (∃ v, getitem r1 (utf8 "entry_pattern") = Return v)
  ∧ (∃ v, getitem r2 (utf8 "entry_pattern") = Return v).

(** Two configurations that differ at most in
    [parsing_rules.entry_pattern]. *)
Definition configs_agree (c1 c2 : pyobj) : Prop :=
  (forall k, k ≠ utf8 "parsing_rules" -> getitem c1 k = getitem c2 k)
  ∧ ∃ r1 r2, getitem c1 (utf8 "parsing_rules") = Return r1
             ∧ getitem c2 (utf8 "parsing_rules") = Return r2
             ∧ rules_agree r1 r2.

(** *** Sample data *)

(** A record with a name and an amount that holds no digit. *)
Definition sample_record : record :=
  [(utf8 "日期", utf8 "2025-01-19"); (utf8 "姓名", utf8 "张三");
   (utf8 "交易金额", utf8 "abc")].

(** A configuration file that holds the validation rules only. *)
Definition partial_config : pyobj :=
  PyDict [
    (utf8 "validation", PyDict [
      (utf8 "required_fields", PyList [PyStr (utf8 "姓名")]);
      (utf8 "amount_validation", PyBool false)
    ])
  ].

Definition sample_fs (path : str) : option fs_node :=
  if bool_decide (path = utf8 "config.yaml") then Some (FsFile (utf8 "validation: ..."))
  else if bool_decide (path = utf8 "configs") then Some FsDir
  else None.

Definition sample_safe_load (text : str) : outcome pyobj :=
  if bool_decide (text = utf8 "validation: ...") then Return partial_config
  else Raise YAMLError.

(** The entry of the extractor example, alone and in a document. *)
Definition sample_entry : str := utf8 "张三
交易金额：100.50元；
".

Definition sample_document : str := utf8 "## 2025-01-19
### 张三
交易金额：100.50元；
".

End ConverterSpec.

Module SegmenterSpec.
Import Re ReSpec Converter ConverterSpec.

(** [## (\d{4}-\d{2}-\d{2})] compiled. *)
Definition date_regex : regex :=
  RSeq (RLit 35) (RSeq (RLit 35) (RSeq (RLit 32)
    (RSeq (RGroup 1
             (RSeq (RRepeat 4 (Some 4) true (RSet false [IDigit]))
                (RSeq (RLit 45)
                   (RSeq (RRepeat 2 (Some 2) true (RSet false [IDigit]))
                      (RSeq (RLit 45)
                         (RSeq (RRepeat 2 (Some 2) true (RSet false [IDigit])) REmpty))))))
          REmpty))).

(** [### ] compiled. *)
Definition marker_regex : regex :=
  RSeq (RLit 35) (RSeq (RLit 35) (RSeq (RLit 35) (RSeq (RLit 32) REmpty))).

(** A date as the default pattern reads it: dddd-dd-dd. *)
Definition is_date_text (t : str) : bool :=
  match t with
  | [y1; y2; y3; y4; a; m1; m2; b; d1; d2] =>
      is_digit y1 && is_digit y2 && is_digit y3 && is_digit y4 && (a =? 45)%N
      && is_digit m1 && is_digit m2 && (b =? 45)%N && is_digit d1 && is_digit d2
  | _ => false
  end.

(** The date of the heading [s] starts with, if it starts with one: the
    text "## " and a date. *)
Definition date_heading (s : str) : option str :=
  if bool_decide (take 3 s = utf8 "## ") && is_date_text (take 10 (drop 3 s))
  then Some (take 10 (drop 3 s))
  else None.

(** Every date heading of the text [s], which starts at [pos]: where it
    starts and its date. *)
Fixpoint headings_from (pos : nat) (s : str) : list (nat * str) :=
  match date_heading s with Some d => [(pos, d)] | None => [] end
  ++ match s with
     | [] => []
     | _ :: s' => headings_from (S pos) s'
     end.

Definition headings (content : str) : list (nat * str) := headings_from 0 content.

(** One section per heading, from the heading to the next one or to the
    end of the text. *)
Fixpoint sections_of (content : str) (hs : list (nat * str)) : list (option str * str) :=
  match hs with
  | [] => []
  | (start, d) :: rest =>
      (Some d, slice content start
                 (match rest with
                  | (next, _) :: _ => next
                  | [] => length content
                  end))
      :: sections_of content rest
  end.

(** The sections in the words of the specification: the text before the
    first heading as a section without a date, when there is such text,
    then the dated sections. *)
Definition spec_sections (content : str) : list (option str * str) :=
  match headings content with
  | [] => []
  | (start, d) :: rest =>
      (if 0 <? start then [(None, slice content 0 start)] else [])
      ++ sections_of content ((start, d) :: rest)
  end.

Definition starts_with (marker s : str) : bool :=
  bool_decide (take (length marker) s = marker).

Definition cons_head (c : N) (pieces : list str) : list str :=
  match pieces with
  | p :: ps => (c :: p) :: ps
  | [] => [[c]]
  end.

(** [s] split on the entry marker; [skip] counts the code points of a
    marker still to pass over. *)
Fixpoint split_marker_from (s : str) (skip : nat) : list str :=
  match skip with
  | S k =>
      match s with
      | [] => [[]]
      | _ :: s' => split_marker_from s' k
      end
  | O =>
      match s with
      | [] => [[]]
      | c :: s' =>
          if starts_with entry_marker s
          then [] :: split_marker_from s' (length entry_marker - 1)
          else cons_head c (split_marker_from s' 0)
      end
  end.

Definition split_marker (s : str) : list str := split_marker_from s 0.

(** The number of entry markers in [s]. *)
Definition marker_count (s : str) : nat := length (split_marker s) - 1.

(** The raw entries in the words of the specification. *)
Definition spec_raw_entries_of (sections : list (option str * str)) : list (str * str) :=
  flat_map (fun sec =>
              match fst sec with
              | Some d => (fun e => (d, e)) <$> tail (split_marker (snd sec))
              | None => []
              end) sections.

Definition spec_raw_entries (content : str) : list (str * str) :=
  spec_raw_entries_of (spec_sections content).

(** [a] put in front of the first piece. *)
Definition prepend_head (a : str) (pieces : list str) : list str :=
  match pieces with
  | p :: ps => (a ++ p) :: ps
  | [] => [a]
  end.

(** The loops over the entries, run on the raw entries. *)
Fixpoint parse_raw_entries (config : pyobj) (entries : list (str * str))
  : outcome (list record) :=
  match entries with
  | [] => mret []
  | (date, entry) :: rest =>
      if bool_decide (strip entry = []) then parse_raw_entries config rest
      else
        r ← parse_entry config date entry;
        records ← parse_raw_entries config rest;
        mret (match r with Some x => x :: records | None => records end)
  end.

(** A text with a preamble and two dates. *)
Definition sample_text : str :=
  utf8 "intro
## 2025-01-19
first day
### A
x
### B
### C
## 2025-01-20
### D".

(** The match object of a date heading that starts at [p]. *)
Definition heading_match (p : nat) : Match :=
  {| m_start := p; m_end := 13 + p; m_spans := [(1, (3 + p, 13 + p))] |}.

(** The match object of an entry marker that starts at [p]. *)
Definition marker_match (p : nat) : Match :=
  {| m_start := p; m_end := 4 + p; m_spans := [] |}.

(** The configuration has the default date pattern, and an entry
    pattern, which the method reads. *)
Definition default_dates (config : pyobj) : Prop :=
  ∃ rules v,
    getitem config (utf8 "parsing_rules") = Return rules
    ∧ getitem rules (utf8 "date_pattern") = Return (PyStr (utf8 "## (\d{4}-\d{2}-\d{2})"))
    ∧ getitem rules (utf8 "entry_pattern") = Return v.




End SegmenterSpec.

(** * The rest of [CustomerTypeMarker]: the column check, the counters
    and [process] *)

Module MarkerRun.
Import Marker.

(** [validate_columns] *)
Definition validate_columns (df : DataFrame) : bool :=
  if length (columns df) <? 20 then false else true.

(** The counters [(new_count, existing_count)] of the loop of
    [mark_customer_types], after the row [r]. *)
Definition count_row (pre : gset cell) (counts : nat * nat) (r : list cell) : nat * nat :=
  let order_date := row_get r date_col_idx in
  let customer_id := row_get r id_col_idx in
  if pd_isna order_date || pd_isna customer_id then counts
  else if before_2025 order_date then (fst counts, S (snd counts))
  else if bool_decide (customer_id ∈ pre) then (fst counts, S (snd counts))
  else (S (fst counts), snd counts).

(** How many cells of a column hold the label [l]. *)
Definition count_label (l : str) (col : list cell) : nat :=
  length (filter (fun c => c = CStr l) col).

(** What a call of [process] came to: the step that returned False, or
    the table and the worksheet handed to [save_file] when every step
    returned True. *)
Inductive run :=
| LoadFailed
| ColumnsRejected
| MarkFailed
| FormatFailed
| SaveFailed
| Saved (df : DataFrame) (ws : gmap (nat * nat) Cell).

Section Run.

(** pandas' parser of text dates, the read-only cells of the sheet, and
    whether [self.wb.save] succeeds. *)
Variable coerce_other : list cell -> cell -> parsed.
Variable merged : gset (nat * nat).
Variable save_file : gmap (nat * nat) Cell -> bool.

(** [new_count] and [existing_count] when the loop of
    [mark_customer_types] ends. *)
Definition mark_counts (df : DataFrame) : option (nat * nat) :=
  if length (columns df) <? 20 then None
  else
    match to_datetime coerce_other (get_column date_col_idx (data df)) with
    | None => None
    | Some dates =>
        let rows1 := set_column date_col_idx dates (data df) in
        let pre := pre_2025_customers rows1 in
        let rows2 := set_column mark_col_idx ((fun _ => CStr []) <$> rows1) rows1 in
        Some (foldl (count_row pre) (0, 0) rows2)
    end.

(** [process], from what [load_data] read: [None] when it returned
    False. *)
Definition process (loaded : option (DataFrame * gmap (nat * nat) Cell)) : run :=
  match loaded with
  | None => LoadFailed
  | Some (df, ws) =>
      if negb (validate_columns df) then ColumnsRejected
      else
        match mark_customer_types coerce_other df with
        | None => MarkFailed
        | Some df' =>
            match apply_formatting merged df' ws with
            | None => FormatFailed
            | Some ws' => if save_file ws' then Saved df' ws' else SaveFailed
            end
        end
  end.

End Run.

(** The date cells of a table read from Excel date cells: a datetime or
    nothing. *)
Definition dates_read (df : DataFrame) : Prop :=
  Forall (fun c => c = CNa ∨ ∃ t, c = CDatetime t) (get_column date_col_idx (data df)).

(** The rows of the small table that hold a date cell or none, and the
    same rows from the last to the first. *)
Definition sample_dated_rows : list (list cell) :=
  [sample_row (CDatetime (Timestamp 2024 3 5)) old_customer CNa;
   sample_row (CDatetime (Timestamp 2025 2 1)) old_customer CNa;
   sample_row (CDatetime (Timestamp 2025 2 3)) new_customer CNa;
   sample_row CNa new_customer (CStr label_new)].

Definition sample_dated : DataFrame :=
  {| columns := sample_headers; data := sample_dated_rows |}.

Definition sample_dated_reversed : DataFrame :=
  {| columns := sample_headers; data := reverse sample_dated_rows |}.

End MarkerRun.

(** * The callers of the converter: the settings of the window and the
    command line *)

Module ConverterRun.
Import Re ReSpec Converter ConverterSpec SegmenterSpec.






Section Callers.

(** The file system, and [yaml.safe_load] on a text. *)
Variable fs : str -> option fs_node.
Variable safe_load : str -> outcome pyobj.








End Callers.



(** *** Notions the properties are stated with *)

Definition date_key : str := utf8 "日期".
Definition name_key : str := utf8 "姓名".
Definition amount_key : str := utf8 "交易金额".
Definition amount_value_key : str := utf8 "金额数值".

(** The record [parse_entry] starts from. *)
Definition first_record (date : str) (header_name : option str) : record :=
  match header_name with
  | Some (c :: name) => dict_set name_key (c :: name) [(date_key, date)]
  | _ => [(date_key, date)]
  end.


(** A value that does not end with one of the marks [rstrip] removes. *)
Definition ends_clean (v : str) : Prop :=
  forall c, last v = Some c -> existsb (N.eqb c) trailing_punctuation = false.

(** The code points the check of a header name refuses: a decimal digit
    or one of ( ) [ ] / \ - _ = + *)
Definition name_forbidden (c : N) : bool :=
  is_digit c || existsb (N.eqb c) (utf8 "()[]/\-_=+").

(** The names of the configured fields. *)
Definition field_names (config : pyobj) : outcome (list str) :=
  rules ← getitem config (utf8 "parsing_rules");
  field_patterns ← getitem rules (utf8 "field_patterns");
  fields ← py_items field_patterns;
  mret (fst <$> (fields : list (str * pyobj))).

(** A float that is zero or more. *)
Definition float_nonneg (f : pyfloat) : Prop :=
  match f with
  | FFinite q => (0 <= q)%Q
  | FInf => True
  end.

(** [sep.join(pieces)] *)
Fixpoint join (sep : str) (pieces : list str) : str :=
  match pieces with
  | [] => []
  | [p] => p
  | p :: ps => p ++ sep ++ join sep ps
  end.

(** [\[\d\(\)\[\]/\\\-_=+\]] compiled. *)
Definition name_check_regex : regex :=
  RSeq (RSet false [IDigit; IChar 40; IChar 41; IChar 91; IChar 93; IChar 47;
                    IChar 92; IChar 45; IChar 95; IChar 61; IChar 43]) REmpty.

(** *** Sample data *)

(** The default configuration without its output settings. *)
Definition sample_bare_config : pyobj :=
  match load_default_config with
  | PyDict d =>
      PyDict (List.filter (fun kv => negb (bool_decide (fst kv = utf8 "output_settings"))) d)
  | c => c
  end.




End ConverterRun.

(** * What the extractor reads: the first word of the header and the
    text after a label *)

Module ExtractorSpec.
Import Re ReSpec Converter ConverterSpec ConverterRun.

(** [entry.strip().split('\n')[0].strip()] *)
Definition first_line (entry : str) : str :=
  strip (hd [] (split_char 10 (strip entry))).

(** The first word of a line that starts with it: its code points up to
    the first whitespace. *)
Definition first_word (line : str) : str :=
  match line with
  | [] => []
  | c :: rest => c :: prefix_by (fun x => negb (is_space x)) rest
  end.

(** The check of a candidate name: 1 to 10 code points, none of them
    refused. *)
Definition name_accepted (name : str) : bool :=
  (1 <=? length name) && (length name <=? 10)
  && forallb (fun c => negb (name_forbidden c)) name.

(** [^(.+?)(?:\s|$)] compiled. *)
Definition header_word_regex : regex :=
  RSeq RBol
    (RSeq (RGroup 1 (RSeq (RRepeat 1 None false RAny) REmpty))
       (RSeq (RAlt (RSeq (RSet false [ISpace]) REmpty) (RSeq REol REmpty)) REmpty)).

(** The colons [[：:]] and the semicolons [[；;]] of the field patterns. *)
Definition is_colon (c : N) : bool := (c =? 65306)%N || (c =? 58)%N.
Definition is_semicolon (c : N) : bool := (c =? 65307)%N || (c =? 59)%N.

(** The value that follows a label and its colon: the whitespace in front
    is passed over, and the value runs to the next semicolon or to the
    end. *)
Definition labelled_value (u : str) : str :=
  prefix_by (fun x => negb (is_semicolon x)) (lstrip_by is_space u).

(** [s] starts with the label and a colon. *)
Definition label_at (label s : str) : bool :=
  bool_decide (take (length label) s = label)
  && match drop (length label) s with
     | c :: _ => is_colon c
     | [] => false
     end.

(** The fields of the default configuration whose pattern is the label,
    a colon, whitespace and the value. *)
Definition plain_fields : list str :=
  utf8 <$> ["姓名"; "交易笔数"; "交易金额"; "交易日期"; "交易时间";
            "支付方式"; "商户"; "备注"]%string.

(** The pattern of a plain field. *)
Definition plain_pattern (label : str) : str := label ++ utf8 "[：:]\s*([^；;]+)".

(** [[：:]\s*([^；;]+)] compiled, and the pattern of a plain field. *)
Definition value_regex : regex :=
  RSeq (RSet false [IChar 65306; IChar 58])
    (RSeq (RRepeat 0 None true (RSet false [ISpace]))
       (RSeq (RGroup 1 (RSeq (RRepeat 1 None true (RSet true [IChar 65307; IChar 59]))
                          REmpty))
          REmpty)).

Fixpoint literals (label : str) (r : regex) : regex :=
  match label with
  | [] => r
  | c :: label' => RSeq (RLit c) (literals label' r)
  end.

Definition field_regex (label : str) : regex := literals label value_regex.

(** The pattern ends with group [n], so that the group takes part in
    every match. *)
Fixpoint closes_group (n : nat) (r : regex) : bool :=
  match r with
  | RSeq (RGroup m _) REmpty => m =? n
  | RSeq _ b => closes_group n b
  | _ => false
  end.

(** The amount of the example, and what follows its colon. *)
Definition example_amount : str := utf8 "交易金额：100.50元；".
Definition example_value : str := utf8 "100.50元；".

(** Two entries whose first line is 张三 and whose body holds
    交易金额：100.50元；: one with another amount in front, one with a
    name label. *)
Definition two_amounts_entry : str := utf8 "张三
交易金额：7元；交易金额：100.50元；
".

Definition named_entry : str := utf8 "张三
姓名：李四；交易金额：100.50元；
".

End ExtractorSpec.

(** * Properties of the customer type marker *)

Module MarkerProps.
Import Marker.

Lemma row_get_insert_eq (r : list cell) (j : nat) (v : cell) :
  j < length r -> row_get (<[j := v]> r) j = v.
Proof. intros Hj. unfold row_get. by rewrite list_lookup_insert_eq. Qed.

Lemma row_get_insert_ne (r : list cell) (j k : nat) (v : cell) :
  j ≠ k -> row_get (<[j := v]> r) k = row_get r k.
Proof. intros Hjk. unfold row_get. by rewrite list_lookup_insert_ne. Qed.

Lemma lookup_set_column (j i : nat) (vals : list cell) (rows : list (list cell)) r v :
  rows !! i = Some r -> vals !! i = Some v ->
  set_column j vals rows !! i = Some (<[j := v]> r).
Proof.
  intros Hr Hv. unfold set_column. rewrite lookup_zip_with, Hr. simpl. by rewrite Hv.
Qed.

Lemma lookup_get_column (j i : nat) (rows : list (list cell)) :
  get_column j rows !! i = (fun r => row_get r j) <$> rows !! i.
Proof. unfold get_column. apply list_lookup_fmap. Qed.

Lemma mark_row_length pre r : length (mark_row pre r) = length r.
Proof.
  unfold mark_row. repeat case_match; by rewrite ?length_insert.
Qed.

Lemma mark_row_keeps pre r k : k ≠ mark_col_idx -> row_get (mark_row pre r) k = row_get r k.
Proof.
  intros Hk. unfold mark_row. repeat case_match; try done; by rewrite row_get_insert_ne.
Qed.

Lemma mark_row_label pre r :
  mark_col_idx < length r -> row_get r mark_col_idx = CStr [] ->
  row_get (mark_row pre r) mark_col_idx
  = label_for pre (row_get r date_col_idx) (row_get r id_col_idx).
Proof.
  intros Hlen Hinit. unfold mark_row, label_for.
  destruct (pd_isna _ || pd_isna _); [done|].
  destruct (before_2025 _); simpl; [by rewrite row_get_insert_eq|].
  destruct (bool_decide _); by rewrite row_get_insert_eq.
Qed.

Section Classifier.
Variable coerce_other : list cell -> cell -> parsed.
Variable merged : gset (nat * nat).

Lemma coerce_cells_length col : length (coerce_cells coerce_other col) = length col.
Proof. unfold coerce_cells. by rewrite length_fmap. Qed.

Lemma coerce_cells_shape col c :
  c ∈ coerce_cells coerce_other col -> c = CNa ∨ ∃ t, c = CDatetime t.
Proof.
  unfold coerce_cells. intros (x & -> & _)%list_elem_of_fmap.
  destruct x; eauto. all: destruct (coerce_other col _); eauto.
Qed.

Lemma coerce_cells_fixed col :
  (forall c, c ∈ col -> c = CNa ∨ ∃ t, c = CDatetime t) ->
  coerce_cells coerce_other col = col.
Proof.
  intros Hcol. unfold coerce_cells.
  transitivity (id <$> col); [|apply list_fmap_id].
  apply list_fmap_ext. intros i x Hx.
  destruct (Hcol x) as [-> | [t ->]]; [by eapply list_elem_of_lookup_2|done..].
Qed.

Lemma to_datetime_Some col dates :
  to_datetime coerce_other col = Some dates -> dates = coerce_cells coerce_other col.
Proof. unfold to_datetime. destruct (existsb _ _); [done|]. by intros [= <-]. Qed.

(** The outcome of [to_datetime] depends on the column only through the
    values read with an offset; a column of datetimes and empty cells has
    none. *)
Lemma to_datetime_fixed col :
  (forall c, c ∈ col -> c = CNa ∨ ∃ t, c = CDatetime t) ->
  to_datetime coerce_other col = Some col.
Proof.
  intros Hcol. unfold to_datetime.
  assert (existsb (reads_offset coerce_other col) col = false) as ->.
  { apply not_true_is_false. intros (c & Hc & Hoff)%existsb_exists.
    apply list_elem_of_In in Hc. by destruct (Hcol c Hc) as [-> | [t ->]]. }
  by rewrite coerce_cells_fixed.
Qed.

Lemma mark_unfold df df' :
  mark_customer_types coerce_other df = Some df' ->
  20 <= length (columns df) ∧ columns df' = columns df ∧
  data df' = mark_row (pre_2025_customers (set_column date_col_idx (coerced_dates coerce_other df) (data df)))
               <$> prepared coerce_other df.
Proof.
  unfold mark_customer_types. destruct (Nat.ltb_spec (length (columns df)) 20); [done|].
  destruct (to_datetime _ _) as [dates|] eqn:Hdates; [|done].
  apply to_datetime_Some in Hdates as ->. intros [= <-]. done.
Qed.

Lemma mark_usable df df' :
  mark_customer_types coerce_other df = Some df' -> dates_usable coerce_other df.
Proof.
  unfold mark_customer_types, dates_usable.
  destruct (length (columns df) <? 20); [done|].
  by destruct (to_datetime _ _).
Qed.

Lemma mark_total df :
  20 <= length (columns df) -> dates_usable coerce_other df ->
  is_Some (mark_customer_types coerce_other df).
Proof.
  intros H [dates Hdates]. unfold mark_customer_types.
  destruct (Nat.ltb_spec (length (columns df)) 20); [lia|].
  rewrite Hdates. eauto.
Qed.

Lemma dates_lookup df i r :
  data df !! i = Some r -> ∃ d, coerced_dates coerce_other df !! i = Some d.
Proof.
  intros Hr. apply lookup_lt_is_Some. unfold coerced_dates.
  rewrite coerce_cells_length. unfold get_column. rewrite length_fmap.
  by eapply lookup_lt_Some.
Qed.

Lemma prepared_lookup df i r d :
  data df !! i = Some r -> coerced_dates coerce_other df !! i = Some d ->
  prepared coerce_other df !! i = Some (<[mark_col_idx := CStr []]> (<[date_col_idx := d]> r)).
Proof.
  intros Hr Hd. unfold prepared.
  apply lookup_set_column.
  - by apply lookup_set_column.
  - rewrite list_lookup_fmap. by erewrite lookup_set_column.
Qed.

Lemma pre_elem (rows : list (list cell)) (x : cell) :
  x ∈ pre_2025_customers rows <->
  x ≠ CNa ∧ ∃ r, r ∈ rows ∧ before_2025 (row_get r date_col_idx) = true
                 ∧ row_get r id_col_idx = x.
Proof.
  unfold pre_2025_customers, get_column.
  rewrite elem_of_list_to_set, list_elem_of_filter, list_elem_of_fmap.
  split.
  - intros [Hna (r & -> & [Hb Hr]%list_elem_of_filter)].
    split; [by destruct (row_get r id_col_idx)|eauto].
  - intros [Hna (r & Hr & Hb & <-)]. split.
    + by destruct (row_get r id_col_idx).
    + exists r. split; [done|]. by apply list_elem_of_filter.
Qed.

(** The pre-2025 set in terms of the two columns it is computed from. *)
Lemma pre_elem_columns df x :
  wf_frame df -> 20 <= length (columns df) ->
  x ∈ pre_2025_customers (set_column date_col_idx (coerced_dates coerce_other df) (data df)) <->
  x ≠ CNa ∧ ∃ j d, coerced_dates coerce_other df !! j = Some d ∧ customer_ids df !! j = Some x
                   ∧ before_2025 d = true.
Proof.
  intros Hwf Hcols. rewrite pre_elem. apply and_iff_compat_l. split.
  - intros (r1 & [j Hj]%list_elem_of_lookup_1 & Hb & Hid).
    unfold set_column in Hj. apply lookup_zip_with_Some in Hj as (r & d & -> & Hr & Hd).
    assert (length r = length (columns df)) as Hlen.
    { eapply (proj1 (Forall_lookup _ _) Hwf); eauto. }
    rewrite row_get_insert_eq in Hb by (unfold date_col_idx; lia).
    rewrite row_get_insert_ne in Hid by done.
    exists j, d. split_and!; [done| |done].
    unfold customer_ids. rewrite lookup_get_column, Hr. simpl. by rewrite Hid.
  - intros (j & d & Hd & Hid & Hb).
    unfold customer_ids in Hid. rewrite lookup_get_column in Hid.
    destruct (data df !! j) as [r|] eqn:Hr; [|done]. simpl in Hid. injection Hid as Hid.
    assert (length r = length (columns df)) as Hlen.
    { eapply (proj1 (Forall_lookup _ _) Hwf); eauto. }
    exists (<[date_col_idx := d]> r). split_and!.
    + eapply list_elem_of_lookup_2. by apply lookup_set_column.
    + rewrite row_get_insert_eq by (unfold date_col_idx; lia). done.
    + by rewrite row_get_insert_ne.
Qed.

(** The label column of the result, row by row. *)
Lemma labels_lookup df df' i d c :
  wf_frame df -> mark_customer_types coerce_other df = Some df' ->
  coerced_dates coerce_other df !! i = Some d -> customer_ids df !! i = Some c ->
  labels df' !! i
  = Some (label_for (pre_2025_customers (set_column date_col_idx (coerced_dates coerce_other df) (data df))) d c).
Proof.
  intros Hwf (Hcols & _ & Hdata)%mark_unfold Hd Hc.
  unfold customer_ids in Hc. rewrite lookup_get_column in Hc.
  destruct (data df !! i) as [r|] eqn:Hr; [|done]. simpl in Hc. injection Hc as <-.
  assert (length r = length (columns df)) as Hlen.
  { eapply (proj1 (Forall_lookup _ _) Hwf); eauto. }
  unfold labels. rewrite lookup_get_column, Hdata, list_lookup_fmap.
  erewrite prepared_lookup by done. simpl. f_equal.
  rewrite mark_row_label.
  - rewrite row_get_insert_ne by done.
    rewrite row_get_insert_eq by (unfold date_col_idx; lia).
    by rewrite !row_get_insert_ne by done.
  - rewrite !length_insert. unfold mark_col_idx. lia.
  - rewrite row_get_insert_eq; [done|]. rewrite length_insert. unfold mark_col_idx. lia.
Qed.

Lemma dates_length df : length (coerced_dates coerce_other df) = length (data df).
Proof.
  unfold coerced_dates. rewrite coerce_cells_length. unfold get_column.
  by rewrite length_fmap.
Qed.

Lemma set_column_length j vals (rows : list (list cell)) :
  length vals = length rows -> length (set_column j vals rows) = length rows.
Proof. intros H. unfold set_column. by rewrite length_zip_with_l_eq. Qed.

Lemma prepared_length df : length (prepared coerce_other df) = length (data df).
Proof.
  unfold prepared. rewrite set_column_length.
  - apply set_column_length, dates_length.
  - by rewrite length_fmap.
Qed.

Lemma labels_length df df' :
  mark_customer_types coerce_other df = Some df' -> length (labels df') = length (data df).
Proof.
  intros (_ & _ & Hdata)%mark_unfold. unfold labels, get_column.
  rewrite Hdata, !length_fmap. apply prepared_length.
Qed.


(** Two tables with the same coerced dates and the same identifiers get
    the same labels, whatever the rest of their cells. *)
Lemma labels_determined df1 df2 out1 out2 :
  wf_frame df1 -> wf_frame df2 ->
  coerced_dates coerce_other df1 = coerced_dates coerce_other df2 ->
  customer_ids df1 = customer_ids df2 ->
  mark_customer_types coerce_other df1 = Some out1 ->
  mark_customer_types coerce_other df2 = Some out2 ->
  labels out1 = labels out2.
Proof.
  intros Hwf1 Hwf2 Hdates Hids H1 H2.
  assert (pre_2025_customers (set_column date_col_idx (coerced_dates coerce_other df1) (data df1))
          = pre_2025_customers (set_column date_col_idx (coerced_dates coerce_other df2) (data df2)))
    as Hpre.
  { apply set_eq. intros x.
    pose proof (mark_unfold _ _ H1) as (? & _).
    pose proof (mark_unfold _ _ H2) as (? & _).
    rewrite !pre_elem_columns by done.
    by rewrite Hdates, Hids. }
  apply list_eq. intros i.
  destruct (customer_ids df1 !! i) as [c|] eqn:Hc.
  - assert (∃ d, coerced_dates coerce_other df1 !! i = Some d) as [d Hd].
    { unfold customer_ids in Hc. rewrite lookup_get_column in Hc.
      destruct (data df1 !! i) eqn:Hr; [|done]. by eapply dates_lookup. }
    rewrite (labels_lookup df1 out1 i d c) by done.
    rewrite (labels_lookup df2 out2 i d c); [by rewrite Hpre|done|done|congruence|congruence].
  - assert (length (data df1) <= i) as Hi.
    { apply lookup_ge_None in Hc. unfold customer_ids, get_column in Hc.
      by rewrite length_fmap in Hc. }
    assert (length (data df2) <= i) as Hi2.
    { rewrite Hids in Hc. apply lookup_ge_None in Hc. unfold customer_ids, get_column in Hc.
      by rewrite length_fmap in Hc. }
    rewrite !(proj2 (lookup_ge_None _ _)); [done|..].
    + by rewrite (labels_length df2 out2).
    + by rewrite (labels_length df1 out1).
Qed.

Lemma mark_wf df df' :
  wf_frame df -> mark_customer_types coerce_other df = Some df' -> wf_frame df'.
Proof.
  intros Hwf (_ & Hcols & Hdata)%mark_unfold. unfold wf_frame.
  rewrite Hcols, Hdata. apply Forall_lookup. intros i r Hr.
  rewrite list_lookup_fmap in Hr.
  destruct (prepared coerce_other df !! i) as [r0|] eqn:Hr0; [|done].
  simpl in Hr. injection Hr as <-. rewrite mark_row_length.
  unfold prepared, set_column in Hr0.
  apply lookup_zip_with_Some in Hr0 as (r1 & v & -> & Hr1 & _).
  apply lookup_zip_with_Some in Hr1 as (r2 & v2 & -> & Hr2 & _).
  rewrite !length_insert. eapply (proj1 (Forall_lookup _ _) Hwf); eauto.
Qed.

(** The date and identifier columns of the result: the dates coerced,
    the identifiers as they were. *)
Lemma mark_columns df df' :
  wf_frame df -> mark_customer_types coerce_other df = Some df' ->
  get_column date_col_idx (data df') = coerced_dates coerce_other df
  ∧ customer_ids df' = customer_ids df.
Proof.
  intros Hwf Hm. pose proof Hm as (Hcols & _ & Hdata)%mark_unfold.
  split; apply list_eq; intros i; unfold customer_ids;
    rewrite lookup_get_column, Hdata, list_lookup_fmap.
  - destruct (data df !! i) as [r|] eqn:Hr.
    + destruct (dates_lookup df i r Hr) as [d Hd].
      assert (length r = length (columns df)) as Hlen.
      { eapply (proj1 (Forall_lookup _ _) Hwf); eauto. }
      erewrite prepared_lookup by done. simpl. rewrite Hd. f_equal.
      rewrite mark_row_keeps by done. rewrite row_get_insert_ne by done.
      rewrite row_get_insert_eq; [done|unfold date_col_idx; lia].
    + rewrite !(proj2 (lookup_ge_None _ _)); [done|..].
      * rewrite dates_length. by apply lookup_ge_None.
      * rewrite prepared_length. by apply lookup_ge_None.
  - rewrite lookup_get_column.
    destruct (data df !! i) as [r|] eqn:Hr.
    + destruct (dates_lookup df i r Hr) as [d Hd].
      erewrite prepared_lookup by done. simpl. f_equal.
      rewrite mark_row_keeps by done. by rewrite !row_get_insert_ne by done.
    + rewrite !(proj2 (lookup_ge_None _ _)); [done|].
      rewrite prepared_length. by apply lookup_ge_None.
Qed.


(** **** The worksheet *)

Lemma format_rows_frame (rows : list (list cell)) (ws ws' : gmap (nat * nat) Cell)
    (k : nat) (key : nat * nat) :
  format_rows merged ws k rows = Some ws' ->
  (forall i, i < length rows ->
             key ≠ (start_row + (k + i), column_index_from_string mark_col_letter)) ->
  ws' !! key = ws !! key.
Proof.
  revert ws k. induction rows as [|r rows IH]; intros ws k H Hkey.
  { by injection H as <-. }
  cbn [format_rows] in H.
  destruct (format_row merged ws k r) as [ws1|] eqn:H1; [|done].
  rewrite (IH _ _ H).
  - unfold format_row in H1. case_bool_decide; [done|]. injection H1 as <-.
    apply lookup_insert_ne.
    specialize (Hkey 0 ltac:(simpl; lia)). rewrite Nat.add_0_r in Hkey. done.
  - intros i Hi. specialize (Hkey (S i) ltac:(simpl; lia)).
    by replace (S k + i) with (k + S i) by lia.
Qed.

Lemma format_rows_lookup (rows : list (list cell)) (ws ws' : gmap (nat * nat) Cell)
    (k i : nat) (r : list cell) :
  format_rows merged ws k rows = Some ws' ->
  rows !! i = Some r ->
  ws' !! (start_row + (k + i), column_index_from_string mark_col_letter)
  = Some (write_mark (ws_cell ws mark_col_letter (start_row + (k + i)))
            (row_get r mark_col_idx)).
Proof.
  revert ws k i. induction rows as [|r0 rows IH]; intros ws k i H Hr; [done|].
  cbn [format_rows] in H.
  destruct (format_row merged ws k r0) as [ws1|] eqn:H1; [|done].
  unfold format_row in H1. case_bool_decide; [done|]. injection H1 as <-.
  destruct i as [|i]; cbn [lookup list_lookup] in Hr.
  - injection Hr as ->. rewrite (format_rows_frame _ _ _ _ _ H).
    + rewrite Nat.add_0_r. by rewrite lookup_insert_eq.
    + intros j _ [= Hj]. lia.
  - replace (k + S i) with (S k + i) by lia.
    rewrite (IH _ _ _ H Hr). do 2 f_equal.
    unfold ws_cell. rewrite lookup_insert_ne; [done|].
    intros [= Hj]. lia.
Qed.

Lemma format_rows_cell (rows : list (list cell)) (ws ws' : gmap (nat * nat) Cell)
    (k i : nat) (r : list cell) :
  format_rows merged ws k rows = Some ws' ->
  rows !! i = Some r ->
  ws_cell ws' mark_col_letter (start_row + (k + i))
  = write_mark (ws_cell ws mark_col_letter (start_row + (k + i))) (row_get r mark_col_idx).
Proof.
  intros H Hr. unfold ws_cell at 1. by rewrite (format_rows_lookup _ _ _ _ _ _ H Hr).
Qed.

Lemma format_rows_cell0 (rows : list (list cell)) (ws ws' : gmap (nat * nat) Cell)
    (i : nat) (r : list cell) :
  format_rows merged ws 0 rows = Some ws' ->
  rows !! i = Some r ->
  ws_cell ws' mark_col_letter (start_row + i)
  = write_mark (ws_cell ws mark_col_letter (start_row + i)) (row_get r mark_col_idx).
Proof. intros H Hr. exact (format_rows_cell rows ws ws' 0 i r H Hr). Qed.

(** The loop ends without an exception exactly when none of the cells it
    writes is read-only. *)
Lemma format_rows_is_Some (rows : list (list cell)) (ws : gmap (nat * nat) Cell) (k : nat) :
  is_Some (format_rows merged ws k rows)
  <-> forall i, i < length rows ->
                (start_row + (k + i), column_index_from_string mark_col_letter) ∉ merged.
Proof.
  revert ws k. induction rows as [|r rows IH]; intros ws k.
  { split; [intros _ i Hi; simpl in Hi; lia|eauto]. }
  cbn [format_rows]. unfold format_row. case_bool_decide as Hm.
  - split; [by intros [? ?]|]. intros H. exfalso.
    apply (H 0); [simpl; lia|]. by rewrite Nat.add_0_r.
  - rewrite IH. split.
    + intros H [|i] Hi; [by rewrite Nat.add_0_r|].
      replace (k + S i) with (S k + i) by lia. apply H. simpl in Hi. lia.
    + intros H i Hi. replace (S k + i) with (k + S i) by lia. apply H. simpl. lia.
Qed.


Lemma write_mark_blank c : fill (write_mark c (CStr [])) = fill c.
Proof. reflexivity. Qed.

Lemma apply_formatting_rows df ws ws' :
  apply_formatting merged df ws = Some ws' ->
  format_rows merged ws 0 (data df) = Some ws'.
Proof.
  unfold apply_formatting. destruct (data df) as [|r rows]; [done|].
  by destruct (length (columns df) <? 20).
Qed.

Lemma apply_formatting_total df ws :
  20 <= length (columns df) -> marks_writable merged df ->
  is_Some (apply_formatting merged df ws).
Proof.
  intros H Hw. unfold apply_formatting.
  destruct (data df) as [|r rows] eqn:Hd; [eauto|].
  destruct (Nat.ltb_spec (length (columns df)) 20); [lia|].
  apply format_rows_is_Some. intros i Hi. apply Hw. by rewrite Hd.
Qed.

(** C4, the rows without a label.  On a table of at least 20 columns
  whose date column pandas can read and compare with the cutoff, and a
  sheet where no mark cell of the data rows is read-only, take a row whose
  date cell is missing once the date column is coerced (an absent or
  unreadable date), or whose identifier cell is missing.
  [mark_customer_types] gives the row the empty label, and
  [apply_formatting] leaves the fill of the mark cell of that row as it
  was in the worksheet. *)
Theorem C4_unlabeled_rows (df : DataFrame) (ws : gmap (nat * nat) Cell)
    (i : nat) (d c : cell) :
  wf_frame df -> 20 <= length (columns df) ->
  dates_usable coerce_other df -> marks_writable merged df ->
  coerced_dates coerce_other df !! i = Some d ->
  customer_ids df !! i = Some c ->
  d = CNa ∨ c = CNa ->
  ∃ df' ws',
    mark_customer_types coerce_other df = Some df'
    ∧ apply_formatting merged df' ws = Some ws'
    ∧ labels df' !! i = Some (CStr [])
    ∧ fill (ws_cell ws' mark_col_letter (start_row + i))
      = fill (ws_cell ws mark_col_letter (start_row + i)).
Proof.
  intros Hwf Hcols Hread Hwrite Hd Hc Hna.
  destruct (mark_total df Hcols Hread) as [df' Hm].
  assert (labels df' !! i = Some (CStr [])) as Hlabel.
  { rewrite (labels_lookup df df' i d c) by done. f_equal. unfold label_for.
    destruct Hna as [-> | ->]; [done|]. by rewrite orb_true_r. }
  pose proof Hm as (_ & Hcols' & Hdata)%mark_unfold.
  destruct (apply_formatting_total df' ws) as [ws' Hf].
  { by rewrite Hcols'. }
  { intros j Hj. apply Hwrite.
    by rewrite Hdata, length_fmap, prepared_length in Hj. }
  exists df', ws'. split_and!; [done..|].
  apply apply_formatting_rows in Hf.
  unfold labels in Hlabel. rewrite lookup_get_column in Hlabel.
  destruct (data df' !! i) as [r|] eqn:Hr; [|done].
  simpl in Hlabel. injection Hlabel as Hlabel.
  rewrite (format_rows_cell0 (data df') ws ws' i r Hf Hr), Hlabel.
  apply write_mark_blank.
Qed.

(** C7, running the classifier again.  When [mark_customer_types] turns
  [df] into [df'], running it on [df'] succeeds and gives the same label
  to every row; more generally any table with the same date and
  identifier columns as [df] gets the labels of [df']. *)
Theorem C7_rerun_same_labels (df df' : DataFrame) :
  wf_frame df ->
  mark_customer_types coerce_other df = Some df' ->
  (∃ df'', mark_customer_types coerce_other df' = Some df''
           ∧ labels df'' = labels df')
  ∧ (forall df2,
       wf_frame df2 -> 20 <= length (columns df2) ->
       get_column date_col_idx (data df2) = get_column date_col_idx (data df) ->
       customer_ids df2 = customer_ids df ->
       ∃ out2, mark_customer_types coerce_other df2 = Some out2
               ∧ labels out2 = labels df').
Proof.
  intros Hwf Hm. pose proof Hm as (Hcols & Hcols' & _)%mark_unfold. split.
  - destruct (mark_columns df df' Hwf Hm) as [Hdates Hids].
    destruct (mark_total df') as [df'' Hm']; [by rewrite Hcols'| |].
    { unfold dates_usable. rewrite Hdates. eexists.
      apply to_datetime_fixed, coerce_cells_shape. }
    exists df''. split; [done|].
    apply (labels_determined df' df df'' df'); try done.
    + by eapply mark_wf.
    + unfold coerced_dates at 1. rewrite Hdates. apply coerce_cells_fixed.
      apply coerce_cells_shape.
  - intros df2 Hwf2 Hcols2 Hd2 Hid2.
    destruct (mark_total df2 Hcols2) as [out2 Hm2].
    { unfold dates_usable. rewrite Hd2. by eapply mark_usable. }
    exists out2. split; [done|].
    apply (labels_determined df2 df out2 df'); try done.
    unfold coerced_dates. by rewrite Hd2.
Qed.


End Classifier.

(** **** The properties on the small table *)

Lemma sample_wf : wf_frame sample_frame.
Proof. unfold wf_frame. repeat constructor. Defined.

Lemma sample_columns : 20 <= length (columns sample_frame).
Proof. vm_compute. lia. Defined.

Lemma sample_usable : dates_usable no_text_dates sample_frame.
Proof. eexists. vm_compute. reflexivity. Defined.

(** The merged title lies above the data rows. *)
Lemma title_merged_writable (df : DataFrame) : marks_writable title_merged df.
Proof.
  intros i _ Hin. unfold title_merged in Hin.
  apply elem_of_list_to_set, list_elem_of_fmap in Hin as (col & Heq & _).
  apply (f_equal fst) in Heq. cbn [fst] in Heq. unfold start_row in Heq. lia.
Defined.


(** Row 4 of the small table has no date. *)
Lemma C4_unlabeled_rows_witness :
  ∃ df' ws',
    mark_customer_types no_text_dates sample_frame = Some df'
    ∧ apply_formatting title_merged df' sample_sheet = Some ws'
    ∧ labels df' !! 3 = Some (CStr [])
    ∧ fill (ws_cell ws' mark_col_letter (start_row + 3))
      = fill (ws_cell sample_sheet mark_col_letter (start_row + 3)).
Proof.
  apply (C4_unlabeled_rows no_text_dates title_merged sample_frame sample_sheet 3
           CNa new_customer).
  - exact sample_wf.
  - exact sample_columns.
  - exact sample_usable.
  - exact (title_merged_writable sample_frame).
  - vm_compute. reflexivity.
  - vm_compute. reflexivity.
  - left. reflexivity.
Defined.

(** The small table classified twice. *)
Lemma C7_rerun_same_labels_witness :
  ∃ df', mark_customer_types no_text_dates sample_frame = Some df' ∧
    ((∃ df'', mark_customer_types no_text_dates df' = Some df''
              ∧ labels df'' = labels df')
     ∧ (forall df2,
          wf_frame df2 -> 20 <= length (columns df2) ->
          get_column date_col_idx (data df2) = get_column date_col_idx (data sample_frame) ->
          customer_ids df2 = customer_ids sample_frame ->
          ∃ out2, mark_customer_types no_text_dates df2 = Some out2
                  ∧ labels out2 = labels df')).
Proof.
  eexists. split.
  - vm_compute. reflexivity.
  - apply (C7_rerun_same_labels no_text_dates sample_frame).
    + exact sample_wf.
    + vm_compute. reflexivity.
Defined.


(** A text with a UTC offset in the date column, or a read-only mark
    cell, and the run takes its [except] branch. *)
Example sample_offset : mark_customer_types offset_text_dates sample_frame = None.
Proof. vm_compute. reflexivity. Qed.

Example sample_read_only :
  apply_formatting note_merged sample_frame sample_sheet = None.
Proof. vm_compute. reflexivity. Qed.

Example sample_labels :
  labels <$> mark_customer_types no_text_dates sample_frame
  = Some [CStr label_existing; CStr label_existing; CStr label_new;
          CStr []; CStr []; CStr []].
Proof. vm_compute. reflexivity. Qed.

End MarkerProps.

(** * Properties of the regular expressions *)

Module ReProps.
Import Re ReSpec.

Lemma compile_amount_regex :
  compile (utf8 "\d+\.?\d*") = POk {| p_regex := amount_regex; p_groups := 0 |}.
Proof. vm_compute. reflexivity. Qed.

Lemma compile_amount_group :
  compile (utf8 "(\d+\.?\d*)")
  = POk {| p_regex := RSeq (RGroup 1 amount_regex) REmpty; p_groups := 1 |}.
Proof. vm_compute. reflexivity. Qed.

Lemma set_matches_digit c : set_matches false [IDigit] c = is_digit c.
Proof. unfold set_matches. simpl. by rewrite orb_false_r. Qed.

Section OneCodePoint.

(** A body that matches one code point accepted by [p]: a literal, a
    set, a category. *)
Variable body : mstate -> (mstate -> option mstate) -> option mstate.
Variable p : N -> bool.
Hypothesis body_spec : forall st k,
  body st k = match m_rest st with
              | c :: rest => if p c then k (advance c rest st) else None
              | [] => None
              end.

(** A greedy unbounded repeat of such a body, in front of a continuation
    that always succeeds, takes the longest run. *)
Lemma greedy_run_total lo k rest :
  (forall st, k st ≠ None) ->
  forall fuel count pos prev g,
    lo <= count -> length rest < fuel ->
    repeat_loop body lo None true k fuel count
      {| m_pos := pos; m_prev := prev; m_rest := rest; m_groups := g |}
    = k (run_state p pos prev rest g).
Proof.
  intros Hk. induction rest as [|c rest IH]; intros fuel count pos prev g Hlo Hfuel.
  - destruct fuel as [|fuel]; [simpl in Hfuel; lia|].
    cbn [repeat_loop]. rewrite (proj2 (Nat.ltb_ge count lo) Hlo).
    cbn [below_max]. rewrite body_spec. done.
  - destruct fuel as [|fuel]; [simpl in Hfuel; lia|].
    cbn [repeat_loop]. rewrite (proj2 (Nat.ltb_ge count lo) Hlo).
    cbn [below_max]. rewrite body_spec. cbn [m_rest run_state].
    destruct (p c); [|done].
    unfold advance. cbn [m_pos m_prev m_rest m_groups].
    rewrite (proj2 (Nat.leb_gt (S pos) pos)) by lia.
    rewrite IH by (simpl in Hfuel; lia).
    destruct (k _) eqn:Hres; [done|]. by apply Hk in Hres.
Qed.

(** The same with at least one iteration. *)
Lemma greedy_plus_total k pos prev rest g :
  (forall st, k st ≠ None) ->
  repeat_loop body 1 None true k (S (1 + length rest)) 0
    {| m_pos := pos; m_prev := prev; m_rest := rest; m_groups := g |}
  = match rest with
    | c :: rest' => if p c then k (run_state p (S pos) (Some c) rest' g) else None
    | [] => None
    end.
Proof.
  intros Hk. cbn [repeat_loop Nat.ltb Nat.leb]. rewrite body_spec. cbn [m_rest].
  destruct rest as [|c rest']; [done|]. destruct (p c); [|done].
  unfold advance. cbn [m_pos m_prev m_rest m_groups].
  apply greedy_run_total; [done|lia|simpl; lia].
Qed.

(** An optional body, in front of a continuation that always succeeds. *)
Lemma greedy_opt_total k pos prev rest g :
  (forall st, k st ≠ None) ->
  repeat_loop body 0 (Some 1) true k (S (0 + length rest)) 0
    {| m_pos := pos; m_prev := prev; m_rest := rest; m_groups := g |}
  = match rest with
    | c :: rest' =>
        if p c
        then k {| m_pos := S pos; m_prev := Some c; m_rest := rest'; m_groups := g |}
        else k {| m_pos := pos; m_prev := prev; m_rest := rest; m_groups := g |}
    | [] => k {| m_pos := pos; m_prev := prev; m_rest := rest; m_groups := g |}
    end.
Proof.
  intros Hk. cbn [repeat_loop Nat.ltb Nat.leb below_max]. rewrite body_spec. cbn [m_rest].
  destruct rest as [|c rest']; [done|]. destruct (p c); [|done].
  unfold advance. cbn [m_pos m_prev m_rest m_groups].
  rewrite (proj2 (Nat.leb_gt (S pos) pos)) by lia.
  cbn [length Nat.add repeat_loop Nat.ltb Nat.leb below_max].
  destruct (k _) eqn:Hres; [done|]. by apply Hk in Hres.
Qed.

End OneCodePoint.

Lemma run_state_eq p pos prev rest g :
  run_state p pos prev rest g
  = {| m_pos := pos + length (prefix_by p rest);
       m_prev := run_prev p prev rest;
       m_rest := drop (length (prefix_by p rest)) rest;
       m_groups := g |}.
Proof.
  revert pos prev. induction rest as [|c rest IH]; intros pos prev; simpl.
  - by rewrite Nat.add_0_r.
  - destruct (p c); simpl.
    + rewrite IH. f_equal. lia.
    + by rewrite Nat.add_0_r.
Qed.

Lemma prefix_by_is_prefix p s : take (length (prefix_by p s)) s = prefix_by p s.
Proof. induction s as [|c s IH]; simpl; [done|]. destruct (p c); simpl; [by rewrite IH|done]. Qed.

Lemma prefix_by_Forall p s : Forall (fun c => p c = true) (prefix_by p s).
Proof.
  induction s as [|c s IH]; simpl; [constructor|].
  destruct (p c) eqn:Hc; [by constructor|constructor].
Qed.

(** The run is the longest: what follows it does not start with a code
    point [p] accepts. *)
Lemma prefix_by_maximal p s : prefix_by p (drop (length (prefix_by p s)) s) = [].
Proof.
  induction s as [|c s IH]; simpl; [done|].
  destruct (p c) eqn:Hc; simpl; [done|by rewrite Hc].
Qed.

Lemma digit_body ml st k :
  rmatch ml (RSet false [IDigit]) st k
  = match m_rest st with
    | c :: rest => if is_digit c then k (advance c rest st) else None
    | [] => None
    end.
Proof. cbn [rmatch]. destruct (m_rest st); [done|]. by rewrite set_matches_digit. Qed.

Lemma lit_body ml x st k :
  rmatch ml (RLit x) st k
  = match m_rest st with
    | c :: rest => if (c =? x)%N then k (advance c rest st) else None
    | [] => None
    end.
Proof. reflexivity. Qed.

Section Amount.

Variable ml : bool.
Variable k : mstate -> option mstate.
Hypothesis k_total : forall st, k st ≠ None.

Lemma amount_tail3 pos prev rest g :
  rmatch ml (RSeq (RRepeat 0 None true (RSet false [IDigit])) REmpty)
    {| m_pos := pos; m_prev := prev; m_rest := rest; m_groups := g |} k
  = k (run_state is_digit pos prev rest g).
Proof.
  change (repeat_loop (rmatch ml (RSet false [IDigit])) 0 None true
            (fun st1 => rmatch ml REmpty st1 k) (S (0 + length rest)) 0
            {| m_pos := pos; m_prev := prev; m_rest := rest; m_groups := g |}
          = k (run_state is_digit pos prev rest g)).
  rewrite (greedy_run_total _ is_digit (digit_body ml)); [done| |lia|simpl; lia].
  intros st. apply k_total.
Qed.

Lemma amount_tail3_total st :
  rmatch ml (RSeq (RRepeat 0 None true (RSet false [IDigit])) REmpty) st k ≠ None.
Proof. destruct st. rewrite amount_tail3. apply k_total. Qed.

Lemma amount_tail2 pos prev rest g :
  rmatch ml (RSeq (RRepeat 0 (Some 1) true (RLit 46))
               (RSeq (RRepeat 0 None true (RSet false [IDigit])) REmpty))
    {| m_pos := pos; m_prev := prev; m_rest := rest; m_groups := g |} k
  = match rest with
    | c :: rest' =>
        if (c =? 46)%N then k (run_state is_digit (S pos) (Some c) rest' g)
        else k (run_state is_digit pos prev rest g)
    | [] => k (run_state is_digit pos prev rest g)
    end.
Proof.
  change (repeat_loop (rmatch ml (RLit 46)) 0 (Some 1) true
            (fun st1 => rmatch ml (RSeq (RRepeat 0 None true (RSet false [IDigit])) REmpty) st1 k)
            (S (0 + length rest)) 0
            {| m_pos := pos; m_prev := prev; m_rest := rest; m_groups := g |}
          = match rest with
            | c :: rest' =>
                if (c =? 46)%N then k (run_state is_digit (S pos) (Some c) rest' g)
                else k (run_state is_digit pos prev rest g)
            | [] => k (run_state is_digit pos prev rest g)
            end).
  rewrite (greedy_opt_total _ (fun c => (c =? 46)%N) (lit_body ml 46));
    [|apply amount_tail3_total].
  destruct rest as [|c rest']; [apply amount_tail3|].
  destruct (c =? 46)%N; apply amount_tail3.
Qed.

Lemma amount_tail2_total st :
  rmatch ml (RSeq (RRepeat 0 (Some 1) true (RLit 46))
               (RSeq (RRepeat 0 None true (RSet false [IDigit])) REmpty)) st k ≠ None.
Proof.
  destruct st as [pos prev rest g]. rewrite amount_tail2.
  destruct rest as [|c rest']; [apply k_total|]. destruct (c =? 46)%N; apply k_total.
Qed.

(** [\d+\.?\d*] at a position: the decimal number there, if any. *)
Lemma amount_rmatch pos prev rest g :
  match decimal_number_at rest with
  | Some t =>
      ∃ prev' rest',
        rmatch ml amount_regex
          {| m_pos := pos; m_prev := prev; m_rest := rest; m_groups := g |} k
        = k {| m_pos := pos + length t; m_prev := prev'; m_rest := rest'; m_groups := g |}
  | None =>
      rmatch ml amount_regex
        {| m_pos := pos; m_prev := prev; m_rest := rest; m_groups := g |} k = None
  end.
Proof.
  set (K2 := fun st1 =>
               rmatch ml (RSeq (RRepeat 0 (Some 1) true (RLit 46))
                            (RSeq (RRepeat 0 None true (RSet false [IDigit])) REmpty)) st1 k).
  assert (rmatch ml amount_regex
            {| m_pos := pos; m_prev := prev; m_rest := rest; m_groups := g |} k
          = match rest with
            | c :: rest' =>
                if is_digit c then K2 (run_state is_digit (S pos) (Some c) rest' g) else None
            | [] => None
            end) as ->.
  { change (rmatch ml amount_regex _ k)
      with (repeat_loop (rmatch ml (RSet false [IDigit])) 1 None true K2
              (S (1 + length rest)) 0
              {| m_pos := pos; m_prev := prev; m_rest := rest; m_groups := g |}).
    apply (greedy_plus_total _ is_digit (digit_body ml)).
    intros st. apply amount_tail2_total. }
  unfold decimal_number_at, digits_prefix.
  destruct rest as [|c rest']; [done|]. cbn [prefix_by].
  destruct (is_digit c) eqn:Hc; [|done].
  cbn [length drop]. rewrite run_state_eq. unfold K2. rewrite amount_tail2.
  pose proof (prefix_by_maximal is_digit rest') as Hmax.
  destruct (drop (length (prefix_by is_digit rest')) rest') as [|d r] eqn:Hrest1.
  - rewrite run_state_eq. cbn [prefix_by length]. eexists _, _. f_equal. f_equal. lia.
  - destruct (d =? 46)%N.
    + rewrite run_state_eq. eexists _, _. f_equal. f_equal.
      rewrite length_app. cbn [length]. lia.
    + rewrite run_state_eq, Hmax. cbn [length]. eexists _, _. f_equal. f_equal. lia.
Qed.

End Amount.

Lemma attempt_amount ml pos prev rest :
  attempt ml amount_regex false pos prev rest
  = (fun t => {| m_start := pos; m_end := pos + length t; m_spans := [] |})
      <$> decimal_number_at rest.
Proof.
  change (attempt ml amount_regex false pos prev rest)
    with (match rmatch ml amount_regex
                  {| m_pos := pos; m_prev := prev; m_rest := rest; m_groups := [] |}
                  (fun st => Some st) with
          | Some st => Some {| m_start := pos; m_end := m_pos st; m_spans := m_groups st |}
          | None => None
          end).
  pose proof (amount_rmatch ml (fun st => Some st) ltac:(done) pos prev rest []) as H.
  destruct (decimal_number_at rest) as [t|].
  - destruct H as (prev' & rest' & ->). done.
  - by rewrite H.
Qed.

Lemma attempt_amount_group ml pos prev rest :
  attempt ml (RSeq (RGroup 1 amount_regex) REmpty) false pos prev rest
  = (fun t => {| m_start := pos; m_end := pos + length t;
                 m_spans := [(1, (pos, pos + length t))] |})
      <$> decimal_number_at rest.
Proof.
  change (attempt ml (RSeq (RGroup 1 amount_regex) REmpty) false pos prev rest)
    with (match rmatch ml amount_regex
                  {| m_pos := pos; m_prev := prev; m_rest := rest; m_groups := [] |}
                  (fun st1 => Some (close_group 1 pos st1)) with
          | Some st => Some {| m_start := pos; m_end := m_pos st; m_spans := m_groups st |}
          | None => None
          end).
  pose proof (amount_rmatch ml (fun st1 => Some (close_group 1 pos st1)) ltac:(done)
                pos prev rest []) as H.
  destruct (decimal_number_at rest) as [t|].
  - destruct H as (prev' & rest' & ->). done.
  - by rewrite H.
Qed.

Lemma decimal_number_at_prefix s t :
  decimal_number_at s = Some t -> take (length t) s = t.
Proof.
  unfold decimal_number_at, digits_prefix.
  pose proof (prefix_by_is_prefix is_digit s) as Hip.
  pose proof (take_drop (length (prefix_by is_digit s)) s) as Hs.
  rewrite Hip in Hs.
  destruct (prefix_by is_digit s) as [|c ip] eqn:Hpre; [done|].
  destruct (drop (length (c :: ip)) s) as [|d r] eqn:Hdrop.
  - intros [= <-]. done.
  - destruct (N.eqb_spec d 46) as [->|Hd]; intros [= <-]; [|done].
    clear Hdrop Hip Hpre. subst s.
    cbn [length app take]. f_equal.
    rewrite length_app, take_app_add. f_equal.
    cbn [length take]. f_equal. apply prefix_by_is_prefix.
Qed.

Lemma decimal_number_at_None s :
  decimal_number_at s = None <-> match s with c :: _ => is_digit c = false | [] => True end.
Proof.
  unfold decimal_number_at, digits_prefix. destruct s as [|c s]; [done|].
  cbn [prefix_by]. destruct (is_digit c); [|done].
  split; [|done]. by repeat case_match.
Qed.

Lemma first_decimal_number_None s :
  first_decimal_number s = None <-> Forall (fun c => is_digit c = false) s.
Proof.
  induction s as [|c s IH].
  - simpl. split; [constructor|done].
  - cbn [first_decimal_number].
    destruct (decimal_number_at (c :: s)) as [t|] eqn:Hat.
    + split; [done|]. intros HF. apply Forall_cons in HF as [Hc _].
      assert (decimal_number_at (c :: s) = None) as Hn by (by apply decimal_number_at_None).
      congruence.
    + rewrite IH. apply decimal_number_at_None in Hat. split.
      * intros HF. by constructor.
      * intros HF. by apply Forall_cons in HF as [_ ?].
Qed.

(** [search] for the amount pattern finds the first decimal number. *)
Lemma search_amount_group ml (s : str) :
  forall pos prev,
    match first_decimal_number s with
    | Some t =>
        ∃ p, search_from ml (RSeq (RGroup 1 amount_regex) REmpty) pos prev s
             = Some {| m_start := pos + p; m_end := pos + p + length t;
                       m_spans := [(1, (pos + p, pos + p + length t))] |}
             ∧ take (length t) (drop p s) = t
    | None => search_from ml (RSeq (RGroup 1 amount_regex) REmpty) pos prev s = None
    end.
Proof.
  induction s as [|c s IH]; intros pos prev.
  - cbn [first_decimal_number search_from]. rewrite attempt_amount_group.
    destruct (decimal_number_at []) eqn:Hat; [|done]. by apply decimal_number_at_None in Hat || done.
  - cbn [first_decimal_number search_from]. rewrite attempt_amount_group.
    destruct (decimal_number_at (c :: s)) as [t|] eqn:Hat; simpl.
    + exists 0. rewrite Nat.add_0_r. split; [done|]. by apply decimal_number_at_prefix.
    + specialize (IH (S pos) (Some c)).
      destruct (first_decimal_number s) as [t|]; [|done].
      destruct IH as (p & -> & Htake). exists (S p). split; [|done].
      by replace (pos + S p) with (S pos + p) by lia.
Qed.

Lemma search_amount ml (s : str) :
  forall pos prev,
    search_from ml amount_regex pos prev s = None
    <-> Forall (fun c => is_digit c = false) s.
Proof.
  induction s as [|c s IH]; intros pos prev.
  - cbn [search_from]. rewrite attempt_amount. split; [constructor|done].
  - cbn [search_from]. rewrite attempt_amount.
    destruct (decimal_number_at (c :: s)) as [t|] eqn:Hat; simpl.
    + split; [done|]. intros HF. apply Forall_cons in HF as [Hc _].
      assert (decimal_number_at (c :: s) = None) as Hn by (by apply decimal_number_at_None).
      congruence.
    + rewrite IH. apply decimal_number_at_None in Hat. split.
      * intros HF. by constructor.
      * intros HF. by apply Forall_cons in HF as [_ ?].
Qed.

End ReProps.

(** * Properties of the converter *)

Module ConverterProps.
Import Re ReSpec ReProps Converter ConverterSpec.

(** **** Strings *)

Lemma lstrip_by_nil f s : lstrip_by f s = [] <-> Forall (fun c => f c = true) s.
Proof.
  induction s as [|c s IH]; simpl; [split; [constructor|done]|].
  destruct (f c) eqn:Hc.
  - rewrite IH. split; [by constructor|]. by intros [_ ?]%Forall_cons.
  - split; [done|]. intros [Hc' _]%Forall_cons. congruence.
Qed.

Lemma lstrip_by_head f s c t : lstrip_by f s = c :: t -> f c = false.
Proof.
  induction s as [|c0 s IH]; simpl; [done|].
  destruct (f c0) eqn:Hc0; [done|]. by intros [= <- <-].
Qed.

Lemma strip_nil s : strip s = [] <-> whitespace_only s.
Proof.
  unfold strip, rstrip_by, whitespace_only. split.
  - intros H. apply (f_equal (@rev N)) in H. rewrite rev_involutive in H. simpl in H.
    apply lstrip_by_nil in H. apply Forall_rev in H. rewrite rev_involutive in H.
    destruct (lstrip_by is_space s) as [|c t] eqn:Hl.
    + by apply lstrip_by_nil.
    + apply Forall_cons in H as [Hc _]. apply lstrip_by_head in Hl. congruence.
  - intros H. apply lstrip_by_nil in H. rewrite H. done.
Qed.

(** **** The monad *)

Lemma bind_return {A B : Type} (a : A) (k : A -> outcome B) : (Return a ≫= k) = k a.
Proof. reflexivity. Qed.

Ltac mstep := unfold mbind, outcome_bind, mret, outcome_ret; cbn beta iota.

(** **** [validate_record] *)

Lemma required_present_spec (fields : list str) (r : record) :
  ∃ b, required_present (PyStr <$> fields) r = Return b
       ∧ (b = false <-> ∃ f, f ∈ fields ∧ whitespace_only (field_value r f)).
Proof.
  induction fields as [|f fields (b & Hb & IH)].
  - exists true. split; [done|]. split; [done|].
    intros (f & Hf & _). by apply elem_of_nil in Hf.
  - cbn [fmap list_fmap required_present record_get_obj]. mstep.
    fold (field_value r f).
    destruct (bool_decide_reflect (strip (field_value r f) = [])) as [Hblank|Hfull].
    + exists false. split; [done|]. split; [|done]. intros _.
      exists f. split; [by left|]. by apply strip_nil.
    + exists b. split; [exact Hb|]. rewrite IH. split.
      * intros (f' & Hf' & Hw). exists f'. split; [by right|done].
      * intros (f' & Hf' & Hw). apply elem_of_cons in Hf' as [->|Hf'].
        -- destruct Hfull. by apply strip_nil.
        -- eauto.
Qed.

Lemma re_search_amount (amount : str) :
  re_search (PyStr (utf8 "\d+\.?\d*")) amount
  = Return ({| p_regex := amount_regex; p_groups := 0 |}, search false amount_regex amount).
Proof. unfold re_search, re_compile. rewrite compile_amount_regex. reflexivity. Qed.

(** C3, the rejection of a record, as the code has it.  Let [fields] be
    the configured list of required fields and [av] the amount validation
    switch.  When [fields] is not empty, [validate_record] rejects the
    record exactly when a required field is empty or whitespace only, or
    [av] is on and the amount field is not empty and holds no decimal
    digit; it keeps the record exactly otherwise.  When [fields] is empty,
    every record is kept, whatever its amount.  A record without the amount
    field is rejected when the amount is a required field. *)
Theorem C3_record_rejection (config : pyobj) (fields : list str) (av : bool) (r : record) :
  validation_of config fields av ->
  (fields ≠ [] ->
     (validate_record config r = Return false <-> spec_rejects fields av r)
     ∧ (validate_record config r = Return true <-> ¬ spec_rejects fields av r))
  ∧ (fields = [] -> validate_record config r = Return true)
  ∧ (utf8 "交易金额" ∈ fields -> dict_get (utf8 "交易金额") r = None ->
     validate_record config r = Return false).
Proof.
  intros (v & Hv & Hreq & Hav).
  assert (fields = [] -> validate_record config r = Return true) as Hempty.
  { intros ->. unfold validate_record. rewrite Hv. mstep. rewrite Hreq. done. }
  assert (fields ≠ [] ->
          (validate_record config r = Return false <-> spec_rejects fields av r)
          ∧ (validate_record config r = Return true <-> ¬ spec_rejects fields av r)) as Hmain.
  { intros Hne. unfold validate_record. rewrite Hv. mstep. rewrite Hreq, Hav.
    assert (truthy (PyList (PyStr <$> fields)) = true) as ->.
    { destruct fields; [done|reflexivity]. }
    cbn [negb py_iter truthy]. mstep.
    destruct (required_present_spec fields r) as (b & -> & Hb).
    unfold spec_rejects. fold (field_value r (utf8 "交易金额")).
    destruct b; cbn [negb].
    - assert (¬ ∃ f, f ∈ fields ∧ whitespace_only (field_value r f)) as Hnone.
      { intros H. apply Hb in H. done. }
      destruct av.
      + case_bool_decide as Hnil.
        * split; split; try done; intros; tauto.
        * rewrite re_search_amount. unfold search.
          pose proof (search_amount false (field_value r (utf8 "交易金额")) 0 None) as Hs.
          destruct (search_from false amount_regex 0 None _) as [m|].
          -- assert (¬ Forall (fun c => is_digit c = false) (field_value r (utf8 "交易金额")))
               as Hd by (intros H; by apply Hs in H).
             split; split; try done; intros; tauto.
          -- assert (Forall (fun c => is_digit c = false) (field_value r (utf8 "交易金额")))
               as Hd by (by apply Hs).
             split; split; try done; intros; tauto.
      + assert (false = true -> False) as Hft by done.
        split; split; try done; intros; tauto.
    - assert (∃ f, f ∈ fields ∧ whitespace_only (field_value r f)) as Hsome by (by apply Hb).
      split; split; try done; intros; tauto. }
  split_and!; [done|done|].
  intros Hin Hmissing.
  destruct fields as [|f0 fields0] eqn:Hf; [by apply elem_of_nil in Hin|].
  apply Hmain; [done|]. left. exists (utf8 "交易金额"). split; [done|].
  unfold field_value. rewrite Hmissing. constructor.
Qed.

(** **** [clean_amount] *)

Lemma is_digit_point : is_digit 46 = false.
Proof. vm_compute. reflexivity. Qed.

Lemma split_char_no_sep (sep : N) (s : str) :
  Forall (fun c => (c =? sep)%N = false) s -> split_char sep s = [s].
Proof.
  induction s as [|c s IH]; [done|]. intros [Hc Hs]%Forall_cons.
  cbn [split_char]. rewrite Hc, (IH Hs). done.
Qed.

Lemma split_char_app (sep : N) (a b : str) :
  Forall (fun c => (c =? sep)%N = false) a ->
  split_char sep (a ++ sep :: b) = a :: split_char sep b.
Proof.
  induction a as [|c a IH]; intros Ha.
  - cbn [app split_char]. by rewrite N.eqb_refl.
  - apply Forall_cons in Ha as [Hc Ha]. cbn [app split_char].
    rewrite Hc, (IH Ha). done.
Qed.

Lemma digits_not_point (s : str) :
  Forall (fun c => is_digit c = true) s -> Forall (fun c => (c =? 46)%N = false) s.
Proof.
  intros H. eapply Forall_impl; [exact H|].
  intros c Hc. destruct (N.eqb_spec c 46) as [->|]; [|done].
  rewrite is_digit_point in Hc. done.
Qed.

Lemma digits_value_total (s : str) :
  Forall (fun c => is_digit c = true) s -> forall acc, ∃ n, digits_value s acc = Some n.
Proof.
  induction s as [|c s IH]; intros Hs acc; [by eexists|].
  apply Forall_cons in Hs as [Hc Hs]. cbn [digits_value].
  unfold is_digit in Hc. destruct (digit_value c); [|done]. apply IH, Hs.
Qed.

(** The text of a decimal number: digits, or digits, a point and digits. *)
Lemma decimal_number_at_shape (s t : str) :
  decimal_number_at s = Some t ->
  ∃ ip fp, ip ≠ [] ∧ Forall (fun c => is_digit c = true) ip
           ∧ Forall (fun c => is_digit c = true) fp
           ∧ (t = ip ∨ t = ip ++ 46%N :: fp).
Proof.
  unfold decimal_number_at, digits_prefix.
  pose proof (prefix_by_Forall is_digit s) as Hip.
  destruct (prefix_by is_digit s) as [|c ip] eqn:Hpre; [done|].
  destruct (drop (length (c :: ip)) s) as [|d r].
  - intros [= <-]. exists (c :: ip), []. split_and!; [done|done|constructor|by left].
  - destruct (N.eqb_spec d 46) as [->|Hd]; intros [= <-].
    + exists (c :: ip), (prefix_by is_digit r).
      split_and!; [done|done|apply prefix_by_Forall|by right].
    + exists (c :: ip), []. split_and!; [done|done|constructor|by left].
Qed.

Lemma py_float_decimal (s t : str) :
  decimal_number_at s = Some t -> ∃ f, py_float t = Return f.
Proof.
  intros (ip & fp & Hne & Hip & Hfp & [-> | ->])%decimal_number_at_shape; unfold py_float.
  - rewrite split_char_no_sep by (by apply digits_not_point).
    destruct (digits_value_total ip Hip 0%Z) as [n Hn].
    destruct ip; [done|]. rewrite Hn. by eexists.
  - rewrite split_char_app by (by apply digits_not_point).
    rewrite split_char_no_sep by (by apply digits_not_point).
    destruct (digits_value_total (ip ++ fp) (Forall_app_2 _ _ _ Hip Hfp) 0%Z) as [n Hn].
    destruct ip; [done|]. rewrite Hn. by eexists.
Qed.

Lemma first_decimal_number_at (s t : str) :
  first_decimal_number s = Some t -> ∃ s', decimal_number_at s' = Some t.
Proof.
  induction s as [|c s IH]; cbn [first_decimal_number].
  - destruct (decimal_number_at []) eqn:H; [|done]. intros [= <-]. eauto.
  - destruct (decimal_number_at (c :: s)) eqn:H; [intros [= <-]; eauto|apply IH].
Qed.

Lemma re_search_amount_group (subject : str) :
  re_search (PyStr (utf8 "(\d+\.?\d*)")) subject
  = Return ({| p_regex := RSeq (RGroup 1 amount_regex) REmpty; p_groups := 1 |},
            search false (RSeq (RGroup 1 amount_regex) REmpty) subject).
Proof. unfold re_search, re_compile. rewrite compile_amount_group. reflexivity. Qed.

Lemma clean_amount_spec (s : str) :
  clean_amount s
  = match first_decimal_number (remove_char (ch ",") s) with
    | Some t => py_float t
    | None => Return (FFinite 0)
    end.
Proof.
  unfold clean_amount. case_bool_decide as Hs; [by subst s|].
  rewrite re_search_amount_group. mstep. unfold search.
  pose proof (search_amount_group false (remove_char (ch ",") s) 0 None) as H.
  destruct (first_decimal_number (remove_char (ch ",") s)) as [t|].
  - destruct H as (p & -> & Htake). unfold match_group1. cbn [p_groups Nat.ltb Nat.leb].
    unfold group_text, group_span. cbn [List.find m_spans fst snd Nat.eqb fmap option_fmap option_map].
    unfold slice. cbn [fst snd Nat.add].
    replace (p + length t - p) with (length t) by lia. by rewrite Htake.
  - by rewrite H.
Qed.

(** C6, the cleaning of an amount.  For every string, [clean_amount]
    removes the commas and returns the first decimal number of what is left
    as a float, or 0.0 when there is none; the conversion of such a number
    never fails; a string without a digit, the empty one included, gives
    0.0; and 1,234.5元 gives 1234.5, the empty string 0.0, abc 0.0. *)
Theorem C6_clean_amount :
  (forall s, clean_amount s
             = match first_decimal_number (remove_char (ch ",") s) with
               | Some t => py_float t
               | None => Return (FFinite 0)
               end)
  ∧ (forall s t, first_decimal_number s = Some t -> ∃ f, py_float t = Return f)
  ∧ (forall s, Forall (fun c => is_digit c = false) s -> clean_amount s = Return (FFinite 0))
  ∧ clean_amount (utf8 "1,234.5元") = Return (FFinite (2469 # 2))
  ∧ clean_amount (utf8 "") = Return (FFinite 0)
  ∧ clean_amount (utf8 "abc") = Return (FFinite 0).
Proof.
  split_and!.
  - apply clean_amount_spec.
  - intros s t [s' Hs']%first_decimal_number_at. by eapply py_float_decimal.
  - intros s Hs. rewrite clean_amount_spec.
    assert (first_decimal_number (remove_char (ch ",") s) = None) as ->; [|done].
    apply first_decimal_number_None. unfold remove_char.
    induction Hs as [|c s Hc Hs IH]; [constructor|].
    cbn [List.filter]. destruct (negb _); [by constructor|done].
  - vm_compute. reflexivity.
  - vm_compute. reflexivity.
  - vm_compute. reflexivity.
Qed.

(** **** [load_config] *)

(** C8, loading a configuration.  When the path names a file whose text
    parses to [c], [load_config] sets the configuration to [c] itself, so
    that a key absent from [c] is absent from the configuration; when the
    path does not exist, the converter is returned as it was. *)
Theorem C8_load_config (fs : str -> option fs_node) (safe_load : str -> outcome pyobj)
    (self : Converter) (config_path : str) :
  (forall text c,
     fs config_path = Some (FsFile text) -> safe_load text = Return c ->
     ∃ self', load_config fs safe_load self config_path = Return self'
              ∧ config self' = c
              ∧ forall k, getitem (config self') k = getitem c k)
  ∧ (fs config_path = None -> load_config fs safe_load self config_path = Return self).
Proof.
  unfold load_config. split.
  - intros text c -> ->. eexists. split; [reflexivity|]. done.
  - intros ->. reflexivity.
Qed.

(** A file that holds the validation section only, and a path that does
    not exist. *)
Lemma C8_load_config_witness :
  (∃ self', load_config sample_fs sample_safe_load init (utf8 "config.yaml") = Return self'
            ∧ config self' = partial_config
            ∧ forall k, getitem (config self') k = getitem partial_config k)
  ∧ load_config sample_fs sample_safe_load init (utf8 "missing.yaml") = Return init.
Proof.
  split.
  - apply (proj1 (C8_load_config sample_fs sample_safe_load init (utf8 "config.yaml"))
             (utf8 "validation: ...")).
    + vm_compute. reflexivity.
    + vm_compute. reflexivity.
  - apply (proj2 (C8_load_config sample_fs sample_safe_load init (utf8 "missing.yaml"))).
    vm_compute. reflexivity.
Defined.

(** A partial file leaves the parsing rules out: they are not taken from
    the defaults, and parsing raises KeyError. *)
Example partial_config_no_merge :
  ∃ self', load_config sample_fs sample_safe_load init (utf8 "config.yaml") = Return self'
           ∧ getitem (config self') (utf8 "parsing_rules") = Raise KeyError
           ∧ parse_markdown_content (config self') sample_document = Raise KeyError.
Proof. eexists. split; [vm_compute; reflexivity|]. split; vm_compute; reflexivity. Qed.

(** **** [validate_record] on concrete input *)

(** With an empty list of required fields and the amount validation on,
    the record whose amount is abc is kept, although the amount holds no
    digit. *)
Lemma C3_counterexample :
  validation_of (with_required_fields [] load_default_config) [] true
  ∧ ¬ (validate_record (with_required_fields [] load_default_config) sample_record
         = Return false
       <-> spec_rejects [] true sample_record).
Proof.
  split.
  - eexists. split; [vm_compute; reflexivity|]. split; vm_compute; reflexivity.
  - intros [_ H].
    assert (spec_rejects [] true sample_record) as Hrej.
    { right. split; [done|]. split.
      - intros Hnil. vm_compute in Hnil. discriminate Hnil.
      - assert (field_value sample_record (utf8 "交易金额") = [97; 98; 99]%N) as ->
          by (vm_compute; reflexivity).
        repeat constructor. }
    apply H in Hrej. vm_compute in Hrej. discriminate Hrej.
Qed.

(** The rejection rule under the default configuration. *)
Lemma C3_record_rejection_witness :
  ([utf8 "姓名"; utf8 "交易金额"] ≠ [] ->
     (validate_record load_default_config sample_record = Return false
      <-> spec_rejects [utf8 "姓名"; utf8 "交易金额"] true sample_record)
     ∧ (validate_record load_default_config sample_record = Return true
        <-> ¬ spec_rejects [utf8 "姓名"; utf8 "交易金额"] true sample_record))
  ∧ ([utf8 "姓名"; utf8 "交易金额"] = [] ->
     validate_record load_default_config sample_record = Return true)
  ∧ (utf8 "交易金额" ∈ [utf8 "姓名"; utf8 "交易金额"] ->
     dict_get (utf8 "交易金额") sample_record = None ->
     validate_record load_default_config sample_record = Return false).
Proof.
  apply (C3_record_rejection load_default_config [utf8 "姓名"; utf8 "交易金额"] true
           sample_record).
  eexists. split; [vm_compute; reflexivity|]. split; vm_compute; reflexivity.
Defined.

(** **** The entry pattern is never used *)

Lemma dict_get_set_eq {V : Type} (k : str) (v : V) (d : list (str * V)) :
  dict_get k (dict_set k v d) = Some v.
Proof.
  induction d as [|[k' v'] d IH]; cbn [dict_set dict_get].
  - by rewrite bool_decide_eq_true_2.
  - case_bool_decide as Hk; cbn [dict_get].
    + by rewrite bool_decide_eq_true_2.
    + by rewrite bool_decide_eq_false_2.
Qed.

Lemma dict_get_set_ne {V : Type} (k k' : str) (v : V) (d : list (str * V)) :
  k ≠ k' -> dict_get k' (dict_set k v d) = dict_get k' d.
Proof.
  intros Hne. induction d as [|[k0 v0] d IH]; cbn [dict_set dict_get].
  - by rewrite bool_decide_eq_false_2.
  - case_bool_decide as Hk; cbn [dict_get].
    + subst k0. by rewrite !bool_decide_eq_false_2.
    + by rewrite IH.
Qed.

Lemma with_entry_pattern_agree (v1 v2 : pyobj) (cfg : pyobj) :
  with_entry_pattern v1 cfg = with_entry_pattern v2 cfg
  ∨ configs_agree (with_entry_pattern v1 cfg) (with_entry_pattern v2 cfg).
Proof.
  unfold with_entry_pattern. destruct cfg as [| | | | |d]; try (by left).
  destruct (dict_get (utf8 "parsing_rules") d) as [[| | | | |p]|]; try (by left).
  right. split.
  - intros k Hk. cbn [getitem]. by rewrite !dict_get_set_ne by done.
  - eexists _, _. cbn [getitem]. rewrite !dict_get_set_eq.
    split; [done|]. split; [done|]. unfold rules_agree. split_and!.
    + intros k Hk. cbn [getitem]. by rewrite !dict_get_set_ne by done.
    + intros k dflt Hk. cbn [py_get]. by rewrite !dict_get_set_ne by done.
    + eexists. cbn [getitem]. by rewrite dict_get_set_eq.
    + eexists. cbn [getitem]. by rewrite dict_get_set_eq.
Qed.

Section Agree.

Variables c1 c2 : pyobj.
Hypothesis agree : configs_agree c1 c2.

Lemma agree_validate_record r : validate_record c1 r = validate_record c2 r.
Proof.
  destruct agree as [Hk _]. unfold validate_record.
  rewrite (Hk (utf8 "validation")); [done|].
  intros H. vm_compute in H. discriminate H.
Qed.

Lemma agree_extract_name entry :
  extract_name_from_header c1 entry = extract_name_from_header c2 entry.
Proof.
  destruct agree as (_ & r1 & r2 & H1 & H2 & Hget & Hpy & _).
  unfold extract_name_from_header. rewrite H1, H2. mstep.
  rewrite !Hpy; [done|..]; intros H; vm_compute in H; discriminate H.
Qed.

Lemma agree_parse_entry date entry : parse_entry c1 date entry = parse_entry c2 date entry.
Proof.
  unfold parse_entry. rewrite agree_extract_name.
  destruct agree as (_ & r1 & r2 & H1 & H2 & Hget & _).
  rewrite H1, H2. mstep.
  rewrite (Hget (utf8 "field_patterns")) by (intros H; vm_compute in H; discriminate H).
  destruct (extract_name_from_header c2 entry) as [header_name| |]; [|done..].
  destruct (getitem r2 (utf8 "field_patterns")) as [fp| |]; [|done..].
  destruct (py_items fp) as [fields| |]; [|done..].
  destruct (extract_fields fields entry _) as [r| |]; [|done..].
  by rewrite agree_validate_record.
Qed.

Lemma agree_parse_entries date entries :
  parse_entries c1 date entries = parse_entries c2 date entries.
Proof.
  induction entries as [|entry entries IH]; [done|].
  cbn [parse_entries]. rewrite IH, agree_parse_entry. done.
Qed.

Lemma agree_parse_sections sections : parse_sections c1 sections = parse_sections c2 sections.
Proof.
  induction sections as [|[[date|] section] sections IH]; [done| |]; cbn [parse_sections].
  - rewrite IH. destruct (section_entries section) as [entries| |]; [|done..].
    mstep. by rewrite agree_parse_entries.
  - apply IH.
Qed.

Lemma agree_date_sections content : date_sections c1 content = date_sections c2 content.
Proof.
  destruct agree as (_ & r1 & r2 & H1 & H2 & Hget & _ & [v1 Hv1] & [v2 Hv2]).
  unfold date_sections. rewrite H1, H2. mstep. rewrite Hv1, Hv2.
  rewrite (Hget (utf8 "date_pattern")) by (intros H; vm_compute in H; discriminate H).
  done.
Qed.

Lemma agree_parse_markdown_content content :
  parse_markdown_content c1 content = parse_markdown_content c2 content.
Proof.
  unfold parse_markdown_content. rewrite agree_date_sections.
  destruct (date_sections c2 content) as [sections| |]; [|done..].
  mstep. apply agree_parse_sections.
Qed.

End Agree.

(** C9, the entry pattern is not used.  Two configurations that differ
    only in the value of [parsing_rules.entry_pattern] give the same result
    of [parse_markdown_content] on every text: the same list of records, or
    the same exception. *)
Theorem C9_entry_pattern_unused (config v1 v2 : pyobj) (content : str) :
  parse_markdown_content (with_entry_pattern v1 config) content
  = parse_markdown_content (with_entry_pattern v2 config) content.
Proof.
  destruct (with_entry_pattern_agree v1 v2 config) as [-> | Hagree]; [done|].
  by apply agree_parse_markdown_content.
Qed.

(** **** The extractor example *)

(** The entry of two lines, 张三 and 交易金额：100.50元；, and the
    document with that entry under one date heading. *)
Example sample_extraction :
  extract_name_from_header load_default_config sample_entry = Return (Some (utf8 "张三"))
  ∧ (forall date,
       ∃ r, parse_entry load_default_config date sample_entry = Return (Some r)
            ∧ dict_get (utf8 "姓名") r = Some (utf8 "张三")
            ∧ dict_get (utf8 "交易金额") r = Some (utf8 "100.50元")
            ∧ ∃ row, export_frame [r] = Return [row]
                     ∧ dict_get (utf8 "金额数值") row = Some (XFloat (FFinite (201 # 2))))
  ∧ ∃ r, parse_markdown_content load_default_config sample_document = Return [r]
         ∧ dict_get (utf8 "日期") r = Some (utf8 "2025-01-19")
         ∧ dict_get (utf8 "姓名") r = Some (utf8 "张三")
         ∧ dict_get (utf8 "交易金额") r = Some (utf8 "100.50元")
         ∧ ∃ row, export_frame [r] = Return [row]
                  ∧ dict_get (utf8 "金额数值") row = Some (XFloat (FFinite (201 # 2))).
Proof.
  split; [vm_compute; reflexivity|]. split.
  - intros date. eexists. split; [vm_compute; reflexivity|].
    split; [vm_compute; reflexivity|]. split; [vm_compute; reflexivity|].
    eexists. split; vm_compute; reflexivity.
  - eexists. split; [vm_compute; reflexivity|].
    split; [vm_compute; reflexivity|].
    split; [vm_compute; reflexivity|]. split; [vm_compute; reflexivity|].
    eexists. split; vm_compute; reflexivity.
Qed.

End ConverterProps.

(** * Properties of the segmenter *)

Module SegmenterProps.
Import Re ReSpec ReProps Converter ConverterSpec ConverterProps SegmenterSpec.

Lemma compile_date_regex :
  compile (utf8 "## (\d{4}-\d{2}-\d{2})") = POk {| p_regex := date_regex; p_groups := 1 |}.
Proof. vm_compute. reflexivity. Qed.

Lemma compile_marker_regex :
  compile entry_marker = POk {| p_regex := marker_regex; p_groups := 0 |}.
Proof. vm_compute. reflexivity. Qed.

Local Arguments is_digit : simpl never.
Local Arguments N.eqb : simpl never.

Ltac split_tests :=
  repeat match goal with
         | |- context [if ?b then _ else _] => destruct b eqn:?; cbn
         end.

Lemma date_heading_unfold (s : str) :
  date_heading s
  = match s with
    | h1 :: h2 :: sp :: rest =>
        if (h1 =? 35)%N && (h2 =? 35)%N && (sp =? 32)%N && is_date_text (take 10 rest)
        then Some (take 10 rest) else None
    | _ => None
    end.
Proof.
  unfold date_heading.
  replace (utf8 "## ") with [35; 35; 32]%N by (vm_compute; reflexivity).
  destruct s as [|h1 [|h2 [|sp rest]]];
    try (cbn [take]; by rewrite bool_decide_eq_false_2 by discriminate).
  cbn [take drop].
  destruct (N.eqb_spec h1 35) as [->|H1]; [|by rewrite bool_decide_eq_false_2 by congruence].
  destruct (N.eqb_spec h2 35) as [->|H2]; [|by rewrite bool_decide_eq_false_2 by congruence].
  destruct (N.eqb_spec sp 32) as [->|H3]; [|by rewrite bool_decide_eq_false_2 by congruence].
  by rewrite bool_decide_eq_true_2.
Qed.

Lemma date_rmatch ml k pos prev rest :
  match date_heading rest with
  | Some d =>
      ∃ prev' rest',
        rmatch ml date_regex
          {| m_pos := pos; m_prev := prev; m_rest := rest; m_groups := [] |} k
        = k {| m_pos := 13 + pos; m_prev := prev'; m_rest := rest';
               m_groups := [(1, (3 + pos, 13 + pos))] |}
  | None =>
      rmatch ml date_regex
        {| m_pos := pos; m_prev := prev; m_rest := rest; m_groups := [] |} k = None
  end.
Proof.
  rewrite date_heading_unfold. unfold date_regex, is_date_text.
  do 13 (destruct rest as [|? rest];
         [cbn; rewrite ?orb_false_r; split_tests; done|]).
  cbn. rewrite ?orb_false_r.
  split_tests; try done; eauto.
Qed.

Lemma attempt_date ml ma pos prev rest :
  attempt ml date_regex ma pos prev rest
  = (fun _ => heading_match pos) <$> date_heading rest.
Proof.
  unfold attempt.
  pose proof (date_rmatch ml
                (fun st => if ma && (m_pos st =? pos) then None else Some st)
                pos prev rest) as H.
  destruct (date_heading rest) as [d|].
  - destruct H as (prev' & rest' & ->). cbn [m_pos].
    rewrite (proj2 (Nat.eqb_neq (13 + pos) pos)) by lia.
    rewrite andb_false_r. reflexivity.
  - rewrite H. reflexivity.
Qed.

Lemma starts_with_marker (s : str) :
  starts_with entry_marker s
  = match s with
    | a :: b :: c :: d :: _ => (a =? 35)%N && (b =? 35)%N && (c =? 35)%N && (d =? 32)%N
    | _ => false
    end.
Proof.
  unfold starts_with.
  replace entry_marker with [35; 35; 35; 32]%N by (vm_compute; reflexivity).
  cbn [length].
  destruct s as [|a [|b [|c [|d rest]]]];
    try (cbn [take]; by rewrite bool_decide_eq_false_2 by discriminate).
  cbn [take].
  destruct (N.eqb_spec a 35) as [->|H1]; [|by rewrite bool_decide_eq_false_2 by congruence].
  destruct (N.eqb_spec b 35) as [->|H2]; [|by rewrite bool_decide_eq_false_2 by congruence].
  destruct (N.eqb_spec c 35) as [->|H3]; [|by rewrite bool_decide_eq_false_2 by congruence].
  destruct (N.eqb_spec d 32) as [->|H4]; [|by rewrite bool_decide_eq_false_2 by congruence].
  by rewrite bool_decide_eq_true_2.
Qed.

Lemma marker_rmatch ml k pos prev rest :
  if starts_with entry_marker rest
  then ∃ prev' rest',
      rmatch ml marker_regex
        {| m_pos := pos; m_prev := prev; m_rest := rest; m_groups := [] |} k
      = k {| m_pos := 4 + pos; m_prev := prev'; m_rest := rest'; m_groups := [] |}
  else rmatch ml marker_regex
         {| m_pos := pos; m_prev := prev; m_rest := rest; m_groups := [] |} k = None.
Proof.
  rewrite starts_with_marker. unfold marker_regex.
  do 4 (destruct rest as [|? rest]; [cbn; split_tests; done|]).
  cbn. split_tests; try done; eauto.
Qed.

Lemma attempt_marker ml ma pos prev rest :
  attempt ml marker_regex ma pos prev rest
  = if starts_with entry_marker rest then Some (marker_match pos) else None.
Proof.
  unfold attempt.
  pose proof (marker_rmatch ml
                (fun st => if ma && (m_pos st =? pos) then None else Some st)
                pos prev rest) as H.
  destruct (starts_with entry_marker rest).
  - destruct H as (prev' & rest' & ->). cbn [m_pos].
    rewrite (proj2 (Nat.eqb_neq (4 + pos) pos)) by lia.
    rewrite andb_false_r. reflexivity.
  - rewrite H. reflexivity.
Qed.

(** A date heading, spelled out. *)
Lemma date_heading_inv (s d : str) :
  date_heading s = Some d ->
  ∃ y1 y2 y3 y4 m1 m2 d1 d2 t,
    s = [35; 35; 32; y1; y2; y3; y4; 45; m1; m2; 45; d1; d2]%N ++ t
    ∧ d = [y1; y2; y3; y4; 45; m1; m2; 45; d1; d2]%N
    ∧ Forall (fun c => is_digit c = true) [y1; y2; y3; y4; m1; m2; d1; d2].
Proof.
  rewrite date_heading_unfold. unfold is_date_text.
  do 13 (destruct s as [|? s]; [cbn; rewrite ?andb_false_r; done|]).
  cbn. rewrite take_0.
  match goal with |- context [if ?b then _ else _] => destruct b eqn:E end; [|done].
  repeat match goal with H : _ && _ = true |- _ => apply andb_prop in H as [? ?] end.
  repeat match goal with H : (_ =? _)%N = true |- _ => apply N.eqb_eq in H; subst end.
  intros [= <-]. eexists _, _, _, _, _, _, _, _, _. split; [reflexivity|].
  split; [reflexivity|]. repeat constructor; done.
Qed.

Lemma is_digit_hash : is_digit 35 = false.
Proof. vm_compute. reflexivity. Qed.

(** Date headings do not overlap. *)
Lemma date_heading_apart (s d : str) (k : nat) :
  date_heading s = Some d -> 1 <= k <= 12 -> date_heading (drop k s) = None.
Proof.
  intros (y1 & y2 & y3 & y4 & m1 & m2 & d1 & d2 & t & -> & _ & Hdig)%date_heading_inv Hk.
  destruct (date_heading (drop k _)) as [d'|] eqn:E; [exfalso|done].
  apply date_heading_inv in E as (? & ? & ? & ? & ? & ? & ? & ? & t' & E & _ & _).
  repeat (apply Forall_cons in Hdig as [? Hdig]).
  do 13 (destruct k as [|k]; [cbn [drop app] in E; try lia;
                              injection E; intros; subst;
                              try discriminate; rewrite is_digit_hash in *; discriminate|]).
  lia.
Qed.

Lemma headings_from_nil (pos : nat) : headings_from pos [] = [].
Proof. reflexivity. Qed.

(** [finditer] with the date pattern finds every date heading. *)
Lemma scan_headings ml (rest : str) :
  forall pos prev skip,
    (forall k, k < skip -> date_heading (drop k rest) = None) ->
    scan_from ml date_regex pos prev rest skip
    = (fun h => heading_match (fst h)) <$> headings_from pos rest.
Proof.
  induction rest as [|c rest IH]; intros pos prev skip Hskip.
  - cbn [scan_from headings_from]. destruct skip; [|done].
    rewrite !attempt_date. done.
  - cbn [scan_from headings_from]. destruct skip as [|skip].
    + rewrite !attempt_date.
      destruct (date_heading (c :: rest)) as [d|] eqn:Hd.
      * cbn [fmap option_fmap option_map heading_match m_end].
        rewrite (proj2 (Nat.eqb_neq (13 + pos) pos)) by lia.
        cbn [app fmap list_fmap fst]. f_equal.
        replace (13 + pos - pos - 1) with 12 by lia.
        apply IH. intros k Hk.
        apply (date_heading_apart (c :: rest) d (S k) Hd). lia.
      * cbn [fmap option_fmap option_map app]. apply IH. intros k Hk. lia.
    + pose proof (Hskip 0 ltac:(lia)) as H0. rewrite drop_0 in H0. rewrite H0.
      cbn [app]. apply IH. intros k Hk.
      apply (Hskip (S k)). lia.
Qed.

(** [search] with the date pattern finds the first date heading. *)
Lemma search_headings ml (rest : str) :
  forall pos prev,
    search_from ml date_regex pos prev rest
    = (fun h => heading_match (fst h)) <$> head (headings_from pos rest).
Proof.
  induction rest as [|c rest IH]; intros pos prev.
  - cbn [search_from headings_from]. rewrite attempt_date. done.
  - cbn [search_from headings_from]. rewrite attempt_date.
    destruct (date_heading (c :: rest)) as [d|]; [done|].
    cbn [fmap option_fmap option_map app]. apply IH.
Qed.

(** **** Splitting on the entry marker *)

Lemma slice_pre (pre rest : str) (last : nat) :
  last <= length pre -> slice (pre ++ rest) last (length pre) = drop last pre.
Proof.
  intros H. unfold slice. rewrite drop_app_le by done.
  apply take_app_length'. rewrite length_drop. done.
Qed.

Lemma slice_pre_S (pre rest : str) (c : N) (last : nat) :
  last <= length pre ->
  slice (pre ++ c :: rest) last (S (length pre)) = drop last pre ++ [c].
Proof.
  intros H. unfold slice. rewrite drop_app_le by done.
  replace (S (length pre) - last) with (length (drop last pre) + 1)
    by (rewrite length_drop; lia).
  rewrite take_app_add. done.
Qed.

Lemma prepend_cons_head (a : str) (c : N) (pieces : list str) :
  prepend_head a (cons_head c pieces) = prepend_head (a ++ [c]) pieces.
Proof. destruct pieces as [|p ps]; cbn; by rewrite <- ?app_assoc. Qed.

Lemma split_marker_from_cons (s : str) :
  forall skip, ∃ p ps, split_marker_from s skip = p :: ps.
Proof.
  induction s as [|c s IH]; intros [|skip]; cbn [split_marker_from]; eauto.
  destruct (starts_with entry_marker (c :: s)); [eauto|].
  destruct (IH 0) as (p & ps & ->). cbn. eauto.
Qed.

Lemma prepend_head_nil (pieces : list str) :
  pieces ≠ [] -> prepend_head [] pieces = pieces.
Proof. by destruct pieces. Qed.

Lemma split_marker_from_nonempty (s : str) (skip : nat) : split_marker_from s skip ≠ [].
Proof. by destruct (split_marker_from_cons s skip) as (p & ps & ->). Qed.

Lemma pieces_split ml (whole : str) (rest : str) :
  forall pre pos last skip prev,
    whole = pre ++ rest -> pos = length pre ->
    (skip = 0 ∧ last <= pos) ∨ (0 < skip ∧ last = pos + skip) ->
    skip <= length rest ->
    pieces_between whole last (scan_from ml marker_regex pos prev rest skip)
    = prepend_head (slice whole last pos) (split_marker_from rest skip).
Proof.
  induction rest as [|c rest IH]; intros pre pos last skip prev Hwhole Hpos Hlast Hskip.
  - assert (skip = 0) as -> by (simpl in Hskip; lia).
    destruct Hlast as [[_ Hlast]|[? _]]; [|lia].
    cbn [scan_from split_marker_from prepend_head]. rewrite attempt_marker.
    rewrite starts_with_marker. cbn [pieces_between].
    rewrite app_nil_r in Hwhole. subst whole pos. by rewrite app_nil_r.
  - destruct skip as [|skip].
    + destruct Hlast as [[_ Hlast]|[? _]]; [|lia].
      cbn [scan_from split_marker_from]. rewrite attempt_marker.
      destruct (starts_with entry_marker (c :: rest)) eqn:Hm.
      * cbn [marker_match m_end m_start].
        rewrite (proj2 (Nat.eqb_neq (4 + pos) pos)) by lia.
        cbn [pieces_between m_start m_end prepend_head]. rewrite app_nil_r. f_equal.
        replace (4 + pos - pos - 1) with 3 by lia.
        replace (length entry_marker - 1) with 3 by (vm_compute; reflexivity).
        change (m_end (marker_match pos)) with (4 + pos).
        rewrite (IH (pre ++ [c]) (S pos) (4 + pos) 3 (Some c)).
        -- unfold slice at 1. replace (S pos - (4 + pos)) with 0 by lia.
           rewrite take_0. apply prepend_head_nil, split_marker_from_nonempty.
        -- by rewrite <- app_assoc.
        -- rewrite length_app. cbn [length]. lia.
        -- right. lia.
        -- rewrite starts_with_marker in Hm.
           destruct rest as [|? [|? [|? ?]]]; try done. simpl. lia.
      * rewrite prepend_cons_head.
        rewrite (IH (pre ++ [c]) (S pos) last 0 (Some c)).
        -- f_equal. subst whole pos. rewrite slice_pre, slice_pre_S by done. done.
        -- by rewrite <- app_assoc.
        -- rewrite length_app. cbn [length]. lia.
        -- left. lia.
        -- lia.
    + destruct Hlast as [[? _]|[_ Hlast]]; [lia|].
      cbn [scan_from split_marker_from].
      rewrite (IH (pre ++ [c]) (S pos) last skip (Some c)).
      * unfold slice. replace (pos - last) with 0 by lia.
        replace (S pos - last) with 0 by lia. by rewrite !take_0.
      * by rewrite <- app_assoc.
      * rewrite length_app. cbn [length]. lia.
      * destruct skip; [left; lia|right; lia].
      * simpl in Hskip. lia.
Qed.

Lemma re_split_marker (section : str) :
  re_split entry_marker section = Return (split_marker section).
Proof.
  unfold re_split, re_compile. rewrite compile_marker_regex. mstep.
  cbn [p_groups Nat.ltb Nat.leb p_regex]. f_equal. unfold finditer, split_marker.
  rewrite (pieces_split false section section [] 0 0 0 None); try done.
  - unfold slice. cbn [Nat.sub]. rewrite take_0.
    apply prepend_head_nil, split_marker_from_nonempty.
  - left. lia.
  - lia.
Qed.

Lemma section_entries_spec (section : str) :
  section_entries section = Return (tail (split_marker section)).
Proof. unfold section_entries. rewrite re_split_marker. reflexivity. Qed.

(** **** The sections *)

Lemma headings_from_cons (s : str) :
  forall pos p d tl,
    headings_from pos s = (p, d) :: tl ->
    ∃ k, p = pos + k ∧ date_heading (drop k s) = Some d
         ∧ tl = headings_from (S p) (drop (S k) s).
Proof.
  induction s as [|c s IH]; intros pos p d tl; cbn [headings_from].
  - assert (date_heading [] = None) as -> by (by rewrite date_heading_unfold). done.
  - destruct (date_heading (c :: s)) as [d0|] eqn:Hd; cbn [app].
    + intros [= <- <- <-]. exists 0. rewrite Nat.add_0_r. done.
    + intros (k & -> & Hk & ->)%IH. exists (S k). split; [lia|]. done.
Qed.

Lemma headings_from_skip (n : nat) :
  forall s pos,
    (forall j, j < n -> date_heading (drop j s) = None) ->
    headings_from pos s = headings_from (n + pos) (drop n s).
Proof.
  induction n as [|n IH]; intros s pos Hn; [by rewrite drop_0|].
  destruct s as [|c s].
  - by rewrite drop_nil.
  - cbn [headings_from drop].
    pose proof (Hn 0 ltac:(lia)) as H0. rewrite drop_0 in H0. rewrite H0. cbn [app].
    rewrite (IH s (S pos)).
    + f_equal. lia.
    + intros j Hj. apply (Hn (S j)). lia.
Qed.

Lemma headings_from_shift (s : str) :
  forall a b,
    headings_from (a + b) s = (fun h => (a + fst h, snd h)) <$> headings_from b s.
Proof.
  induction s as [|c s IH]; intros a b; cbn [headings_from].
  - by destruct (date_heading []).
  - rewrite fmap_app. f_equal; [by destruct (date_heading (c :: s))|].
    replace (S (a + b)) with (a + S b) by lia. apply IH.
Qed.

Lemma headings_from_shift0 (s : str) (a : nat) :
  headings_from a s = (fun h => (a + fst h, snd h)) <$> headings_from 0 s.
Proof. rewrite <- (headings_from_shift s a 0). by rewrite Nat.add_0_r. Qed.

(** The headings after one heading start after its end. *)
Lemma headings_from_next (content : str) (e p : nat) (d : str) (tl : list (nat * str)) :
  headings_from e (drop e content) = (p, d) :: tl ->
  date_heading (drop p content) = Some d
  ∧ tl = headings_from (13 + p) (drop (13 + p) content).
Proof.
  intros (k & -> & Hd & ->)%headings_from_cons.
  rewrite drop_drop in Hd. split; [done|].
  rewrite (headings_from_skip 12).
  - rewrite !drop_drop. f_equal. f_equal. lia.
  - intros j Hj. rewrite !drop_drop.
    replace (e + (S k + j)) with (e + k + S j) by lia.
    rewrite <- (drop_drop content (S j) (e + k)).
    apply (date_heading_apart _ d); [done|lia].
Qed.

Lemma date_heading_text (s d : str) :
  date_heading s = Some d -> d = take 10 (drop 3 s).
Proof. unfold date_heading. by destruct (_ && _); intros [= <-]. Qed.

Lemma re_search_date (s : str) :
  re_search (PyStr (utf8 "## (\d{4}-\d{2}-\d{2})")) s
  = Return ({| p_regex := date_regex; p_groups := 1 |},
            (fun h => heading_match (fst h)) <$> head (headings s)).
Proof.
  unfold re_search, re_compile. rewrite compile_date_regex. mstep.
  unfold search. cbn [p_regex]. by rewrite search_headings.
Qed.

Lemma heading_group_text (content : str) (p : nat) (d : str) :
  date_heading (drop p content) = Some d ->
  match_group1 {| p_regex := date_regex; p_groups := 1 |} content (heading_match p)
  = Return (Some d).
Proof.
  intros Hd. apply date_heading_text in Hd. subst d.
  unfold match_group1. change (p_groups _ <? 1) with false. cbv iota.
  unfold mret, outcome_ret. f_equal.
  change (group_text content (heading_match p) 1)
    with (Some (slice content (3 + p) (13 + p))).
  f_equal. unfold slice. rewrite drop_drop. f_equal; [lia|f_equal; lia].
Qed.

Lemma build_sections_spec (content : str) (hs : list (nat * str)) :
  forall e last_end,
    hs = headings_from e (drop e content) ->
    build_sections {| p_regex := date_regex; p_groups := 1 |}
      (PyStr (utf8 "## (\d{4}-\d{2}-\d{2})")) content last_end
      ((fun h => heading_match (fst h)) <$> hs)
    = Return (match hs with
              | (p, _) :: _ =>
                  if last_end <? p then [(None, slice content last_end p)] else []
              | [] => []
              end ++ sections_of content hs).
Proof.
  induction hs as [|[p d] tl IH]; intros e last_end Hhs; [done|].
  symmetry in Hhs. apply headings_from_next in Hhs as [Hd Htl].
  rewrite fmap_cons. cbn [build_sections fst].
  change (m_start (heading_match p)) with p.
  change (m_end (heading_match p)) with (13 + p).
  rewrite re_search_date, (heading_group_text content p d Hd). mstep.
  unfold headings.
  rewrite headings_from_shift0 in Htl.
  destruct (headings_from 0 (drop (13 + p) content)) as [|[q d'] tl'] eqn:Hnext.
  - rewrite fmap_nil in Htl. subst tl. reflexivity.
  - change (m_start (heading_match q)) with q.
    change ((fun h : nat * str => heading_match (fst h)) <$> head ((q, d') :: tl'))
      with (Some (heading_match q)). cbv iota.
    change (m_start (heading_match q)) with q.
    rewrite (IH (13 + p) (13 + p + q)).
    + rewrite fmap_cons in Htl. cbn [fst snd] in Htl. subst tl.
      cbn [sections_of]. rewrite Nat.ltb_irrefl. done.
    + rewrite Htl, <- Hnext. symmetry. apply headings_from_shift0.
Qed.

Lemma default_date_pattern :
  (rules ← getitem load_default_config (utf8 "parsing_rules");
   getitem rules (utf8 "date_pattern"))
  = Return (PyStr (utf8 "## (\d{4}-\d{2}-\d{2})")).
Proof. vm_compute. reflexivity. Qed.

Lemma default_entry_pattern :
  ∃ v, (rules ← getitem load_default_config (utf8 "parsing_rules");
        getitem rules (utf8 "entry_pattern")) = Return v.
Proof. eexists. vm_compute. reflexivity. Qed.

Lemma default_config_dates : default_dates load_default_config.
Proof.
  eexists _, _. split; [vm_compute; reflexivity|]. split; vm_compute; reflexivity.
Defined.

Lemma date_sections_dates (config : pyobj) (content : str) :
  default_dates config -> date_sections config content = Return (spec_sections content).
Proof.
  intros (rules & v & Hrules & Hdp & Hep). unfold date_sections.
  rewrite Hrules. mstep. rewrite Hdp, Hep. mstep.
  unfold re_finditer_multiline, re_compile. rewrite compile_date_regex. mstep.
  cbn [p_regex]. unfold finditer.
  rewrite scan_headings by (intros k Hk; lia).
  rewrite (build_sections_spec content (headings_from 0 content) 0 0)
    by (by rewrite drop_0).
  unfold spec_sections, headings.
  by destruct (headings_from 0 content) as [|[p d] tl].
Qed.

Lemma date_sections_default (content : str) :
  date_sections load_default_config content = Return (spec_sections content).
Proof. apply date_sections_dates, default_config_dates. Qed.

Lemma raw_entries_of_spec (sections : list (option str * str)) :
  raw_entries_of sections = Return (spec_raw_entries_of sections).
Proof.
  induction sections as [|[[d|] section] sections IH]; [done| |].
  - cbn [raw_entries_of]. rewrite section_entries_spec, IH. reflexivity.
  - cbn [raw_entries_of]. rewrite IH. reflexivity.
Qed.

Lemma raw_entries_dates (config : pyobj) (content : str) :
  default_dates config -> raw_entries config content = Return (spec_raw_entries content).
Proof.
  intros H. unfold raw_entries. rewrite (date_sections_dates _ _ H), bind_return.
  apply raw_entries_of_spec.
Qed.

Lemma raw_entries_default (content : str) :
  raw_entries load_default_config content = Return (spec_raw_entries content).
Proof. apply raw_entries_dates, default_config_dates. Qed.

(** The records come from the raw entries, one at a time and in order. *)
Lemma parse_raw_entries_app (config : pyobj) (date : str) (entries : list str)
    (rest : list (str * str)) :
  parse_raw_entries config (((fun e => (date, e)) <$> entries) ++ rest)
  = (records ← parse_entries config date entries;
     more ← parse_raw_entries config rest;
     mret (records ++ more)).
Proof.
  induction entries as [|entry entries IH].
  - cbn [fmap list_fmap app parse_entries]. mstep.
    by destruct (parse_raw_entries config rest).
  - rewrite fmap_cons. cbn [app parse_raw_entries parse_entries].
    case_bool_decide; [apply IH|]. rewrite IH. mstep.
    destruct (parse_entry config date entry) as [r| |]; [|done..].
    destruct (parse_entries config date entries) as [records| |]; [|done..].
    destruct (parse_raw_entries config rest) as [more| |]; [|done..].
    by destruct r.
Qed.

Lemma parse_sections_raw (config : pyobj) (sections : list (option str * str)) :
  parse_sections config sections
  = parse_raw_entries config (spec_raw_entries_of sections).
Proof.
  induction sections as [|[[d|] section] sections IH]; [done| |].
  - cbn [parse_sections]. rewrite section_entries_spec, bind_return, IH.
    symmetry. apply parse_raw_entries_app.
  - cbn [parse_sections]. apply IH.
Qed.

Lemma parse_markdown_content_raw (config : pyobj) (content : str) :
  parse_markdown_content config content
  = (entries ← raw_entries config content; parse_raw_entries config entries).
Proof.
  unfold parse_markdown_content, raw_entries.
  destruct (date_sections config content) as [sections| |]; [|done..].
  rewrite !bind_return, raw_entries_of_spec, bind_return. apply parse_sections_raw.
Qed.




Example sample_segments :
  raw_entries load_default_config sample_text
  = Return [(utf8 "2025-01-19", utf8 "A
x
"); (utf8 "2025-01-19", utf8 "B
"); (utf8 "2025-01-19", utf8 "C
"); (utf8 "2025-01-20", utf8 "D")].
Proof. vm_compute. reflexivity. Qed.

End SegmenterProps.

(** * More properties of the customer type marker *)

Module MarkerRunProps.
Import Marker MarkerProps MarkerRun.

Lemma mark_row_lookup pre r k : k ≠ mark_col_idx -> mark_row pre r !! k = r !! k.
Proof.
  intros Hk. unfold mark_row. repeat case_match; try done; by rewrite list_lookup_insert_ne.
Qed.

Lemma label_new_existing : label_new ≠ label_existing.
Proof. intros H. vm_compute in H. discriminate H. Qed.

Lemma label_new_nonempty : label_new ≠ [].
Proof. intros H. vm_compute in H. discriminate H. Qed.

Lemma label_existing_nonempty : label_existing ≠ [].
Proof. intros H. vm_compute in H. discriminate H. Qed.

Section Classifier.
Variable coerce_other : list cell -> cell -> parsed.

(** X1, what the classifier leaves alone.  When [mark_customer_types]
    returns a table, it has the columns and the number of rows of the table
    given, every row keeps its length, and every cell outside the date
    column and the mark column is the cell of the table given. *)
Theorem X1_mark_frame (df df' : DataFrame) :
  mark_customer_types coerce_other df = Some df' ->
  columns df' = columns df
  ∧ length (data df') = length (data df)
  ∧ forall i r, data df !! i = Some r ->
      ∃ r', data df' !! i = Some r' ∧ length r' = length r
            ∧ forall k, k ≠ date_col_idx -> k ≠ mark_col_idx -> r' !! k = r !! k.
Proof.
  intros (_ & Hcols & Hdata)%mark_unfold. split; [done|]. split.
  - rewrite Hdata, length_fmap. apply prepared_length.
  - intros i r Hr. destruct (dates_lookup coerce_other df i r Hr) as [d Hd].
    eexists. split.
    + rewrite Hdata, list_lookup_fmap. erewrite prepared_lookup by done. reflexivity.
    + split.
      * by rewrite mark_row_length, !length_insert.
      * intros k Hk1 Hk2. rewrite mark_row_lookup by done.
        by rewrite !list_lookup_insert_ne by done.
Qed.

Lemma coerced_dates_shape df i d :
  coerced_dates coerce_other df !! i = Some d -> d = CNa ∨ ∃ t, d = CDatetime t.
Proof.
  intros Hd. apply (coerce_cells_shape coerce_other (get_column date_col_idx (data df))).
  by eapply list_elem_of_lookup_2.
Qed.

(** X2, the three marks.  After [mark_customer_types] the mark of a row is
    the empty text, 新增 or 存量, and it is the empty text exactly when the
    coerced date of the row is missing or its identifier is missing. *)
Theorem X2_labels_range (df df' : DataFrame) (i : nat) (d c : cell) :
  wf_frame df -> mark_customer_types coerce_other df = Some df' ->
  coerced_dates coerce_other df !! i = Some d -> customer_ids df !! i = Some c ->
  ∃ l, labels df' !! i = Some (CStr l)
       ∧ (l = [] ∨ l = label_new ∨ l = label_existing)
       ∧ (l = [] <-> d = CNa ∨ c = CNa).
Proof.
  intros Hwf Hm Hd Hc. rewrite (labels_lookup coerce_other df df' i d c) by done.
  unfold label_for.
  destruct (coerced_dates_shape df i d Hd) as [-> | [t ->]].
  - exists []. split; [done|]. split; [by left|]. split; [by left|done].
  - destruct (decide (c = CNa)) as [-> | Hna].
    { exists []. split; [done|]. split; [by left|]. split; [by right|done]. }
    replace (pd_isna c) with false by (by destruct c). cbn [pd_isna orb].
    destruct (_ || _); [exists label_existing | exists label_new].
    + split; [done|]. split; [eauto|]. split.
      * intros H. by apply label_existing_nonempty in H.
      * intros [H|H]; [discriminate H|done].
    + split; [done|]. split; [eauto|]. split.
      * intros H. by apply label_new_nonempty in H.
      * intros [H|H]; [discriminate H|done].
Qed.

(** X3, one mark per customer.  Two rows with a valid date and the same
    identifier, which is not missing, get the same mark. *)
Theorem X3_one_label_per_customer (df df' : DataFrame) (i j : nat) (ti tj : Z) (c : cell) :
  wf_frame df -> mark_customer_types coerce_other df = Some df' ->
  c ≠ CNa ->
  coerced_dates coerce_other df !! i = Some (CDatetime ti) -> customer_ids df !! i = Some c ->
  coerced_dates coerce_other df !! j = Some (CDatetime tj) -> customer_ids df !! j = Some c ->
  labels df' !! i = labels df' !! j.
Proof.
  intros Hwf Hm Hna Hdi Hci Hdj Hcj.
  pose proof (mark_unfold coerce_other _ _ Hm) as (Hcols & _).
  rewrite (labels_lookup coerce_other df df' i _ c) by done.
  rewrite (labels_lookup coerce_other df df' j _ c) by done.
  f_equal. unfold label_for. replace (pd_isna c) with false by (by destruct c).
  cbn [pd_isna orb].
  set (pre := pre_2025_customers _).
  assert (forall k t, coerced_dates coerce_other df !! k = Some (CDatetime t) ->
                      customer_ids df !! k = Some c ->
                      before_2025 (CDatetime t) = true -> c ∈ pre) as Hin.
  { intros k t Hk Hck Hb. unfold pre. rewrite pre_elem_columns by done.
    split; [done|]. eauto. }
  destruct (before_2025 (CDatetime ti)) eqn:Hbi; destruct (before_2025 (CDatetime tj)) eqn:Hbj;
    cbn [orb]; try done.
  - rewrite bool_decide_eq_true_2; [done|]. by eapply (Hin i).
  - rewrite bool_decide_eq_true_2; [done|]. by eapply (Hin j).
Qed.

End Classifier.

(** **** The counters *)

Lemma count_label_cons l c col :
  count_label l (c :: col) = (if bool_decide (c = CStr l) then 1 else 0) + count_label l col.
Proof.
  unfold count_label. rewrite filter_cons. case_bool_decide; by destruct (decide _).
Qed.

Lemma count_rows pre (rows : list (list cell)) (counts : nat * nat) :
  Forall (fun r => mark_col_idx < length r ∧ row_get r mark_col_idx = CStr []) rows ->
  foldl (count_row pre) counts rows
  = (fst counts + count_label label_new (get_column mark_col_idx (mark_row pre <$> rows)),
     snd counts + count_label label_existing (get_column mark_col_idx (mark_row pre <$> rows))).
Proof.
  intros Hrows. revert counts. induction Hrows as [|r rows [Hlen Hinit] _ IH]; intros [n e].
  - cbn. f_equal; lia.
  - cbn [foldl]. rewrite IH, fmap_cons.
    change (get_column mark_col_idx (mark_row pre r :: (mark_row pre <$> rows)))
      with (row_get (mark_row pre r) mark_col_idx
              :: get_column mark_col_idx (mark_row pre <$> rows)).
    rewrite !count_label_cons, (mark_row_label pre r Hlen Hinit).
    unfold count_row, label_for.
    destruct (pd_isna _ || pd_isna _).
    { rewrite (bool_decide_eq_false_2 (CStr [] = CStr label_new))
        by (intros [= H]; by apply label_new_nonempty).
      rewrite (bool_decide_eq_false_2 (CStr [] = CStr label_existing))
        by (intros [= H]; by apply label_existing_nonempty).
      done. }
    pose proof label_new_existing as Hne.
    destruct (before_2025 _); cbn [orb fst snd].
    { repeat case_bool_decide; try congruence. f_equal; lia. }
    destruct (bool_decide (_ ∈ pre)); cbn [fst snd];
      repeat case_bool_decide; try congruence; f_equal; lia.
Qed.

Lemma count_labels_le (col : list cell) :
  count_label label_new col + count_label label_existing col <= length col.
Proof.
  pose proof label_new_existing as Hne.
  induction col as [|c col IH]; [cbn; lia|].
  rewrite !count_label_cons. cbn [length].
  repeat case_bool_decide; try lia; congruence.
Qed.

Section Counters.
Variable coerce_other : list cell -> cell -> parsed.

Lemma prepared_rows df :
  wf_frame df -> 20 <= length (columns df) ->
  Forall (fun r => mark_col_idx < length r ∧ row_get r mark_col_idx = CStr [])
         (prepared coerce_other df).
Proof.
  intros Hwf Hcols. apply Forall_lookup. intros i r Hr.
  assert (i < length (data df)) as Hi.
  { rewrite <- (prepared_length coerce_other). by eapply lookup_lt_Some. }
  apply lookup_lt_is_Some in Hi as [r0 Hr0].
  destruct (dates_lookup coerce_other df i r0 Hr0) as [d Hd].
  rewrite (prepared_lookup coerce_other df i r0 d Hr0 Hd) in Hr. injection Hr as <-.
  assert (length r0 = length (columns df)) as Hlen.
  { eapply (proj1 (Forall_lookup _ _) Hwf); eauto. }
  split.
  - rewrite !length_insert. unfold mark_col_idx. lia.
  - apply row_get_insert_eq. rewrite length_insert. unfold mark_col_idx. lia.
Qed.

(** X4, the counters.  [new_count] and [existing_count], which the method
    prints, are the numbers of rows marked 新增 and 存量 in the table it
    leaves; together they are at most the number of rows. *)
Theorem X4_counters_match_labels (df df' : DataFrame) :
  wf_frame df -> mark_customer_types coerce_other df = Some df' ->
  mark_counts coerce_other df
  = Some (count_label label_new (labels df'), count_label label_existing (labels df'))
  ∧ count_label label_new (labels df') + count_label label_existing (labels df')
    <= length (data df).
Proof.
  intros Hwf Hm. pose proof Hm as (Hcols & _ & Hdata)%mark_unfold.
  assert (mark_counts coerce_other df
          = Some (count_label label_new (labels df'),
                  count_label label_existing (labels df'))) as Hcounts.
  { unfold mark_counts. destruct (Nat.ltb_spec (length (columns df)) 20); [lia|].
    destruct (mark_usable coerce_other _ _ Hm) as [dates Hdates]. rewrite Hdates.
    apply to_datetime_Some in Hdates as ->.
    f_equal. unfold labels. rewrite Hdata.
    exact (count_rows _ _ (0, 0) (prepared_rows df Hwf Hcols)). }
  split; [done|].
  rewrite <- (labels_length coerce_other df df' Hm).
  apply count_labels_le.
Qed.

End Counters.

(** **** Formatting again *)

Lemma write_mark_twice c m : write_mark (write_mark c m) m = write_mark c m.
Proof. unfold write_mark. by repeat case_bool_decide. Qed.

Section Formatting.
Variable merged : gset (nat * nat).

Lemma format_rows_twice (rows : list (list cell)) (ws ws' : gmap (nat * nat) Cell) :
  format_rows merged ws 0 rows = Some ws' -> format_rows merged ws' 0 rows = Some ws'.
Proof.
  intros H.
  destruct (proj2 (format_rows_is_Some merged rows ws' 0)) as [ws'' H2].
  { apply (format_rows_is_Some merged rows ws 0). eauto. }
  rewrite H2. f_equal. apply map_eq. intros [row col].
  destruct (decide (col = column_index_from_string mark_col_letter
                    ∧ start_row <= row < start_row + length rows)) as [[-> Hrow]|Hout].
  - assert (∃ i, row = start_row + (0 + i) ∧ i < length rows) as (i & -> & Hi).
    { exists (row - start_row). lia. }
    apply lookup_lt_is_Some in Hi as [r Hr].
    rewrite (format_rows_lookup merged rows ws' ws'' 0 i r H2 Hr).
    rewrite (format_rows_lookup merged rows ws ws' 0 i r H Hr).
    unfold ws_cell at 1. rewrite (format_rows_lookup merged rows ws ws' 0 i r H Hr).
    cbn [default from_option id]. by rewrite write_mark_twice.
  - rewrite (format_rows_frame merged rows ws' ws'' 0 _ H2); [done|].
    intros i Hi [= -> ->]. apply Hout. split; [done|unfold start_row; lia].
Qed.

(** X5, formatting twice.  [apply_formatting] on the worksheet it
    returned, with the same table, returns that worksheet. *)
Theorem X5_formatting_twice (df : DataFrame) (ws ws' : gmap (nat * nat) Cell) :
  apply_formatting merged df ws = Some ws' -> apply_formatting merged df ws' = Some ws'.
Proof.
  unfold apply_formatting. destruct (data df) as [|r rows] eqn:Hd.
  - by intros [= <-].
  - destruct (length (columns df) <? 20); [done|].
    exact (format_rows_twice (r :: rows) ws ws').
Qed.

End Formatting.

(** **** [process] *)

Section Process.
Variable coerce_other : list cell -> cell -> parsed.
Variable merged : gset (nat * nat).
Variable save_file : gmap (nat * nat) Cell -> bool.

(** X6, the steps of [process].  When [validate_columns] refuses the
    table, [process] stops there, where [mark_customer_types] would have
    failed.  When it accepts the table, [process] stops at the marking
    step exactly when pandas cannot read the date column and compare it
    with the cutoff, it stops at the formatting step exactly when the
    dates can be read and the mark cell of a data row is read-only, and
    when neither is the case both steps succeed and the save decides the
    outcome. *)
Theorem X6_process_steps (df : DataFrame) (ws : gmap (nat * nat) Cell) :
  let outcome := process coerce_other merged save_file (Some (df, ws)) in
  if validate_columns df
  then (outcome = MarkFailed <-> ¬ dates_usable coerce_other df)
       ∧ (outcome = FormatFailed
          <-> dates_usable coerce_other df ∧ ¬ marks_writable merged df)
       ∧ (dates_usable coerce_other df -> marks_writable merged df ->
          ∃ df' ws', mark_customer_types coerce_other df = Some df'
                     ∧ apply_formatting merged df' ws = Some ws'
                     ∧ outcome = if save_file ws' then Saved df' ws' else SaveFailed)
  else outcome = ColumnsRejected ∧ mark_customer_types coerce_other df = None.
Proof.
  cbv zeta. unfold process, validate_columns.
  destruct (Nat.ltb_spec (length (columns df)) 20) as [Hlt|Hge]; cbn [negb].
  { split; [done|]. unfold mark_customer_types.
    by rewrite (proj2 (Nat.ltb_lt _ _) Hlt). }
  destruct (mark_customer_types coerce_other df) as [df'|] eqn:Hm.
  - pose proof (mark_usable coerce_other _ _ Hm) as Hread.
    pose proof Hm as (_ & Hcols' & Hdata)%mark_unfold.
    assert (marks_writable merged df' <-> marks_writable merged df) as Hsame.
    { unfold marks_writable. by rewrite Hdata, length_fmap, prepared_length. }
    destruct (apply_formatting merged df' ws) as [ws'|] eqn:Hf.
    + assert (marks_writable merged df) as Hwrite.
      { apply Hsame. intros i Hi.
        apply apply_formatting_rows in Hf.
        pose proof (proj1 (format_rows_is_Some merged (data df') ws 0)
                      (ex_intro _ ws' Hf) i Hi) as H.
        done. }
      split; [|split].
      * split; [by destruct (save_file ws')|done].
      * split; [by destruct (save_file ws')|]. by intros [_ H].
      * intros _ _. by exists df', ws'.
    + assert (¬ marks_writable merged df) as Hwrite.
      { intros H%Hsame.
        destruct (apply_formatting_total merged df' ws) as [ws' Hf']; [by rewrite Hcols'|done|].
        congruence. }
      split; [|split]; [done|done|]. by intros _ H.
  - assert (¬ dates_usable coerce_other df) as Hread.
    { intros H. destruct (mark_total coerce_other df Hge H) as [df' Hm']. congruence. }
    split; [|split]; [done| |done].
    split; [done|]. by intros [H _].
Qed.

End Process.

(** **** The order of the rows *)

Section RowOrder.
Variable coerce_other : list cell -> cell -> parsed.

Lemma dates_read_coerced df :
  dates_read df -> coerced_dates coerce_other df = get_column date_col_idx (data df).
Proof.
  intros H. unfold coerced_dates. apply coerce_cells_fixed.
  intros c Hc. by apply (proj1 (Forall_forall _ _) H).
Qed.

Lemma set_column_same j (rows : list (list cell)) :
  Forall (fun r => j < length r) rows ->
  set_column j (get_column j rows) rows = rows.
Proof.
  intros Hrows. unfold set_column, get_column. apply list_eq. intros i.
  rewrite lookup_zip_with, list_lookup_fmap.
  destruct (rows !! i) as [r|] eqn:Hr; [|done]. cbn.
  f_equal. apply list_insert_id. unfold row_get.
  assert (j < length r) as [x Hx]%lookup_lt_is_Some.
  { eapply (proj1 (Forall_lookup _ _) Hrows); eauto. }
  by rewrite Hx.
Qed.

Lemma set_column_const j v (rows : list (list cell)) :
  set_column j ((fun _ => v) <$> rows) rows = (fun r => <[j := v]> r) <$> rows.
Proof.
  unfold set_column. apply list_eq. intros i.
  rewrite lookup_zip_with, !list_lookup_fmap. by destruct (rows !! i).
Qed.

Lemma mark_data_read df df' :
  wf_frame df -> dates_read df -> mark_customer_types coerce_other df = Some df' ->
  data df' = (fun r => mark_row (pre_2025_customers (data df)) (<[mark_col_idx := CStr []]> r))
               <$> data df.
Proof.
  intros Hwf Hread (Hcols & _ & ->)%mark_unfold.
  unfold prepared. rewrite dates_read_coerced by done.
  rewrite set_column_same.
  - rewrite set_column_const, <- list_fmap_compose. done.
  - eapply Forall_impl; [exact Hwf|]. cbn. intros r ->. unfold date_col_idx. lia.
Qed.

Lemma pre_2025_customers_perm (rows1 rows2 : list (list cell)) :
  rows1 ≡ₚ rows2 -> pre_2025_customers rows1 = pre_2025_customers rows2.
Proof.
  intros Hp. apply set_eq. intros x. rewrite !pre_elem.
  apply and_iff_compat_l. by setoid_rewrite Hp.
Qed.

(** X7, the order of the rows.  On a table whose date cells are datetimes
    or empty, the rows taken in another order give the same rows in the
    result, up to their order. *)
Theorem X7_row_order (df1 df2 out1 out2 : DataFrame) :
  wf_frame df1 -> dates_read df1 ->
  columns df2 = columns df1 -> data df1 ≡ₚ data df2 ->
  mark_customer_types coerce_other df1 = Some out1 ->
  mark_customer_types coerce_other df2 = Some out2 ->
  data out1 ≡ₚ data out2.
Proof.
  intros Hwf Hread Hcols Hp H1 H2.
  assert (wf_frame df2) as Hwf2.
  { unfold wf_frame. rewrite Hcols, <- Hp. exact Hwf. }
  assert (dates_read df2) as Hread2.
  { unfold dates_read, get_column in *. by rewrite <- Hp. }
  rewrite (mark_data_read df1 out1), (mark_data_read df2 out2) by done.
  rewrite (pre_2025_customers_perm _ _ Hp). by apply fmap_Permutation.
Qed.

End RowOrder.

(** **** The properties on the small table *)


Lemma sample_dated_wf : wf_frame sample_dated.
Proof. unfold wf_frame. repeat constructor. Defined.

Lemma sample_dated_read : dates_read sample_dated.
Proof.
  unfold dates_read. vm_compute.
  repeat (apply List.Forall_cons;
          [first [left; reflexivity | right; eexists; reflexivity]|]).
  apply List.Forall_nil.
Defined.

Lemma X1_mark_frame_witness :
  ∃ df', mark_customer_types no_text_dates sample_frame = Some df'
    ∧ columns df' = columns sample_frame
    ∧ length (data df') = length (data sample_frame)
    ∧ forall i r, data sample_frame !! i = Some r ->
        ∃ r', data df' !! i = Some r' ∧ length r' = length r
              ∧ forall k, k ≠ date_col_idx -> k ≠ mark_col_idx -> r' !! k = r !! k.
Proof.
  eexists. split; [vm_compute; reflexivity|].
  apply (X1_mark_frame no_text_dates sample_frame). vm_compute. reflexivity.
Defined.

Lemma X2_labels_range_witness :
  ∃ df' l, mark_customer_types no_text_dates sample_frame = Some df'
    ∧ labels df' !! 4 = Some (CStr l)
    ∧ (l = [] ∨ l = label_new ∨ l = label_existing)
    ∧ (l = [] <-> CNa = CNa ∨ old_customer = CNa).
Proof.
  eexists.
  destruct (X2_labels_range no_text_dates sample_frame _ 4 CNa old_customer sample_wf eq_refl)
    as (l & H).
  - vm_compute. reflexivity.
  - vm_compute. reflexivity.
  - exists l. split; [reflexivity|exact H].
Defined.

Lemma X3_one_label_per_customer_witness :
  ∃ df', mark_customer_types no_text_dates sample_frame = Some df'
         ∧ labels df' !! 0 = labels df' !! 1.
Proof.
  eexists. split; [vm_compute; reflexivity|].
  apply (X3_one_label_per_customer no_text_dates sample_frame _ 0 1
           (Timestamp 2024 3 5) (Timestamp 2025 2 1) old_customer).
  - exact sample_wf.
  - vm_compute. reflexivity.
  - discriminate.
  - vm_compute. reflexivity.
  - vm_compute. reflexivity.
  - vm_compute. reflexivity.
  - vm_compute. reflexivity.
Defined.

Lemma X4_counters_match_labels_witness :
  ∃ df', mark_customer_types no_text_dates sample_frame = Some df'
    ∧ mark_counts no_text_dates sample_frame
      = Some (count_label label_new (labels df'), count_label label_existing (labels df'))
    ∧ count_label label_new (labels df') + count_label label_existing (labels df')
      <= length (data sample_frame).
Proof.
  eexists. split; [vm_compute; reflexivity|].
  apply (X4_counters_match_labels no_text_dates sample_frame).
  - exact sample_wf.
  - vm_compute. reflexivity.
Defined.

Lemma X5_formatting_twice_witness :
  ∃ ws', apply_formatting title_merged sample_frame sample_sheet = Some ws'
         ∧ apply_formatting title_merged sample_frame ws' = Some ws'.
Proof.
  eexists. split; [vm_compute; reflexivity|].
  apply (X5_formatting_twice title_merged sample_frame sample_sheet).
  vm_compute. reflexivity.
Defined.

Lemma X7_row_order_witness :
  ∃ out1 out2,
    mark_customer_types no_text_dates sample_dated = Some out1
    ∧ mark_customer_types no_text_dates sample_dated_reversed = Some out2
    ∧ data out1 ≡ₚ data out2.
Proof.
  eexists _, _. split; [vm_compute; reflexivity|]. split; [vm_compute; reflexivity|].
  apply (X7_row_order no_text_dates sample_dated sample_dated_reversed).
  - exact sample_dated_wf.
  - exact sample_dated_read.
  - reflexivity.
  - symmetry. apply reverse_Permutation.
  - vm_compute. reflexivity.
  - vm_compute. reflexivity.
Defined.

Example sample_counts : mark_counts no_text_dates sample_frame = Some (1, 2).
Proof. vm_compute. reflexivity. Qed.

(** [process] on the small table: a text with a UTC offset in the date
    column stops it at the marking step, a read-only T5 at the formatting
    step. *)
Example sample_process :
  process offset_text_dates title_merged (fun _ => true) (Some (sample_frame, sample_sheet))
  = MarkFailed
  ∧ process no_text_dates note_merged (fun _ => true) (Some (sample_frame, sample_sheet))
    = FormatFailed
  ∧ ∃ df' ws',
      process no_text_dates title_merged (fun _ => true) (Some (sample_frame, sample_sheet))
      = Saved df' ws'.
Proof.
  split; [vm_compute; reflexivity|]. split; [vm_compute; reflexivity|].
  eexists _, _. vm_compute. reflexivity.
Qed.

End MarkerRunProps.

(** * More properties of the converter *)

Module ConverterRunProps.
Import Re ReSpec ReProps Converter ConverterSpec ConverterProps SegmenterSpec SegmenterProps.
Import ConverterRun.

(** **** Outcomes *)

Lemma bind_Return_inv {A B : Type} (m : outcome A) (k : A -> outcome B) (b : B) :
  (m ≫= k) = Return b -> ∃ a, m = Return a ∧ k a = Return b.
Proof. destruct m as [a| |]; [eauto|done..]. Qed.

Ltac bind_inv H :=
  let a := fresh "a" in
  let Ha := fresh "Ha" in
  apply bind_Return_inv in H as (a & Ha & H).

Ltac mstep_in H :=
  unfold mbind, outcome_bind, mret, outcome_ret in H; cbn beta iota in H.

(** **** [rstrip] *)

Lemma rstrip_by_last f s c : last (rstrip_by f s) = Some c -> f c = false.
Proof.
  unfold rstrip_by. destruct (lstrip_by f (rev s)) as [|x t] eqn:Hl; [done|].
  cbn [rev]. rewrite last_snoc. intros [= <-]. by eapply lstrip_by_head.
Qed.

Lemma rstrip_ends_clean s : ends_clean (rstrip trailing_punctuation s).
Proof. intros c Hc. unfold rstrip in Hc. by apply rstrip_by_last in Hc. Qed.

Lemma ends_clean_nil : ends_clean [].
Proof. by intros c. Qed.

(** **** A search for one code point of a set *)

Lemma search_set_None ml negate items (s : str) :
  forall pos prev,
    search_from ml (RSeq (RSet negate items) REmpty) pos prev s = None ->
    Forall (fun c => set_matches negate items c = false) s.
Proof.
  induction s as [|c s IH]; intros pos prev H; [constructor|].
  cbn [search_from] in H. unfold attempt in H. cbn [rmatch m_rest] in H.
  destruct (set_matches negate items c) eqn:Hc.
  - cbn in H. done.
  - constructor; [done|]. by eapply IH.
Qed.

Lemma name_forbidden_set (c : N) :
  set_matches false [IDigit; IChar 40; IChar 41; IChar 91; IChar 93; IChar 47;
                     IChar 92; IChar 45; IChar 95; IChar 61; IChar 43] c
  = name_forbidden c.
Proof.
  unfold name_forbidden.
  replace (utf8 "()[]/\-_=+") with [40; 41; 91; 93; 47; 92; 45; 95; 61; 43]%N
    by (vm_compute; reflexivity).
  reflexivity.
Qed.

Lemma re_search_name_check (name : str) :
  re_search (PyStr (utf8 "[\d\(\)\[\]/\\\-_=+]")) name
  = Return ({| p_regex := name_check_regex; p_groups := 0 |},
            search false name_check_regex name).
Proof.
  unfold re_search, re_compile.
  replace (compile (utf8 "[\d\(\)\[\]/\\\-_=+]"))
    with (POk {| p_regex := name_check_regex; p_groups := 0 |})
    by (vm_compute; reflexivity).
  reflexivity.
Qed.

(** **** The name of the header *)

Lemma try_header_patterns_name (patterns : list pyobj) (first_line name : str) :
  try_header_patterns patterns first_line = Return (Some name) ->
  1 <= length name <= 10
  ∧ Forall (fun c => name_forbidden c = false) name
  ∧ ends_clean name.
Proof.
  induction patterns as [|pattern rest IH]; [done|].
  cbn [try_header_patterns].
  destruct (re_search pattern first_line) as [[pat [m|]]|[]|]; try done.
  intros H. bind_inv H.
  set (n := rstrip trailing_punctuation a) in *.
  destruct (Nat.leb_spec 1 (length n)); cbn [andb] in H; [|by apply IH].
  destruct (Nat.leb_spec (length n) 10); [|by apply IH].
  rewrite re_search_name_check in H. mstep_in H.
  destruct (search false name_check_regex n) eqn:Hs; [by apply IH|].
  injection H as <-. split; [lia|]. split.
  - eapply Forall_impl; [exact (search_set_None _ _ _ _ _ _ Hs)|].
    intros c Hc. by rewrite <- name_forbidden_set.
  - apply rstrip_ends_clean.
Qed.

Lemma extract_name_inv (config : pyobj) (entry name : str) :
  extract_name_from_header config entry = Return (Some name) ->
  ∃ rules flag patterns line lines,
    getitem config (utf8 "parsing_rules") = Return rules
    ∧ py_get rules (utf8 "header_name_extraction") (PyBool true) = Return flag
    ∧ truthy flag = true
    ∧ split_char 10 (strip entry) = line :: lines
    ∧ try_header_patterns patterns (strip line) = Return (Some name).
Proof.
  unfold extract_name_from_header. intros H.
  bind_inv H. bind_inv H.
  destruct (truthy a0) eqn:Hflag; cbn [negb] in H; [|done].
  destruct (split_char 10 (strip entry)) as [|line lines]; [done|].
  bind_inv H. bind_inv H. bind_inv H. eauto 10.
Qed.

(** X8, the name taken from the header.  A name
    [extract_name_from_header] returns has between 1 and 10 code points,
    holds no decimal digit and none of the signs the check refuses, and
    does not end with one of the marks [rstrip] removes; it is returned
    only when the rules have header_name_extraction on, or do not have
    it. *)
Theorem X8_header_name (config : pyobj) (entry name : str) :
  extract_name_from_header config entry = Return (Some name) ->
  1 <= length name <= 10
  ∧ Forall (fun c => name_forbidden c = false) name
  ∧ ends_clean name
  ∧ ∃ rules flag,
      getitem config (utf8 "parsing_rules") = Return rules
      ∧ py_get rules (utf8 "header_name_extraction") (PyBool true) = Return flag
      ∧ truthy flag = true.
Proof.
  intros (rules & flag & patterns & line & lines & Hr & Hf & Ht & _ & Hp)%extract_name_inv.
  apply try_header_patterns_name in Hp as (Hlen & Hchars & Hclean).
  split; [done|]. split; [done|]. split; [done|]. eauto.
Qed.

(** **** The fields of an entry *)


Lemma is_Some_dict_set {V : Type} (k k' : str) (v : V) (d : list (str * V)) :
  is_Some (dict_get k' (dict_set k v d)) <-> k' = k ∨ is_Some (dict_get k' d).
Proof.
  destruct (decide (k = k')) as [<- | Hne].
  - rewrite dict_get_set_eq. split; eauto.
  - rewrite dict_get_set_ne by done. split; [eauto|]. by intros [-> | ?].
Qed.

(** What [extract_fields] keeps of a property of the values, key by key. *)
Lemma extract_fields_values (P : str -> str -> Prop) (entry : str) :
  (forall k s, P k (rstrip trailing_punctuation s)) ->
  (forall k, P k []) ->
  forall fields r0 r,
    extract_fields fields entry r0 = Return r ->
    (forall k v, dict_get k r0 = Some v -> P k v) ->
    forall k v, dict_get k r = Some v -> P k v.
Proof.
  intros Hstrip Hnil fields.
  induction fields as [|[field_name pattern] rest IH]; intros r0 r H Hr0.
  { injection H as <-. done. }
  cbn [extract_fields] in H. bind_inv H. destruct a as [pat found]. bind_inv H.
  apply (IH _ _ H). intros k v Hk.
  destruct found as [m|].
  - bind_inv Ha0. injection Ha0 as <-.
    destruct (decide (field_name = k)) as [-> | Hne].
    + rewrite dict_get_set_eq in Hk. injection Hk as <-. apply Hstrip.
    + rewrite dict_get_set_ne in Hk by done. eauto.
  - destruct (_ && _); injection Ha0 as <-.
    + destruct (decide (field_name = k)) as [-> | Hne].
      * rewrite dict_get_set_eq in Hk. injection Hk as <-. apply Hnil.
      * rewrite dict_get_set_ne in Hk by done. eauto.
    + destruct (decide (field_name = k)) as [-> | Hne].
      * rewrite dict_get_set_eq in Hk. injection Hk as <-.
        destruct (dict_get k r0) as [v|] eqn:Hv; cbn [default]; [eauto|apply Hnil].
      * rewrite dict_get_set_ne in Hk by done. eauto.
Qed.

(** The keys after [extract_fields]: the keys before and the fields. *)
Lemma extract_fields_keys (entry : str) :
  forall fields r0 r,
    extract_fields fields entry r0 = Return r ->
    forall k, is_Some (dict_get k r) <-> is_Some (dict_get k r0) ∨ k ∈ fields.*1.
Proof.
  induction fields as [|[field_name pattern] rest IH]; intros r0 r H k.
  { injection H as <-. rewrite elem_of_nil. tauto. }
  cbn [extract_fields] in H. bind_inv H. destruct a as [pat found]. bind_inv H.
  rewrite (IH _ _ H k). cbn [fmap list_fmap fst]. rewrite elem_of_cons.
  assert (∃ v, a = dict_set field_name v r0) as [v ->].
  { destruct found as [m|].
    - bind_inv Ha0. injection Ha0 as <-. eauto.
    - destruct (_ && _); injection Ha0 as <-; eauto. }
  rewrite is_Some_dict_set. tauto.
Qed.

(** A value under a key that is not a field is left as it was. *)
Lemma extract_fields_other (entry : str) (k : str) :
  forall fields r0 r,
    extract_fields fields entry r0 = Return r ->
    k ∉ fields.*1 -> dict_get k r = dict_get k r0.
Proof.
  induction fields as [|[field_name pattern] rest IH]; intros r0 r H Hk.
  { by injection H as <-. }
  cbn [extract_fields] in H. bind_inv H. destruct a as [pat found]. bind_inv H.
  cbn [fmap list_fmap fst] in Hk. apply not_elem_of_cons in Hk as [Hne Hk].
  rewrite (IH _ _ H Hk).
  assert (∃ v, a = dict_set field_name v r0) as [v ->].
  { destruct found as [m|].
    - bind_inv Ha0. injection Ha0 as <-. eauto.
    - destruct (_ && _); injection Ha0 as <-; eauto. }
  by rewrite dict_get_set_ne.
Qed.

Lemma parse_entry_inv (config : pyobj) (date entry : str) (r : record) :
  parse_entry config date entry = Return (Some r) ->
  ∃ header_name fields,
    extract_name_from_header config entry = Return header_name
    ∧ field_names config = Return fields.*1
    ∧ extract_fields fields entry (first_record date header_name) = Return r
    ∧ validate_record config r = Return true.
Proof.
  unfold parse_entry. intros H.
  bind_inv H. bind_inv H. bind_inv H. bind_inv H. bind_inv H. bind_inv H.
  destruct a4; [|done]. injection H as <-.
  exists a, a2. split; [done|]. split.
  - unfold field_names. rewrite Ha0. mstep. rewrite Ha1. mstep. rewrite Ha2. done.
  - done.
Qed.

Lemma first_record_keys date header_name k :
  is_Some (dict_get k (first_record date header_name)) -> k = date_key ∨ k = name_key.
Proof.
  intros [v Hv]. unfold first_record in Hv.
  destruct (decide (k = date_key)) as [-> | Hd]; [by left|]. right.
  destruct (decide (k = name_key)) as [-> | Hn]; [done|].
  destruct header_name as [[|c name]|]; cbn [dict_set dict_get] in Hv.
  all: repeat (case_bool_decide; cbn [dict_get] in Hv); congruence.
Qed.

Lemma first_record_date date header_name :
  dict_get date_key (first_record date header_name) = Some date.
Proof.
  unfold first_record. by destruct header_name as [[|c name]|].
Qed.

(** **** Where the records come from *)

Lemma parse_raw_entries_origin (config : pyobj) :
  forall entries data,
    parse_raw_entries config entries = Return data ->
    forall r, r ∈ data ->
      ∃ date entry, (date, entry) ∈ entries
                    ∧ parse_entry config date entry = Return (Some r).
Proof.
  induction entries as [|[date entry] rest IH]; intros data H r Hr.
  { injection H as <-. by apply elem_of_nil in Hr. }
  cbn [parse_raw_entries] in H. case_bool_decide.
  - destruct (IH _ H r Hr) as (d & e & He & Hp). exists d, e. split; [by right|done].
  - bind_inv H. bind_inv H. injection H as <-.
    destruct a as [x|].
    + apply elem_of_cons in Hr as [-> | Hr].
      * exists date, entry. split; [by left|done].
      * destruct (IH _ Ha0 r Hr) as (d & e & He & Hp). exists d, e. split; [by right|done].
    + destruct (IH _ Ha0 r Hr) as (d & e & He & Hp). exists d, e. split; [by right|done].
Qed.

Lemma parse_origin (config : pyobj) (content : str) (data : list record) (r : record) :
  parse_markdown_content config content = Return data -> r ∈ data ->
  ∃ entries date entry,
    raw_entries config content = Return entries
    ∧ (date, entry) ∈ entries
    ∧ parse_entry config date entry = Return (Some r).
Proof.
  rewrite parse_markdown_content_raw. intros H Hr. bind_inv H.
  destruct (parse_raw_entries_origin config _ _ H r Hr) as (d & e & He & Hp).
  eauto 6.
Qed.

(** X9, the records are valid.  Every record [parse_markdown_content]
    returns passes [validate_record] under the same configuration. *)
Theorem X9_records_valid (config : pyobj) (content : str) (data : list record) :
  parse_markdown_content config content = Return data ->
  Forall (fun r => validate_record config r = Return true) data.
Proof.
  intros H. apply Forall_forall. intros r Hr.
  destruct (parse_origin _ _ _ _ H Hr) as (es & d & e & _ & _ & Hp).
  by apply parse_entry_inv in Hp as (? & ? & _ & _ & _ & ?).
Qed.

(** X10, the keys of the records.  Every record of a result holds the
    key 日期 and every configured field, and no key besides these and
    姓名: the records of a result share their configured columns. *)
Theorem X10_records_keys (config : pyobj) (content : str) (data : list record) :
  parse_markdown_content config content = Return data ->
  data = []
  ∨ ∃ fields, field_names config = Return fields
      ∧ forall r, r ∈ data ->
          is_Some (dict_get date_key r)
          ∧ (forall f, f ∈ fields -> is_Some (dict_get f r))
          ∧ (forall k, is_Some (dict_get k r) ->
                       k = date_key ∨ k = name_key ∨ k ∈ fields).
Proof.
  intros H. destruct data as [|r0 data]; [by left|]. right.
  destruct (parse_origin _ _ _ r0 H) as (es & d & e & _ & _ & Hp); [by left|].
  apply parse_entry_inv in Hp as (hn & fields & _ & Hf & _ & _).
  exists fields.*1. split; [done|]. intros r Hr.
  destruct (parse_origin _ _ _ r H Hr) as (es' & d' & e' & _ & _ & Hp').
  apply parse_entry_inv in Hp' as (hn' & fields' & _ & Hf' & Hx & _).
  rewrite Hf in Hf'. injection Hf' as Hf'. rewrite Hf'.
  pose proof (extract_fields_keys e' fields' _ _ Hx) as Hkeys.
  split; [|split].
  - apply Hkeys. left. rewrite first_record_date. eauto.
  - intros f Hfield. apply Hkeys. by right.
  - intros k Hk. apply Hkeys in Hk as [Hk | Hk]; [|eauto].
    apply first_record_keys in Hk as [-> | ->]; eauto.
Qed.

(** X11, the values are cleaned.  In a record of a result, no value other
    than the date ends with one of the marks [rstrip] removes. *)
Theorem X11_values_clean (config : pyobj) (content : str) (data : list record)
    (r : record) (k v : str) :
  parse_markdown_content config content = Return data ->
  r ∈ data -> k ≠ date_key -> dict_get k r = Some v ->
  ends_clean v.
Proof.
  intros H Hr Hk Hv.
  destruct (parse_origin _ _ _ r H Hr) as (es & d & e & _ & _ & Hp).
  apply parse_entry_inv in Hp as (hn & fields & Hn & _ & Hx & _).
  refine (extract_fields_values (fun k v => k ≠ date_key -> ends_clean v) e _ _
            fields _ _ Hx _ k v Hv Hk).
  - intros _ s _. apply rstrip_ends_clean.
  - intros _ _. apply ends_clean_nil.
  - intros k0 v0 Hk0 Hne. unfold first_record in Hk0.
    destruct hn as [[|c name]|]; cbn [dict_set dict_get] in Hk0.
    1,3: by (case_bool_decide; [congruence|]).
    apply extract_name_inv in Hn as (? & ? & ? & ? & ? & _ & _ & _ & _ & Hp).
    apply try_header_patterns_name in Hp as (_ & _ & Hclean).
    repeat (case_bool_decide; cbn [dict_get] in Hk0); try congruence.
    by injection Hk0 as <-.
Qed.

(** **** [clean_amount] *)

Lemma round_half_even_nonneg (n d : Z) : (0 <= n)%Z -> (0 < d)%Z -> (0 <= round_half_even n d)%Z.
Proof.
  intros Hn Hd. unfold round_half_even.
  assert (0 <= n / d)%Z by (apply Z.div_pos; lia).
  repeat case_match; lia.
Qed.

Lemma scale2_pos (n d p : Z) :
  (0 <= n)%Z -> (0 < d)%Z -> (0 <= fst (scale2 n d p))%Z ∧ (0 < snd (scale2 n d p))%Z.
Proof.
  intros Hn Hd. unfold scale2. destruct (Z.leb_spec 0 p); cbn [fst snd].
  - split; [done|]. apply Z.mul_pos_pos; [done|]. by apply Z.pow_pos_nonneg.
  - split; [|done]. apply Z.mul_nonneg_nonneg; [done|]. apply Z.pow_nonneg. lia.
Qed.

Lemma binary64_round_nonneg (n d : Z) :
  (0 <= n)%Z -> (0 < d)%Z -> float_nonneg (binary64_round n d).
Proof.
  intros Hn Hd. unfold binary64_round.
  destruct (n =? 0)%Z; [done|].
  destruct (scale2 n d (Z.log2 n - Z.log2 d)) as [n0 d0].
  set (p := Z.max _ _).
  pose proof (scale2_pos n d p Hn Hd) as [Hn1 Hd1].
  destruct (scale2 n d p) as [n1 d1]. cbn [fst snd] in *.
  pose proof (round_half_even_nonneg n1 d1 Hn1 Hd1) as Hm.
  destruct (Z.leb_spec 0 p).
  - case_match; [done|]. cbn. unfold Qle. cbn.
    assert (0 <= 2 ^ p)%Z by (apply Z.pow_nonneg; lia). nia.
  - cbn. rewrite Qred_correct. unfold Qle. cbn. lia.
Qed.

Lemma digits_value_nonneg (s : str) :
  forall acc n, (0 <= acc)%Z -> digits_value s acc = Some n -> (0 <= n)%Z.
Proof.
  induction s as [|c s IH]; intros acc n Hacc H; cbn [digits_value] in H.
  - by injection H as <-.
  - destruct (digit_value c) as [v|]; [|done]. eapply IH; [|exact H]. lia.
Qed.

Lemma py_float_nonneg (s : str) (f : pyfloat) : py_float s = Return f -> float_nonneg f.
Proof.
  unfold py_float. intros H.
  destruct (split_char (ch ".") s) as [|ip [|fp [|]]]; try done.
  - destruct ip as [|c ip]; [done|].
    destruct (digits_value (c :: ip) 0) as [n|] eqn:Hn; [|done].
    injection H as <-. apply binary64_round_nonneg; [|done].
    by eapply digits_value_nonneg.
  - destruct ip as [|c ip]; [done|].
    destruct (digits_value ((c :: ip) ++ fp) 0) as [n|] eqn:Hn; [|done].
    injection H as <-. apply binary64_round_nonneg.
    + by eapply digits_value_nonneg.
    + apply Z.pow_pos_nonneg; lia.
Qed.

Lemma clean_amount_total (s : str) : ∃ f, clean_amount s = Return f.
Proof.
  rewrite clean_amount_spec.
  destruct (first_decimal_number _) as [t|] eqn:Ht; [|eauto].
  apply first_decimal_number_at in Ht as [s' Hs']. by eapply py_float_decimal.
Qed.

Lemma first_decimal_number_skip (c : N) (s : str) :
  is_digit c = false -> first_decimal_number (c :: s) = first_decimal_number s.
Proof.
  intros Hc. cbn [first_decimal_number].
  by rewrite (proj2 (decimal_number_at_None (c :: s)) Hc).
Qed.

Lemma remove_char_twice (x : N) (s : str) :
  remove_char x (remove_char x s) = remove_char x s.
Proof.
  unfold remove_char. induction s as [|c s IH]; [done|].
  cbn [List.filter]. destruct (negb (c =? x)%N) eqn:Hc; [|done].
  cbn [List.filter]. rewrite Hc. by f_equal.
Qed.

(** X12, the sign of an amount.  [clean_amount] returns a float for every
    string, and it is zero or more.  A code point in front that is not a
    decimal digit, such as a minus sign or a currency sign, does not change
    the result, and neither do commas. *)
Theorem X12_clean_amount_sign :
  (forall s, ∃ f, clean_amount s = Return f ∧ float_nonneg f)
  ∧ (forall c s, is_digit c = false -> clean_amount (c :: s) = clean_amount s)
  ∧ (forall s, clean_amount s = clean_amount (remove_char (ch ",") s)).
Proof.
  split; [|split].
  - intros s. destruct (clean_amount_total s) as [f Hf]. exists f. split; [done|].
    rewrite clean_amount_spec in Hf.
    destruct (first_decimal_number _) as [t|]; [by eapply py_float_nonneg|].
    by injection Hf as <-.
  - intros c s Hc. rewrite !clean_amount_spec. unfold remove_char.
    cbn [List.filter]. destruct (negb (c =? ch ",")%N); [|done].
    by rewrite first_decimal_number_skip.
  - intros s. rewrite !clean_amount_spec. by rewrite remove_char_twice.
Qed.

(** **** The exported frame *)

Lemma map_fmap {A B : Type} (f : A -> B) (l : list A) : map f l = f <$> l.
Proof. induction l as [|x l IH]; [done|]. cbn. by rewrite IH. Qed.

Lemma dict_get_is_Some {V : Type} (k : str) (d : list (str * V)) :
  is_Some (dict_get k d) <-> k ∈ d.*1.
Proof.
  induction d as [|[k' v] d IH]; cbn [dict_get fmap list_fmap fst].
  - rewrite elem_of_nil. split; [by intros [? ?]|done].
  - rewrite elem_of_cons. case_bool_decide as Hk.
    + split; [eauto|]. eauto.
    + rewrite IH. split; [eauto|]. intros [-> | ?]; [done|eauto].
Qed.

Lemma frame_columns_step (r : record) (c : str) :
  forall cols,
    c ∈ foldl (fun cols kv => if bool_decide (fst kv ∈ cols) then cols else cols ++ [fst kv])
          cols r
    <-> c ∈ cols ∨ c ∈ r.*1.
Proof.
  induction r as [|[k v] r IH]; intros cols; cbn [foldl fmap list_fmap fst].
  - rewrite elem_of_nil. tauto.
  - rewrite IH, elem_of_cons. case_bool_decide as Hk.
    + split; [tauto|]. intros [? | [-> | ?]]; eauto.
    + rewrite elem_of_app, list_elem_of_singleton. tauto.
Qed.

Lemma frame_columns_from (data : list record) (c : str) :
  forall cols,
    c ∈ foldl (fun cols r =>
                 foldl (fun cols kv =>
                          if bool_decide (fst kv ∈ cols) then cols else cols ++ [fst kv])
                       cols r)
          cols data
    <-> c ∈ cols ∨ ∃ r, r ∈ data ∧ c ∈ r.*1.
Proof.
  induction data as [|r data IH]; intros cols; cbn [foldl].
  - split; [eauto|]. intros [? | (r & Hr & _)]; [done|]. by apply elem_of_nil in Hr.
  - rewrite IH, frame_columns_step. split.
    + intros [[? | ?] | (r' & Hr' & Hc)]; [eauto|right|right].
      * exists r. split; [by left|done].
      * exists r'. split; [by right|done].
    + intros [? | (r' & Hr' & Hc)]; [eauto|].
      apply elem_of_cons in Hr' as [-> | Hr']; eauto.
Qed.

Lemma frame_columns_elem (data : list record) (c : str) :
  c ∈ frame_columns data <-> ∃ r, r ∈ data ∧ is_Some (dict_get c r).
Proof.
  unfold frame_columns. rewrite frame_columns_from, elem_of_nil.
  setoid_rewrite dict_get_is_Some. tauto.
Qed.

Lemma dict_get_frame_row (cols : list str) (r : record) (c : str) :
  c ∈ cols ->
  dict_get c (frame_row cols r)
  = Some (match dict_get c r with Some v => XStr v | None => XNaN end).
Proof.
  unfold frame_row. induction cols as [|c0 cols IH]; intros Hc.
  - by apply elem_of_nil in Hc.
  - cbn [map dict_get]. case_bool_decide as Hk; [by subst|].
    apply elem_of_cons in Hc as [-> | Hc]; [done|]. by apply IH.
Qed.

Lemma add_amount_column_rows (rows : list (list (str * xcell))) :
  Forall (fun row => ∃ v, dict_get amount_key row = Some (XStr v)) rows ->
  ∃ rows', add_amount_column rows = Return rows'
    ∧ Forall2 (fun row row' =>
                 ∃ v f, dict_get amount_key row = Some (XStr v)
                        ∧ clean_amount v = Return f
                        ∧ row' = dict_set amount_value_key (XFloat f) row) rows rows'.
Proof.
  induction 1 as [|row rows [v Hv] _ (rows' & Hrows' & IH)].
  - exists []. split; [done|constructor].
  - destruct (clean_amount_total v) as [f Hf].
    exists (dict_set amount_value_key (XFloat f) row :: rows'). split.
    + cbn [add_amount_column]. fold amount_key. rewrite Hv. cbn [clean_amount_cell].
      rewrite Hf. mstep. rewrite Hrows'. done.
    + constructor; [|done]. eauto.
Qed.

Lemma amount_key_fresh : amount_key ≠ date_key ∧ amount_key ≠ name_key.
Proof. split; intros H; vm_compute in H; discriminate H. Qed.

(** The records of one result have the same configured fields. *)
Lemma parse_fields (config : pyobj) (content : str) (data : list record) (r : record) :
  parse_markdown_content config content = Return data -> r ∈ data ->
  ∃ fields, field_names config = Return fields
    ∧ forall k, is_Some (dict_get k r)
                <-> (k = date_key ∨ is_Some (dict_get k r) ∧ k = name_key) ∨ k ∈ fields.
Proof.
  intros H Hr.
  destruct (parse_origin _ _ _ r H Hr) as (es & d & e & _ & _ & Hp).
  apply parse_entry_inv in Hp as (hn & fields & _ & Hf & Hx & _).
  exists fields.*1. split; [done|]. intros k.
  pose proof (extract_fields_keys e fields _ _ Hx k) as Hkeys. split.
  - intros Hk. pose proof Hk as Hk'. apply Hkeys in Hk as [Hk | Hk]; [|eauto].
    apply first_record_keys in Hk as [-> | ->]; eauto.
  - intros [[-> | [? _]] | Hk]; [|done|].
    + apply Hkeys. left. rewrite first_record_date. eauto.
    + apply Hkeys. by right.
Qed.

Lemma export_frame_rows (data : list record) :
  data ≠ [] ->
  export_frame data
  = if bool_decide (amount_key ∈ frame_columns data)
    then add_amount_column (frame_row (frame_columns data) <$> data)
    else Return (frame_row (frame_columns data) <$> data).
Proof. intros Hne. unfold export_frame. rewrite map_fmap. by destruct data. Qed.

(** X13, export after parse.  On the records of a result that is not
    empty, the head of [export_to_excel] raises nothing: the frame has one
    row per record, and the numeric amount of a row is [clean_amount] of
    the amount of its record. *)
Theorem X13_export_after_parse (config : pyobj) (content : str) (data : list record) :
  parse_markdown_content config content = Return data -> data ≠ [] ->
  ∃ rows, export_frame data = Return rows
    ∧ length rows = length data
    ∧ forall (i : nat) (r : record) (amount : str),
        data !! i = Some r -> dict_get amount_key r = Some amount ->
        ∃ row f, rows !! i = Some row
                 ∧ clean_amount amount = Return f
                 ∧ dict_get amount_value_key row = Some (XFloat f).
Proof.
  intros H Hne. rewrite export_frame_rows by done.
  case_bool_decide as Hcol.
  - assert (Forall (fun r => is_Some (dict_get amount_key r)) data) as Hall.
    { apply frame_columns_elem in Hcol as (r1 & Hr1 & Hk1).
      destruct (parse_fields _ _ _ r1 H Hr1) as (fields & Hf & Hkeys).
      destruct amount_key_fresh as [Hd Hn].
      assert (amount_key ∈ fields) as Hin.
      { destruct (proj1 (Hkeys _) Hk1) as [[? | [_ ?]] | ?]; done. }
      apply Forall_forall. intros r Hr.
      destruct (parse_fields _ _ _ r H Hr) as (fields' & Hf' & Hkeys').
      assert (fields' = fields) as -> by congruence. apply Hkeys'. by right. }
    destruct (add_amount_column_rows (frame_row (frame_columns data) <$> data))
      as (rows & Hrows & Hrel).
    { apply Forall_forall. intros row Hrow.
      apply list_elem_of_fmap in Hrow as (r & -> & Hr).
      rewrite dict_get_frame_row by done.
      destruct (proj1 (Forall_forall _ _) Hall r Hr) as [v Hv]. rewrite Hv. eauto. }
    exists rows. split; [done|]. split.
    + apply Forall2_length in Hrel. by rewrite <- Hrel, length_fmap.
    + intros i r amount Hr Hamount.
      assert ((frame_row (frame_columns data) <$> data) !! i
              = Some (frame_row (frame_columns data) r)) as Hrow.
      { by rewrite list_lookup_fmap, Hr. }
      destruct (Forall2_lookup_l _ _ _ _ _ Hrel Hrow) as (row & Hrow' & v & f & Hv & Hf & ->).
      eexists. exists f. split; [exact Hrow'|]. split; [|apply dict_get_set_eq].
      rewrite dict_get_frame_row, Hamount in Hv by done. by injection Hv as <-.
  - eexists. split; [reflexivity|]. split; [by rewrite length_fmap|].
    intros i r amount Hr Hamount. destruct Hcol.
    apply frame_columns_elem. exists r. split; [by eapply list_elem_of_lookup_2|eauto].
Qed.

(** **** The sections and the pieces cover the text *)

Lemma sections_concat (content : str) (hs : list (nat * str)) :
  forall e,
    hs = headings_from e (drop e content) ->
    concat (sections_of content hs).*2
    = match hs with
      | (p, _) :: _ => drop p content
      | [] => []
      end.
Proof.
  induction hs as [|[p d] tl IH]; intros e Hhs; [done|].
  symmetry in Hhs. apply headings_from_cons in Hhs as (k & -> & _ & Htl).
  rewrite drop_drop in Htl. replace (e + S k) with (S (e + k)) in Htl by lia.
  specialize (IH _ Htl). cbn [sections_of fmap list_fmap snd concat]. rewrite IH.
  unfold slice. destruct tl as [|[p2 d2] tl2].
  - rewrite app_nil_r. apply take_ge. rewrite length_drop. lia.
  - symmetry in Htl. apply headings_from_cons in Htl as (k2 & -> & _ & _).
    replace (drop (S (e + k) + k2) content)
      with (drop (S (e + k) + k2 - (e + k)) (drop (e + k) content)).
    + apply take_drop.
    + rewrite drop_drop. f_equal. lia.
Qed.

Lemma spec_sections_concat (content : str) :
  headings content ≠ [] -> concat (spec_sections content).*2 = content.
Proof.
  unfold spec_sections, headings. intros Hne.
  pose proof (sections_concat content (headings_from 0 content) 0 eq_refl) as Hc.
  destruct (headings_from 0 content) as [|[start d] rest]; [done|].
  rewrite fmap_app, concat_app, Hc.
  destruct (Nat.ltb_spec 0 start).
  - cbn [fmap list_fmap snd concat]. unfold slice. rewrite app_nil_r, drop_0, Nat.sub_0_r.
    apply take_drop.
  - replace start with 0 by lia. done.
Qed.

(** X14, the sections cover the text, under the default configuration.
    When the text has a date heading, the sections put end to end are the
    text; when it has none, there is no section and no record. *)
Theorem X14_sections_cover_text (content : str) :
  ∃ sections,
    date_sections load_default_config content = Return sections
    ∧ (headings content ≠ [] -> concat sections.*2 = content)
    ∧ (headings content = [] ->
       sections = []
       ∧ parse_markdown_content load_default_config content = Return []).
Proof.
  exists (spec_sections content). split; [apply date_sections_default|].
  split; [apply spec_sections_concat|].
  intros Hnone.
  assert (spec_sections content = []) as Hs by (unfold spec_sections; by rewrite Hnone).
  split; [done|].
  unfold parse_markdown_content. by rewrite date_sections_default, Hs.
Qed.

Lemma join_cons (sep p : str) (ps : list str) :
  ps ≠ [] -> join sep (p :: ps) = p ++ sep ++ join sep ps.
Proof. by destruct ps. Qed.

Lemma join_cons_head (sep : str) (c : N) (ps : list str) :
  ps ≠ [] -> join sep (cons_head c ps) = c :: join sep ps.
Proof. destruct ps as [|p [|q ps]]; done. Qed.

Lemma join_split_marker_from (s : str) :
  forall skip, join entry_marker (split_marker_from s skip) = drop skip s.
Proof.
  induction s as [|c s IH]; intros skip.
  - destruct skip; by cbn.
  - destruct skip as [|k]; cbn [split_marker_from].
    + destruct (starts_with entry_marker (c :: s)) eqn:Hm.
      * rewrite join_cons by apply split_marker_from_nonempty.
        rewrite IH. unfold starts_with in Hm. apply bool_decide_eq_true in Hm.
        replace (length entry_marker - 1) with 3 by (vm_compute; reflexivity).
        replace (length entry_marker) with 4 in Hm by (vm_compute; reflexivity).
        transitivity (take 4 (c :: s) ++ drop 4 (c :: s)); [|apply take_drop].
        by rewrite Hm.
      * rewrite join_cons_head by apply split_marker_from_nonempty.
        by rewrite IH.
    + by rewrite IH.
Qed.

(** X15, split and join.  The pieces [re.split] makes of a section at
    the entry marker, joined with the marker, are the section again; the
    entries are the pieces after the first, one per marker. *)
Theorem X15_split_join (section : str) :
  ∃ pieces,
    re_split entry_marker section = Return pieces
    ∧ join entry_marker pieces = section
    ∧ section_entries section = Return (tail pieces)
    ∧ length pieces = S (marker_count section).
Proof.
  exists (split_marker section). split; [apply re_split_marker|].
  split; [apply (join_split_marker_from section 0)|].
  split; [apply section_entries_spec|].
  unfold marker_count.
  pose proof (split_marker_from_nonempty section 0) as Hne. fold (split_marker section) in Hne.
  destruct (split_marker section); [done|]. cbn. lia.
Qed.

(** **** What the parser reads of the configuration *)

Section SameRules.

Variables c1 c2 : pyobj.
Hypothesis same_rules :
  getitem c1 (utf8 "parsing_rules") = getitem c2 (utf8 "parsing_rules").
Hypothesis same_validation :
  getitem c1 (utf8 "validation") = getitem c2 (utf8 "validation").

Lemma same_validate_record r : validate_record c1 r = validate_record c2 r.
Proof. unfold validate_record. by rewrite same_validation. Qed.

Lemma same_extract_name entry :
  extract_name_from_header c1 entry = extract_name_from_header c2 entry.
Proof. unfold extract_name_from_header. by rewrite same_rules. Qed.

Lemma same_parse_entry date entry : parse_entry c1 date entry = parse_entry c2 date entry.
Proof.
  unfold parse_entry. rewrite same_extract_name, same_rules.
  destruct (extract_name_from_header c2 entry) as [header_name| |]; [|done..].
  mstep. destruct (getitem c2 (utf8 "parsing_rules")) as [rules| |]; [|done..].
  destruct (getitem rules (utf8 "field_patterns")) as [fp| |]; [|done..].
  destruct (py_items fp) as [fields| |]; [|done..].
  destruct (extract_fields fields entry _) as [r| |]; [|done..].
  by rewrite same_validate_record.
Qed.

Lemma same_parse_entries date entries :
  parse_entries c1 date entries = parse_entries c2 date entries.
Proof.
  induction entries as [|entry entries IH]; [done|].
  cbn [parse_entries]. by rewrite IH, same_parse_entry.
Qed.

Lemma same_parse_sections sections : parse_sections c1 sections = parse_sections c2 sections.
Proof.
  induction sections as [|[[date|] section] sections IH]; [done| |]; cbn [parse_sections].
  - rewrite IH. destruct (section_entries section) as [entries| |]; [|done..].
    mstep. by rewrite same_parse_entries.
  - apply IH.
Qed.

Lemma same_date_sections content : date_sections c1 content = date_sections c2 content.
Proof. unfold date_sections. by rewrite same_rules. Qed.

Lemma same_parse_markdown_content content :
  parse_markdown_content c1 content = parse_markdown_content c2 content.
Proof.
  unfold parse_markdown_content. rewrite same_date_sections.
  destruct (date_sections c2 content) as [sections| |]; [|done..].
  apply same_parse_sections.
Qed.

End SameRules.

(** X16, what the parser reads.  Two configurations with the same
    parsing rules and the same validation rules give the same result of
    [parse_markdown_content], of [validate_record] and of
    [extract_name_from_header], whatever their other settings. *)
Theorem X16_parser_reads_two_sections (c1 c2 : pyobj) :
  getitem c1 (utf8 "parsing_rules") = getitem c2 (utf8 "parsing_rules") ->
  getitem c1 (utf8 "validation") = getitem c2 (utf8 "validation") ->
  (forall content, parse_markdown_content c1 content = parse_markdown_content c2 content)
  ∧ (forall r, validate_record c1 r = validate_record c2 r)
  ∧ (forall entry, extract_name_from_header c1 entry = extract_name_from_header c2 entry).
Proof.
  intros Hr Hv. split; [|split].
  - intros content. by apply same_parse_markdown_content.
  - intros r. by apply same_validate_record.
  - intros entry. by apply same_extract_name.
Qed.

(** **** The settings of the window *)







Section Window.
Variable safe_load : str -> outcome pyobj.




End Window.

(** **** The command line *)

Section CommandLine.
Variable fs : str -> option fs_node.
Variable safe_load : str -> outcome pyobj.




End CommandLine.

(** **** The amount of a record that was kept *)

Lemma validate_record_true (config : pyobj) (fields : list str) (av : bool) (r : record) :
  validation_of config fields av -> fields ≠ [] ->
  validate_record config r = Return true ->
  (forall f, f ∈ fields -> ¬ whitespace_only (field_value r f))
  ∧ (av = true -> field_value r amount_key ≠ [] ->
     ¬ Forall (fun c => is_digit c = false) (field_value r amount_key)).
Proof.
  intros (v & Hv & Hreq & Hav) Hne. unfold validate_record.
  rewrite Hv. mstep. rewrite Hreq, Hav.
  assert (truthy (PyList (PyStr <$> fields)) = true) as ->.
  { destruct fields; [done|reflexivity]. }
  cbn [negb py_iter truthy]. mstep.
  destruct (required_present_spec fields r) as (b & -> & Hb).
  destruct b; cbn [negb]; [|done]. intros H. split.
  - intros f Hf Hw. assert (true = false) as Habs; [|done]. apply Hb. eauto.
  - intros -> Hfull. fold amount_key in H. fold (field_value r amount_key) in H.
    rewrite bool_decide_eq_false_2 in H by done.
    rewrite re_search_amount in H. unfold search in H. mstep_in H.
    pose proof (search_amount false (field_value r amount_key) 0 None) as Hs.
    destruct (search_from false amount_regex 0 None _) as [m|]; [|done].
    intros HF. by apply Hs in HF.
Qed.

Lemma remove_char_digits (x : N) (s : str) :
  is_digit x = false ->
  Forall (fun c => is_digit c = false) (remove_char x s) ->
  Forall (fun c => is_digit c = false) s.
Proof.
  intros Hx. unfold remove_char. induction s as [|c s IH]; [done|].
  cbn [List.filter]. destruct (N.eqb_spec c x) as [-> | Hc]; cbn [negb].
  - intros H. constructor; [done|by apply IH].
  - intros [Hd H]%Forall_cons. constructor; [done|by apply IH].
Qed.

(** X19, the amount of a kept record.  When amount validation is on and
    交易金额 is a required field, every record of a result has an amount
    that holds a decimal number, and [clean_amount] of the amount is the
    float of its first decimal number. *)
Theorem X19_kept_amount_has_number (config : pyobj) (fields : list str)
    (content : str) (data : list record) (r : record) :
  validation_of config fields true -> amount_key ∈ fields ->
  parse_markdown_content config content = Return data -> r ∈ data ->
  ∃ amount t,
    dict_get amount_key r = Some amount
    ∧ first_decimal_number (remove_char (ch ",") amount) = Some t
    ∧ clean_amount amount = py_float t.
Proof.
  intros Hval Hin H Hr.
  destruct (parse_origin _ _ _ r H Hr) as (es & d & e & _ & _ & Hp).
  apply parse_entry_inv in Hp as (_ & _ & _ & _ & _ & Hok).
  assert (fields ≠ []) as Hne by (intros ->; by apply elem_of_nil in Hin).
  destruct (validate_record_true _ _ _ _ Hval Hne Hok) as [Hreq Hnum].
  specialize (Hreq _ Hin).
  assert (field_value r amount_key ≠ []) as Hfull.
  { intros Hnil. apply Hreq. rewrite Hnil. constructor. }
  specialize (Hnum eq_refl Hfull).
  unfold field_value in *. destruct (dict_get amount_key r) as [amount|] eqn:Ha; [|done].
  cbn [default] in *. exists amount.
  destruct (first_decimal_number (remove_char (ch ",") amount)) as [t|] eqn:Ht.
  - exists t. split; [done|]. split; [done|]. by rewrite clean_amount_spec, Ht.
  - destruct Hnum. apply first_decimal_number_None in Ht.
    by eapply (remove_char_digits (ch ",")).
Qed.

(** **** The date of a record *)

Lemma headings_from_date (s : str) :
  forall pos p d, (p, d) ∈ headings_from pos s -> is_date_text d = true.
Proof.
  induction s as [|c s IH]; intros pos p d Hin.
  - by rewrite headings_from_nil in Hin; apply elem_of_nil in Hin.
  - cbn [headings_from] in Hin. apply elem_of_app in Hin as [Hin | Hin]; [|by eapply IH].
    destruct (date_heading (c :: s)) as [d'|] eqn:Hd; [|by apply elem_of_nil in Hin].
    apply list_elem_of_singleton in Hin as [= -> ->].
    unfold date_heading in Hd.
    destruct (_ && is_date_text _) eqn:Hb; [|done].
    injection Hd as <-. by apply andb_prop in Hb as [_ ?].
Qed.

Lemma sections_of_date (content : str) (hs : list (nat * str)) (d section : str) :
  (Some d, section) ∈ sections_of content hs -> ∃ p, (p, d) ∈ hs.
Proof.
  induction hs as [|[p d'] tl IH]; cbn [sections_of]; intros Hin.
  - by apply elem_of_nil in Hin.
  - apply elem_of_cons in Hin as [[= -> _] | Hin].
    + exists p. by left.
    + destruct (IH Hin) as [p' Hp']. exists p'. by right.
Qed.

Lemma spec_raw_entries_date (content date entry : str) :
  (date, entry) ∈ spec_raw_entries content -> ∃ p, (p, date) ∈ headings content.
Proof.
  unfold spec_raw_entries, spec_raw_entries_of. intros Hin.
  apply list_elem_of_In, in_flat_map in Hin as ([[d|] section] & Hsec & He);
    cbn [fst snd] in He; [|done].
  apply list_elem_of_In, list_elem_of_fmap in He as (e & [= <- _] & _).
  apply list_elem_of_In in Hsec. unfold spec_sections in Hsec.
  destruct (headings content) as [|[start d0] rest] eqn:Hh; [by apply elem_of_nil in Hsec|].
  apply elem_of_app in Hsec as [Hsec | Hsec].
  - destruct (0 <? start); [|by apply elem_of_nil in Hsec].
    by apply list_elem_of_singleton in Hsec.
  - by eapply sections_of_date.
Qed.

Lemma default_field_names :
  field_names load_default_config
  = Return (utf8 <$> ["姓名"; "交易笔数"; "交易金额"; "交易日期"; "交易时间";
                      "交易流水号"; "支付方式"; "商户"; "备注"]%string).
Proof. vm_compute. reflexivity. Qed.

(** X20, the date of a record.  Under the default configuration every
    record of a result holds under 日期 the date of a date heading of the
    text, ten code points of the form dddd-dd-dd. *)
Theorem X20_record_date (content : str) (data : list record) (r : record) :
  parse_markdown_content load_default_config content = Return data -> r ∈ data ->
  ∃ p d, (p, d) ∈ headings content
         ∧ dict_get date_key r = Some d
         ∧ is_date_text d = true.
Proof.
  intros H Hr.
  destruct (parse_origin _ _ _ r H Hr) as (es & d & e & Hes & Hin & Hp).
  rewrite raw_entries_default in Hes. injection Hes as <-.
  apply spec_raw_entries_date in Hin as [p Hp'].
  exists p, d. split; [done|]. split; [|by eapply headings_from_date].
  apply parse_entry_inv in Hp as (hn & fields & _ & Hf & Hx & _).
  rewrite default_field_names in Hf. injection Hf as Hf.
  rewrite (extract_fields_other e date_key fields _ _ Hx), first_record_date; [done|].
  rewrite <- Hf. intros Hd.
  repeat (apply elem_of_cons in Hd as [Hd | Hd]; [vm_compute in Hd; discriminate Hd|]).
  by apply elem_of_nil in Hd.
Qed.

(** **** The value of a field *)

Lemma extract_fields_field (entry : str) :
  forall fields r0 r f pattern,
    NoDup fields.*1 -> (f, pattern) ∈ fields ->
    extract_fields fields entry r0 = Return r ->
    ∃ pat found,
      re_search pattern entry = Return (pat, found)
      ∧ match found with
        | Some m => ∃ g, group1_strip pat entry m = Return g
                         ∧ dict_get f r = Some (rstrip trailing_punctuation g)
        | None => dict_get f r = Some (default [] (dict_get f r0))
        end.
Proof.
  induction fields as [|[f0 p0] rest IH]; intros r0 r f pattern Hnd Hin H.
  { by apply elem_of_nil in Hin. }
  cbn [fmap list_fmap fst] in Hnd. apply NoDup_cons in Hnd as [Hf0 Hnd].
  cbn [extract_fields] in H. bind_inv H. destruct a as [pat found]. bind_inv H.
  apply elem_of_cons in Hin as [[= -> ->] | Hin].
  - exists pat, found. split; [done|].
    rewrite (extract_fields_other entry f0 rest _ _ H Hf0).
    destruct found as [m|].
    + apply bind_Return_inv in Ha0 as (g & Hg & Ha0). injection Ha0 as <-.
      exists g. split; [done|]. apply dict_get_set_eq.
    + destruct (_ && _) eqn:Hb; injection Ha0 as <-; rewrite dict_get_set_eq; [|done].
      apply andb_prop in Hb as [Hname%bool_decide_eq_true Hnil%bool_decide_eq_true].
      rewrite Hname. by rewrite Hnil.
  - destruct (IH _ _ _ _ Hnd Hin H) as (pat' & found' & Hs & Hres).
    exists pat', found'. split; [done|].
    destruct found' as [m|]; [done|]. rewrite Hres. do 2 f_equal.
    assert (f0 ≠ f) as Hne.
    { intros ->. apply Hf0. apply list_elem_of_fmap. by exists (f, pattern). }
    destruct found as [m|].
    + apply bind_Return_inv in Ha0 as (g & Hg & Ha0). injection Ha0 as <-.
      by rewrite dict_get_set_ne.
    + destruct (_ && _); injection Ha0 as <-; by rewrite dict_get_set_ne.
Qed.

(** X21, the value of a field.  For a field of the configuration, whose
    field names are distinct, a kept record holds under the field: group 1
    of the first match of its pattern in the entry, stripped and with the
    trailing marks removed, when the pattern matches; otherwise the value
    the record had before the loop over the fields, which is the date for
    日期, the header name for 姓名 and the empty text for any other
    field. *)
Theorem X21_field_value (config rules : pyobj) (fields : list (str * pyobj))
    (date entry f : str) (pattern : pyobj) (r : record) :
  getitem config (utf8 "parsing_rules") = Return rules ->
  getitem rules (utf8 "field_patterns") = Return (PyDict fields) ->
  NoDup fields.*1 -> (f, pattern) ∈ fields ->
  parse_entry config date entry = Return (Some r) ->
  ∃ header_name pat found,
    extract_name_from_header config entry = Return header_name
    ∧ re_search pattern entry = Return (pat, found)
    ∧ match found with
      | Some m => ∃ g, group1_strip pat entry m = Return g
                       ∧ dict_get f r = Some (rstrip trailing_punctuation g)
      | None => dict_get f r
                = Some (default [] (dict_get f (first_record date header_name)))
      end.
Proof.
  intros Hrules Hfp Hnd Hin H. unfold parse_entry in H.
  apply bind_Return_inv in H as (hn & Hhn & H).
  rewrite Hrules in H. mstep_in H. rewrite Hfp in H.
  cbn [py_items] in H. mstep_in H.
  apply bind_Return_inv in H as (r' & Hx & H).
  apply bind_Return_inv in H as (ok & Hok & H).
  destruct ok; [|done]. injection H as <-.
  destruct (extract_fields_field entry fields _ _ f pattern Hnd Hin Hx)
    as (pat & found & Hs & Hres).
  exists hn, pat, found. done.
Qed.

(** **** The properties on the sample document *)

Lemma X8_header_name_witness :
  1 <= length (utf8 "张三") <= 10
  ∧ Forall (fun c => name_forbidden c = false) (utf8 "张三")
  ∧ ends_clean (utf8 "张三")
  ∧ ∃ rules flag,
      getitem load_default_config (utf8 "parsing_rules") = Return rules
      ∧ py_get rules (utf8 "header_name_extraction") (PyBool true) = Return flag
      ∧ truthy flag = true.
Proof.
  apply (X8_header_name load_default_config sample_entry (utf8 "张三")).
  vm_compute. reflexivity.
Defined.

Lemma X9_records_valid_witness :
  ∃ data, parse_markdown_content load_default_config sample_document = Return data
          ∧ Forall (fun r => validate_record load_default_config r = Return true) data.
Proof.
  eexists. split; [vm_compute; reflexivity|].
  apply (X9_records_valid load_default_config sample_document).
  vm_compute. reflexivity.
Defined.

Lemma X10_records_keys_witness :
  ∃ data, parse_markdown_content load_default_config sample_document = Return data
    ∧ (data = []
       ∨ ∃ fields, field_names load_default_config = Return fields
           ∧ forall r, r ∈ data ->
               is_Some (dict_get date_key r)
               ∧ (forall f, f ∈ fields -> is_Some (dict_get f r))
               ∧ (forall k, is_Some (dict_get k r) ->
                            k = date_key ∨ k = name_key ∨ k ∈ fields)).
Proof.
  eexists. split; [vm_compute; reflexivity|].
  apply (X10_records_keys load_default_config sample_document).
  vm_compute. reflexivity.
Defined.

Lemma X11_values_clean_witness : ends_clean (utf8 "100.50元").
Proof.
  eapply (X11_values_clean load_default_config sample_document _ _ amount_key).
  - vm_compute. reflexivity.
  - left.
  - intros H. vm_compute in H. discriminate H.
  - vm_compute. reflexivity.
Defined.

Lemma X13_export_after_parse_witness :
  ∃ data,
    parse_markdown_content load_default_config sample_document = Return data
    ∧ ∃ rows,
        export_frame data = Return rows
        ∧ length rows = length data
        ∧ forall (i : nat) (r : record) (amount : str),
            data !! i = Some r -> dict_get amount_key r = Some amount ->
            ∃ row f, rows !! i = Some row
                     ∧ clean_amount amount = Return f
                     ∧ dict_get amount_value_key row = Some (XFloat f).
Proof.
  eexists. split; [vm_compute; reflexivity|].
  apply (X13_export_after_parse load_default_config sample_document).
  - vm_compute. reflexivity.
  - discriminate.
Defined.

Lemma X16_parser_reads_two_sections_witness :
  (forall content, parse_markdown_content load_default_config content
                   = parse_markdown_content sample_bare_config content)
  ∧ (forall r, validate_record load_default_config r = validate_record sample_bare_config r)
  ∧ (forall entry, extract_name_from_header load_default_config entry
                   = extract_name_from_header sample_bare_config entry).
Proof.
  apply (X16_parser_reads_two_sections load_default_config sample_bare_config).
  - vm_compute. reflexivity.
  - vm_compute. reflexivity.
Defined.



Lemma X19_kept_amount_has_number_witness :
  ∃ data r,
    parse_markdown_content load_default_config sample_document = Return data
    ∧ r ∈ data
    ∧ ∃ amount t,
        dict_get amount_key r = Some amount
        ∧ first_decimal_number (remove_char (ch ",") amount) = Some t
        ∧ clean_amount amount = py_float t.
Proof.
  eexists _, _. split; [vm_compute; reflexivity|]. split; [left|].
  eapply (X19_kept_amount_has_number load_default_config [name_key; amount_key]
            sample_document).
  - eexists. split; [vm_compute; reflexivity|]. split; vm_compute; reflexivity.
  - right. left.
  - vm_compute. reflexivity.
  - left.
Defined.

Lemma X20_record_date_witness :
  ∃ data r,
    parse_markdown_content load_default_config sample_document = Return data
    ∧ r ∈ data
    ∧ ∃ p d, (p, d) ∈ headings sample_document
             ∧ dict_get date_key r = Some d
             ∧ is_date_text d = true.
Proof.
  eexists _, _. split; [vm_compute; reflexivity|]. split; [left|].
  eapply (X20_record_date sample_document).
  - vm_compute. reflexivity.
  - left.
Defined.

Lemma X21_field_value_witness :
  ∃ r,
    parse_entry load_default_config (utf8 "2025-01-19") sample_entry = Return (Some r)
    ∧ ∃ header_name pat found,
        extract_name_from_header load_default_config sample_entry = Return header_name
        ∧ re_search (PyStr (utf8 "姓名[：:]\s*([^；;]+)")) sample_entry = Return (pat, found)
        ∧ match found with
          | Some m => ∃ g, group1_strip pat sample_entry m = Return g
                           ∧ dict_get name_key r = Some (rstrip trailing_punctuation g)
          | None => dict_get name_key r
                    = Some (default [] (dict_get name_key
                                          (first_record (utf8 "2025-01-19") header_name)))
          end.
Proof.
  eexists. split; [vm_compute; reflexivity|].
  eapply (X21_field_value load_default_config _ _ (utf8 "2025-01-19") sample_entry
            name_key (PyStr (utf8 "姓名[：:]\s*([^；;]+)"))).
  - vm_compute. reflexivity.
  - vm_compute. reflexivity.
  - vm_compute. repeat (apply NoDup_cons; split;
      [intros Hin; repeat (apply elem_of_cons in Hin as [Hin | Hin]; [discriminate Hin|]);
       by apply elem_of_nil in Hin|]).
    apply NoDup_nil_2.
  - vm_compute. left.
  - vm_compute. reflexivity.
Defined.

End ConverterRunProps.

(** * Properties of the extractor *)

Module ExtractorProps.
Import Re ReSpec ReProps Converter ConverterSpec ConverterProps SegmenterSpec SegmenterProps.
Import ConverterRun ConverterRunProps ExtractorSpec.

(** **** Whitespace *)

Lemma newline_is_space (x : N) : (x =? 10)%N = true -> is_space x = true.
Proof. intros ->%N.eqb_eq. reflexivity. Qed.

Lemma not_space_not_newline (x : N) : is_space x = false -> (x =? 10)%N = false.
Proof.
  intros Hx. destruct (x =? 10)%N eqn:H; [|done].
  apply newline_is_space in H. congruence.
Qed.

Lemma lstrip_by_fixed f (s : str) c t : s = c :: t -> f c = false -> lstrip_by f s = s.
Proof. intros -> Hc. cbn [lstrip_by]. by rewrite Hc. Qed.

Lemma rstrip_by_snoc f (s : str) c : f c = false -> rstrip_by f (s ++ [c]) = s ++ [c].
Proof.
  intros Hc. unfold rstrip_by. rewrite rev_unit. cbn [lstrip_by]. rewrite Hc.
  cbn [rev]. by rewrite rev_involutive.
Qed.

Lemma strip_no_space (s : str) : Forall (fun c => is_space c = false) s -> strip s = s.
Proof.
  intros Hs. unfold strip.
  assert (lstrip_by is_space s = s) as ->.
  { destruct Hs as [|c t Hc _]; [done|]. cbn [lstrip_by]. by rewrite Hc. }
  unfold rstrip_by. apply Forall_rev in Hs.
  rewrite <- (rev_involutive s) at 2.
  destruct (rev s) as [|x r]; [done|].
  apply Forall_cons in Hs as [Hx _]. cbn [lstrip_by]. by rewrite Hx.
Qed.

(** The head of a stripped text is not whitespace. *)
Lemma rstrip_by_head f (s : str) c t : rstrip_by f s = c :: t -> ∃ t', s = c :: t'.
Proof.
  unfold rstrip_by. induction s as [|x s IH] using rev_ind; [done|].
  rewrite rev_unit. cbn [lstrip_by]. destruct (f x) eqn:Hx.
  - intros H. destruct (IH H) as [t' ->]. eauto.
  - cbn [rev]. rewrite rev_involutive. destruct s; intros [= -> <-]; eauto.
Qed.

Lemma strip_head (s : str) c t : strip s = c :: t -> is_space c = false.
Proof.
  unfold strip. intros H. apply rstrip_by_head in H as [t' H].
  by apply lstrip_by_head in H.
Qed.

(** **** The lazy repeat of [.] in front of whitespace or the end *)

Section LazyWord.
Variable k : mstate -> option mstate.
Hypothesis k_word : forall st x r, m_rest st = x :: r -> is_space x = false -> k st = None.
Hypothesis k_space : forall st x r, m_rest st = x :: r -> is_space x = true -> k st ≠ None.
Hypothesis k_end : forall st, m_rest st = [] -> k st ≠ None.

Lemma lazy_word (rest : str) :
  forall fuel count pos prev g,
    1 <= count -> length rest < fuel ->
    repeat_loop (rmatch false RAny) 1 None false k fuel count
      {| m_pos := pos; m_prev := prev; m_rest := rest; m_groups := g |}
    = k (run_state (fun x => negb (is_space x)) pos prev rest g).
Proof.
  induction rest as [|x rest IH]; intros fuel count pos prev g Hcount Hfuel.
  - destruct fuel as [|fuel]; [simpl in Hfuel; lia|].
    cbn [repeat_loop run_state]. rewrite (proj2 (Nat.ltb_ge count 1) Hcount).
    destruct (k _) eqn:Hk; [done|]. by apply k_end in Hk.
  - destruct fuel as [|fuel]; [simpl in Hfuel; lia|].
    cbn [repeat_loop run_state]. rewrite (proj2 (Nat.ltb_ge count 1) Hcount).
    destruct (is_space x) eqn:Hx; cbn [negb].
    + destruct (k _) eqn:Hk; [done|]. by eapply k_space in Hk.
    + rewrite (k_word {| m_pos := pos; m_prev := prev; m_rest := x :: rest; m_groups := g |}
                 x rest eq_refl Hx). cbn [below_max rmatch m_rest].
      rewrite (not_space_not_newline x Hx).
      unfold advance. cbn [m_pos m_prev m_rest m_groups].
      rewrite (proj2 (Nat.leb_gt (S pos) pos)) by lia.
      apply IH; [lia|simpl in Hfuel; lia].
Qed.

(** The same from the start of the repeat, on a text that starts with a
    word. *)
Lemma lazy_plus_word (c : N) (t : str) pos prev g :
  is_space c = false ->
  repeat_loop (rmatch false RAny) 1 None false k (S (1 + length (c :: t))) 0
    {| m_pos := pos; m_prev := prev; m_rest := c :: t; m_groups := g |}
  = k (run_state (fun x => negb (is_space x)) (S pos) (Some c) t g).
Proof.
  intros Hc. remember (1 + length (c :: t)) as fuel eqn:Hfuel.
  cbn [repeat_loop Nat.ltb Nat.leb rmatch m_rest].
  rewrite (not_space_not_newline c Hc).
  unfold advance. cbn [m_pos m_prev m_rest m_groups].
  apply lazy_word; [lia|]. subst fuel. cbn [length]. lia.
Qed.

End LazyWord.

(** **** The three patterns of the header on a line *)

Lemma space_set (x : N) : set_matches false [ISpace] x = is_space x.
Proof. unfold set_matches. cbn [existsb item_matches xorb]. by rewrite orb_false_r. Qed.

Lemma attempt_header_word (c : N) (t : str) :
  is_space c = false ->
  ∃ e, attempt false header_word_regex false 0 None (c :: t)
       = Some {| m_start := 0; m_end := e;
                 m_spans := [(1, (0, length (first_word (c :: t))))] |}.
Proof.
  intros Hc. unfold attempt, header_word_regex.
  cbn [rmatch at_bol m_prev m_rest].
  match goal with
  | |- context [repeat_loop _ 1 None false ?k _ 0 _] => set (K := k)
  end.
  rewrite (lazy_plus_word K).
  - rewrite run_state_eq. unfold K, close_group. cbn [m_pos m_prev m_rest m_groups].
    set (word := prefix_by _ t).
    destruct (drop (length word) t) as [|x r] eqn:Hrest.
    + cbn [at_eol m_rest andb Nat.eqb]. eexists. reflexivity.
    + rewrite space_set. destruct (is_space x) eqn:Hx.
      * cbn [andb]. eexists. reflexivity.
      * pose proof (prefix_by_maximal (fun x => negb (is_space x)) t) as Hmax.
        fold word in Hmax. rewrite Hrest in Hmax. cbn [prefix_by] in Hmax.
        rewrite Hx in Hmax. done.
  - intros [p0 pv rs gs] x r Hst Hx. cbn [m_rest] in Hst. subst rs.
    unfold K, close_group. cbn [rmatch m_rest m_pos m_prev m_groups at_eol].
    by rewrite space_set, Hx, (not_space_not_newline x Hx).
  - intros [p0 pv rs gs] x r Hst Hx. cbn [m_rest] in Hst. subst rs.
    unfold K, close_group. cbn [rmatch m_rest m_pos m_prev m_groups at_eol].
    by rewrite space_set, Hx.
  - intros [p0 pv rs gs] Hst. cbn [m_rest] in Hst. subst rs.
    unfold K, close_group. by cbn [rmatch m_rest m_pos m_prev m_groups at_eol].
  - done.
Qed.

Lemma search_anchored_later (r : regex) (rest : str) :
  forall pos c, search_from false (RSeq RBol r) pos (Some c) rest = None.
Proof.
  induction rest as [|x rest IH]; intros pos c; cbn [search_from]; unfold attempt;
    cbn [rmatch at_bol m_prev andb]; [done|apply IH].
Qed.

Lemma search_anchored_lit (x : N) (r : regex) (c : N) (t : str) :
  c ≠ x -> search false (RSeq RBol (RSeq (RLit x) r)) (c :: t) = None.
Proof.
  intros Hc. unfold search. cbn [search_from]. unfold attempt.
  cbn [rmatch at_bol m_prev m_rest]. rewrite (proj2 (N.eqb_neq c x) Hc).
  apply search_anchored_later.
Qed.

Lemma search_header_word (c : N) (t : str) :
  is_space c = false ->
  ∃ e, search false header_word_regex (c :: t)
       = Some {| m_start := 0; m_end := e;
                 m_spans := [(1, (0, length (first_word (c :: t))))] |}.
Proof.
  intros Hc. destruct (attempt_header_word c t Hc) as [e He]. exists e.
  unfold search. cbn [search_from]. by rewrite He.
Qed.

Lemma search_set_all ml negate items (s : str) :
  Forall (fun c => set_matches negate items c = false) s ->
  forall pos prev, search_from ml (RSeq (RSet negate items) REmpty) pos prev s = None.
Proof.
  induction 1 as [|c s Hc _ IH]; intros pos prev; cbn [search_from]; unfold attempt;
    cbn [rmatch m_rest]; [done|]. rewrite Hc. apply IH.
Qed.

Lemma name_check_search (name : str) :
  match search false name_check_regex name with
  | None => true
  | Some _ => false
  end = forallb (fun c => negb (name_forbidden c)) name.
Proof.
  unfold search, name_check_regex. destruct (forallb _ name) eqn:Hall.
  - rewrite (search_set_all false false _ name); [done|].
    apply Forall_forall. intros c Hc.
    apply list_elem_of_In in Hc.
    apply (proj1 (forallb_forall _ _) Hall), negb_true_iff in Hc.
    by rewrite name_forbidden_set.
  - destruct (search_from false _ 0 None name) eqn:Hs; [done|].
    apply search_set_None in Hs.
    assert (forallb (fun c => negb (name_forbidden c)) name = true) as Habs; [|congruence].
    apply forallb_forall. intros c Hc%list_elem_of_In. apply negb_true_iff.
    rewrite <- name_forbidden_set. by apply (proj1 (Forall_forall _ _) Hs).
Qed.

Lemma first_word_no_space (c : N) (t : str) :
  is_space c = false -> Forall (fun x => is_space x = false) (first_word (c :: t)).
Proof.
  intros Hc. cbn [first_word]. constructor; [done|].
  eapply Forall_impl; [apply prefix_by_Forall|]. cbn. intros x Hx. by apply negb_true_iff.
Qed.

Lemma first_word_prefix (line : str) : take (length (first_word line)) line = first_word line.
Proof.
  destruct line as [|c t]; [done|]. cbn [first_word length take]. f_equal.
  apply prefix_by_is_prefix.
Qed.

Lemma default_header_rules :
  ∃ rules,
    getitem load_default_config (utf8 "parsing_rules") = Return rules
    ∧ py_get rules (utf8 "header_name_extraction") (PyBool true) = Return (PyBool true)
    ∧ py_get rules (utf8 "header_name_patterns") default_header_name_patterns
      = Return default_header_name_patterns.
Proof.
  eexists. split; [vm_compute; reflexivity|]. split; vm_compute; reflexivity.
Qed.

(** The three default patterns, tried on a line that starts with a word
    which is not a label. *)
Lemma try_default_patterns (c : N) (t : str) :
  is_space c = false -> [c] ≠ utf8 "客" -> [c] ≠ utf8 "姓" ->
  ∃ patterns,
    py_iter default_header_name_patterns = Return patterns
    ∧ try_header_patterns patterns (c :: t)
      = Return (let name := rstrip trailing_punctuation (first_word (c :: t)) in
                if name_accepted name then Some name else None).
Proof.
  intros Hc H1 H2. eexists. split; [reflexivity|].
  assert (c ≠ 23458%N) as Hc1 by (intros ->; by apply H1).
  assert (c ≠ 22995%N) as Hc2 by (intros ->; by apply H2).
  cbn [try_header_patterns]. unfold re_search, re_compile.
  replace (compile (utf8 "^客户姓名[：:]\s*(.+?)(?:\s|$)"))
    with (POk {| p_regex :=
                   RSeq RBol (RSeq (RLit 23458)
                     (RSeq (RLit 25143) (RSeq (RLit 22995) (RSeq (RLit 21517)
                       (RSeq (RSet false [IChar 65306; IChar 58])
                          (RSeq (RRepeat 0 None true (RSet false [ISpace]))
                             (RSeq (RGroup 1 (RSeq (RRepeat 1 None false RAny) REmpty))
                                (RSeq (RAlt (RSeq (RSet false [ISpace]) REmpty)
                                         (RSeq REol REmpty)) REmpty))))))));
                 p_groups := 1 |})
    by (vm_compute; reflexivity).
  replace (compile (utf8 "^姓名[：:]\s*(.+?)(?:\s|$)"))
    with (POk {| p_regex :=
                   RSeq RBol (RSeq (RLit 22995) (RSeq (RLit 21517)
                     (RSeq (RSet false [IChar 65306; IChar 58])
                        (RSeq (RRepeat 0 None true (RSet false [ISpace]))
                           (RSeq (RGroup 1 (RSeq (RRepeat 1 None false RAny) REmpty))
                              (RSeq (RAlt (RSeq (RSet false [ISpace]) REmpty)
                                       (RSeq REol REmpty)) REmpty))))));
                 p_groups := 1 |})
    by (vm_compute; reflexivity).
  replace (compile (utf8 "^(.+?)(?:\s|$)"))
    with (POk {| p_regex := header_word_regex; p_groups := 1 |})
    by (vm_compute; reflexivity).
  mstep. cbn [p_regex].
  rewrite !search_anchored_lit by done.
  destruct (search_header_word c t Hc) as [e ->].
  unfold group1_strip, match_group1, group_text, group_span.
  cbn [p_groups Nat.ltb Nat.leb m_spans List.find fst snd Nat.eqb fmap option_fmap option_map].
  mstep. unfold slice. rewrite Nat.sub_0_r, drop_0, first_word_prefix.
  rewrite (strip_no_space _ (first_word_no_space c t Hc)).
  set (name := rstrip trailing_punctuation (first_word (c :: t))).
  cbv zeta. unfold name_accepted.
  replace (compile (utf8 "[\d\(\)\[\]/\\\-_=+]"))
    with (POk {| p_regex := name_check_regex; p_groups := 0 |})
    by (vm_compute; reflexivity).
  cbn [p_regex]. rewrite <- name_check_search.
  change (match length name with 0 => false | S _ => true end) with (1 <=? length name).
  by destruct (1 <=? length name), (length name <=? 10),
       (search false name_check_regex name).
Qed.

(** X22, the first word of the header.  Under the default configuration,
    for an entry whose first line, stripped, starts with a code point other
    than 客 and 姓, [extract_name_from_header] takes the first word of that
    line, up to its first whitespace, removes the trailing marks, and
    returns the word when it has 1 to 10 code points and none of the code
    points the check refuses; otherwise it returns [None]. *)
Theorem X22_header_first_word (entry : str) (c : N) (t : str) :
  first_line entry = c :: t -> [c] ≠ utf8 "客" -> [c] ≠ utf8 "姓" ->
  extract_name_from_header load_default_config entry
  = Return (let name := rstrip trailing_punctuation (first_word (c :: t)) in
            if name_accepted name then Some name else None).
Proof.
  intros Hline H1 H2. unfold extract_name_from_header.
  destruct default_header_rules as (rules & -> & Hflag & Hpatterns). mstep.
  rewrite Hflag, Hpatterns. cbn [truthy negb].
  unfold first_line in Hline.
  destruct (split_char 10 (strip entry)) as [|line lines]; [done|].
  cbn [hd] in Hline. rewrite Hline.
  destruct (try_default_patterns c t) as (patterns & -> & ->); [|done..].
  by eapply strip_head.
Qed.

(** **** The pattern of a plain field *)

Lemma plain_pattern_compile (label : str) :
  label ∈ plain_fields ->
  compile (plain_pattern label) = POk {| p_regex := field_regex label; p_groups := 1 |}.
Proof.
  intros Hin. unfold plain_fields in Hin. cbn [fmap list_fmap] in Hin.
  repeat (apply elem_of_cons in Hin as [-> | Hin]; [vm_compute; reflexivity|]).
  by apply elem_of_nil in Hin.
Qed.

Lemma plain_pattern_default (label : str) :
  label ∈ plain_fields ->
  ∃ rules fields,
    getitem load_default_config (utf8 "parsing_rules") = Return rules
    ∧ getitem rules (utf8 "field_patterns") = Return (PyDict fields)
    ∧ NoDup fields.*1
    ∧ (label, PyStr (plain_pattern label)) ∈ fields.
Proof.
  intros Hin. eexists _, _. split; [vm_compute; reflexivity|].
  split; [vm_compute; reflexivity|]. split.
  - cbn [fmap list_fmap fst].
    repeat (apply NoDup_cons; split;
      [intros H; repeat (apply elem_of_cons in H as [H | H]; [discriminate H|]);
       by apply elem_of_nil in H|]).
    apply NoDup_nil_2.
  - unfold plain_fields in Hin. cbn [fmap list_fmap] in Hin.
    repeat (apply elem_of_cons in Hin as [-> | Hin];
            [apply list_elem_of_In; vm_compute; tauto|]).
    by apply elem_of_nil in Hin.
Qed.

(** **** The value after a label *)

Lemma colon_set (c : N) : set_matches false [IChar 65306; IChar 58] c = is_colon c.
Proof. unfold set_matches, is_colon. cbn [existsb item_matches xorb]. by rewrite orb_false_r. Qed.

Lemma not_semicolon_set (c : N) :
  set_matches true [IChar 65307; IChar 59] c = negb (is_semicolon c).
Proof.
  unfold set_matches, is_semicolon. cbn [existsb item_matches]. by rewrite orb_false_r.
Qed.

Lemma drop_prefix_by p (s : str) : drop (length (prefix_by p s)) s = lstrip_by p s.
Proof.
  induction s as [|c s IH]; [done|]. cbn [prefix_by lstrip_by].
  destruct (p c); [exact IH|done].
Qed.

(** The literals of a label match the label and nothing else. *)
Lemma literals_match ml (label : str) (r : regex) :
  forall st k,
    rmatch ml (literals label r) st k
    = if bool_decide (take (length label) (m_rest st) = label)
      then rmatch ml r {| m_pos := m_pos st + length label;
                          m_prev := match last label with
                                    | Some c => Some c
                                    | None => m_prev st
                                    end;
                          m_rest := drop (length label) (m_rest st);
                          m_groups := m_groups st |} k
      else None.
Proof.
  induction label as [|c label IH]; intros st k.
  - cbn [literals length take drop last]. rewrite bool_decide_eq_true_2 by done.
    rewrite Nat.add_0_r. by destruct st.
  - cbn [literals rmatch]. destruct (m_rest st) as [|x rest] eqn:Hrest.
    { by rewrite bool_decide_eq_false_2. }
    destruct (x =? c)%N eqn:Hx.
    + apply N.eqb_eq in Hx as ->. rewrite IH. unfold advance.
      cbn [m_pos m_prev m_rest m_groups length take drop].
      destruct (decide (take (length label) rest = label)) as [Hl | Hl].
      * rewrite !bool_decide_eq_true_2 by congruence. f_equal. f_equal; [lia|].
        destruct label as [|c' label']; [done|]. cbn [last].
        destruct (last (c' :: label')) eqn:Hlast; [done|].
        by apply last_None in Hlast.
      * rewrite (bool_decide_eq_false_2 _ Hl).
        rewrite bool_decide_eq_false_2; [done|congruence].
    + apply N.eqb_neq in Hx. rewrite bool_decide_eq_false_2; [done|].
      cbn [length take]. congruence.
Qed.

(** Where the text does not start with the label and a colon, the
    pattern of the field does not match. *)
Lemma attempt_field_None (label : str) pos prev (rest : str) :
  label_at label rest = false ->
  attempt false (field_regex label) false pos prev rest = None.
Proof.
  intros H. unfold attempt, field_regex. rewrite literals_match. cbn [m_rest].
  unfold label_at in H. destruct (bool_decide _); [|done]. cbn [andb] in H.
  unfold value_regex. cbn [rmatch m_rest].
  destruct (drop (length label) rest) as [|c u]; [done|].
  by rewrite colon_set, H.
Qed.

Section GreedyRun.

Variable body : mstate -> (mstate -> option mstate) -> option mstate.
Variable p : N -> bool.
Hypothesis body_spec : forall st k,
  body st k = match m_rest st with
              | c :: rest => if p c then k (advance c rest st) else None
              | [] => None
              end.

(** A greedy unbounded repeat keeps the longest run when what follows
    it matches there. *)
Lemma greedy_run_kept lo (k : mstate -> option mstate) (rest : str) :
  forall fuel count pos prev g,
    lo <= count -> length rest < fuel ->
    k (run_state p pos prev rest g) ≠ None ->
    repeat_loop body lo None true k fuel count
      {| m_pos := pos; m_prev := prev; m_rest := rest; m_groups := g |}
    = k (run_state p pos prev rest g).
Proof.
  induction rest as [|c rest IH]; intros fuel count pos prev g Hlo Hfuel Hk.
  - destruct fuel as [|fuel]; [simpl in Hfuel; lia|].
    cbn [repeat_loop]. rewrite (proj2 (Nat.ltb_ge count lo) Hlo).
    cbn [below_max]. rewrite body_spec. done.
  - destruct fuel as [|fuel]; [simpl in Hfuel; lia|].
    cbn [repeat_loop]. rewrite (proj2 (Nat.ltb_ge count lo) Hlo).
    cbn [below_max]. rewrite body_spec. cbn [m_rest run_state] in Hk |- *.
    destruct (p c); [|done].
    unfold advance. cbn [m_pos m_prev m_rest m_groups].
    rewrite (proj2 (Nat.leb_gt (S pos) pos)) by lia.
    rewrite IH; [|lia|simpl in Hfuel; lia|done].
    by destruct (k _).
Qed.

End GreedyRun.

Lemma space_body ml st k :
  rmatch ml (RSet false [ISpace]) st k
  = match m_rest st with
    | c :: rest => if is_space c then k (advance c rest st) else None
    | [] => None
    end.
Proof. cbn [rmatch]. destruct (m_rest st); [done|]. by rewrite space_set. Qed.

Lemma not_semicolon_body ml st k :
  rmatch ml (RSet true [IChar 65307; IChar 59]) st k
  = match m_rest st with
    | c :: rest => if negb (is_semicolon c) then k (advance c rest st) else None
    | [] => None
    end.
Proof. cbn [rmatch]. destruct (m_rest st); [done|]. by rewrite not_semicolon_set. Qed.

Lemma rmatch_seq ml a b st k :
  rmatch ml (RSeq a b) st k = rmatch ml a st (fun st1 => rmatch ml b st1 k).
Proof. reflexivity. Qed.

Lemma rmatch_repeat ml lo hi greedy r st k :
  rmatch ml (RRepeat lo hi greedy r) st k
  = repeat_loop (rmatch ml r) lo hi greedy k (S (lo + length (m_rest st))) 0 st.
Proof. reflexivity. Qed.

Lemma colon_body ml st k :
  rmatch ml (RSet false [IChar 65306; IChar 58]) st k
  = match m_rest st with
    | c :: rest => if is_colon c then k (advance c rest st) else None
    | [] => None
    end.
Proof. cbn [rmatch]. destruct (m_rest st); [done|]. by rewrite colon_set. Qed.

(** Where the text starts with the label, a colon and a value, the
    pattern matches and its group is the value. *)
Lemma attempt_field_Some (label : str) pos prev (colon : N) (u : str) :
  is_colon colon = true -> labelled_value u ≠ [] ->
  let start := pos + length label + 1 + length (prefix_by is_space u) in
  let stop := start + length (labelled_value u) in
  attempt false (field_regex label) false pos prev (label ++ colon :: u)
  = Some {| m_start := pos; m_end := stop; m_spans := [(1, (start, stop))] |}.
Proof.
  intros Hcolon Hvalue start stop.
  unfold attempt, field_regex. rewrite literals_match. cbn [m_rest m_pos m_prev m_groups].
  rewrite take_app_length, bool_decide_eq_true_2, drop_app_length by done.
  unfold value_regex. rewrite rmatch_seq, colon_body. cbn [m_rest].
  rewrite Hcolon. unfold advance. cbn [m_pos m_prev m_rest m_groups].
  rewrite rmatch_seq, rmatch_repeat. cbn [m_rest].
  set (K := fun st1 : mstate => rmatch false _ st1 _).
  assert (K (run_state is_space (S (pos + length label)) (Some colon) u [])
          = Some {| m_pos := stop;
                    m_prev := run_prev (fun x => negb (is_semicolon x))
                                (run_prev is_space (Some colon) u) (lstrip_by is_space u);
                    m_rest := drop (length (labelled_value u)) (lstrip_by is_space u);
                    m_groups := [(1, (start, stop))] |}) as HK.
  { unfold K. rewrite run_state_eq, drop_prefix_by.
    cbn [rmatch m_rest m_pos].
    rewrite (greedy_plus_total _ _ (not_semicolon_body false)).
    2:{ intros st. by cbn [andb]. }
    unfold labelled_value in Hvalue |- *.
    destruct (lstrip_by is_space u) as [|c v] eqn:Hv; [done|].
    cbn [prefix_by] in Hvalue |- *.
    destruct (is_semicolon c) eqn:Hc; cbn [negb] in Hvalue |- *; [done|].
    rewrite run_state_eq. unfold close_group. cbn [m_pos m_prev m_rest m_groups andb].
    unfold stop, start, labelled_value. rewrite Hv. cbn [prefix_by length drop run_prev].
    rewrite Hc. cbn [negb length].
    f_equal. f_equal; [lia|]. f_equal. f_equal. f_equal; lia. }
  rewrite (greedy_run_kept _ _ (space_body false)); [|lia|lia|by rewrite HK].
  rewrite HK. done.
Qed.

(** The search passes over the positions where the label and a colon do
    not start. *)
Lemma search_field_skip (label : str) (rest : str) :
  forall (pre : str) pos prev,
    (forall k, k < length pre -> label_at label (drop k (pre ++ rest)) = false) ->
    ∃ prev', search_from false (field_regex label) pos prev (pre ++ rest)
             = search_from false (field_regex label) (pos + length pre) prev' rest.
Proof.
  induction pre as [|c pre IH]; intros pos prev H.
  - exists prev. cbn [app length]. by rewrite Nat.add_0_r.
  - cbn [app search_from].
    assert (label_at label (c :: pre ++ rest) = false) as H0.
    { apply (H 0). simpl. lia. }
    rewrite (attempt_field_None label pos prev _ H0).
    destruct (IH (S pos) (Some c)) as [prev' IH'].
    { intros k Hk. apply (H (S k)). simpl. lia. }
    exists prev'. rewrite IH'. cbn [length]. f_equal. lia.
Qed.

Lemma search_from_hit ml r pos prev (rest : str) m :
  attempt ml r false pos prev rest = Some m -> search_from ml r pos prev rest = Some m.
Proof. intros H. destruct rest; cbn [search_from]; by rewrite H. Qed.

Lemma search_field (label pre : str) (colon : N) (u : str) :
  is_colon colon = true -> labelled_value u ≠ [] ->
  (forall k, k < length pre -> label_at label (drop k (pre ++ label ++ colon :: u)) = false) ->
  ∃ m, search false (field_regex label) (pre ++ label ++ colon :: u) = Some m
       ∧ group_text (pre ++ label ++ colon :: u) m 1 = Some (labelled_value u).
Proof.
  intros Hcolon Hvalue Hfirst. unfold search.
  destruct (search_field_skip label _ pre 0 None Hfirst) as [prev' ->].
  rewrite (search_from_hit _ _ _ _ _ _
             (attempt_field_Some label _ prev' colon u Hcolon Hvalue)).
  eexists. split; [done|].
  unfold group_text, group_span. cbn [m_spans List.find fst snd Nat.eqb fmap option_fmap option_map].
  f_equal. unfold slice.
  replace (_ + length (labelled_value u) - _) with (length (labelled_value u)) by lia.
  replace (0 + length pre + length label + 1 + length (prefix_by is_space u))
    with (length pre + (length label + (1 + length (prefix_by is_space u)))) by lia.
  rewrite drop_app_add, drop_app_add. cbn [Nat.add drop].
  rewrite drop_prefix_by. apply prefix_by_is_prefix.
Qed.

(** X23, the value after a label.  Under the default configuration, for
    a field other than 交易流水号: when the entry holds the label and a
    colon, at the first such place, and after the whitespace that follows
    the colon comes a code point that is not a semicolon, a kept record
    holds under the field the text from there to the next semicolon or to
    the end, stripped and with the trailing marks removed. *)
Theorem X23_labelled_value (date entry pre label u : str) (colon : N) (r : record) :
  label ∈ plain_fields ->
  entry = pre ++ label ++ colon :: u -> is_colon colon = true ->
  (forall k, k < length pre -> label_at label (drop k entry) = false) ->
  labelled_value u ≠ [] ->
  parse_entry load_default_config date entry = Return (Some r) ->
  dict_get label r = Some (rstrip trailing_punctuation (strip (labelled_value u))).
Proof.
  intros Hlabel -> Hcolon Hfirst Hvalue H.
  destruct (plain_pattern_default label Hlabel) as (rules & fields & Hrules & Hfp & Hnd & Hin).
  unfold parse_entry in H.
  apply bind_Return_inv in H as (hn & Hhn & H).
  rewrite Hrules in H. mstep_in H. rewrite Hfp in H.
  cbn [py_items] in H. mstep_in H.
  apply bind_Return_inv in H as (r' & Hx & H).
  apply bind_Return_inv in H as (ok & Hok & H).
  destruct ok; [|done]. injection H as <-.
  destruct (extract_fields_field _ fields _ _ label _ Hnd Hin Hx)
    as (pat & found & Hs & Hres).
  unfold re_search, re_compile in Hs. rewrite (plain_pattern_compile label Hlabel) in Hs.
  mstep_in Hs. injection Hs as <- <-. cbn [p_regex] in Hres.
  destruct (search_field label pre colon u Hcolon Hvalue Hfirst) as (m & Hm & Hg).
  rewrite Hm in Hres. destruct Hres as (g & Hg1 & ->).
  unfold group1_strip, match_group1 in Hg1. cbn [p_groups Nat.ltb Nat.leb] in Hg1.
  mstep_in Hg1. rewrite Hg in Hg1. by injection Hg1 as <-.
Qed.

(** **** The two properties on the sample entry *)

Lemma X22_header_first_word_witness :
  first_line sample_entry = utf8 "张三"
  ∧ extract_name_from_header load_default_config sample_entry
    = Return (let name := rstrip trailing_punctuation (first_word (utf8 "张三")) in
              if name_accepted name then Some name else None).
Proof.
  split; [vm_compute; reflexivity|].
  apply (X22_header_first_word sample_entry 24352%N [19977%N]).
  - vm_compute. reflexivity.
  - intros H. vm_compute in H. discriminate H.
  - intros H. vm_compute in H. discriminate H.
Defined.

Lemma X23_labelled_value_witness :
  ∃ r,
    parse_entry load_default_config (utf8 "2025-01-19") sample_entry = Return (Some r)
    ∧ dict_get amount_key r
      = Some (rstrip trailing_punctuation (strip (labelled_value (utf8 "100.50元；
")))).
Proof.
  eexists. split; [vm_compute; reflexivity|].
  apply (X23_labelled_value (utf8 "2025-01-19") sample_entry (utf8 "张三
") amount_key (utf8 "100.50元；
") 65306%N).
  - apply list_elem_of_In. vm_compute. tauto.
  - vm_compute. reflexivity.
  - vm_compute. reflexivity.
  - intros k Hk. change (length (utf8 "张三
")) with 3 in Hk.
    destruct k as [|[|[|k]]]; [vm_compute; reflexivity..|lia].
  - intros H. vm_compute in H. discriminate H.
  - vm_compute. reflexivity.
Defined.

(** **** Group 1 of a field pattern *)

(** What a match returns comes from the rest of the pattern. *)
Lemma repeat_loop_via (body : mstate -> (mstate -> option mstate) -> option mstate)
    lo hi greedy (k : mstate -> option mstate) :
  (forall st k' res, body st k' = Some res -> ∃ st', k' st' = Some res) ->
  forall fuel count st res,
    repeat_loop body lo hi greedy k fuel count st = Some res -> ∃ st', k st' = Some res.
Proof.
  intros Hbody. induction fuel as [|fuel IH]; intros count st res H; [done|].
  cbn [repeat_loop] in H. destruct (count <? lo).
  { apply Hbody in H as [st1 H]. by eapply IH. }
  assert (forall res',
            (if below_max hi count
             then body st (fun st1 => if m_pos st1 <=? m_pos st then None
                                      else repeat_loop body lo hi greedy k fuel (S count) st1)
             else None) = Some res' -> ∃ st', k st' = Some res') as Hmore.
  { intros res' H'. destruct (below_max hi count); [|done].
    apply Hbody in H' as [st1 H']. destruct (m_pos st1 <=? m_pos st); [done|].
    by eapply IH. }
  destruct greedy.
  - destruct (if below_max hi count then _ else _) as [res'|] eqn:Hm.
    + injection H as <-. by apply Hmore.
    + eauto.
  - destruct (k st) as [res'|] eqn:Hk.
    + injection H as <-. eauto.
    + by apply Hmore.
Qed.

Lemma rmatch_via ml (r : regex) :
  forall st k res, rmatch ml r st k = Some res -> ∃ st', k st' = Some res.
Proof.
  induction r as [| x | | negate items | | | r1 IH1 r2 IH2 | r1 IH1 r2 IH2
                  | lo hi greedy r1 IH1 | n r1 IH1]; intros st k res H; cbn [rmatch] in H.
  - eauto.
  - destruct (m_rest st) as [|c rest]; [done|]. destruct (c =? x)%N; [eauto|done].
  - destruct (m_rest st) as [|c rest]; [done|]. destruct (c =? 10)%N; [done|eauto].
  - destruct (m_rest st) as [|c rest]; [done|]. destruct (set_matches _ _ _); [eauto|done].
  - destruct (at_bol ml st); [eauto|done].
  - destruct (at_eol ml st); [eauto|done].
  - apply IH1 in H as [st1 H]. by eapply IH2.
  - destruct (rmatch ml r1 st k) as [res'|] eqn:H1.
    + injection H as <-. by eapply IH1.
    + by eapply IH2.
  - eapply repeat_loop_via; [|exact H]. intros st0 k' res' H'. by eapply IH1.
  - apply IH1 in H as [st1 H]. eauto.
Qed.

Lemma rmatch_closes ml n (r : regex) :
  closes_group n r = true ->
  forall st k res, rmatch ml r st k = Some res ->
                   ∃ st1 start, k (close_group n start st1) = Some res.
Proof.
  induction r as [| x | | negate items | | | r1 IH1 r2 IH2 | r1 IH1 r2 IH2
                  | lo hi greedy r1 IH1 | m r1 IH1]; try done.
  intros Hc st k res H. cbn [rmatch] in H.
  assert (closes_group n r2 = true
          ∨ ∃ g, r1 = RGroup n g ∧ r2 = REmpty) as [Hc2 | (g & -> & ->)].
  { destruct r1; try (left; exact Hc).
    destruct r2; try (left; exact Hc).
    right. cbn [closes_group] in Hc. apply Nat.eqb_eq in Hc as ->. eauto. }
  - apply rmatch_via in H as [st1 H]. by eapply IH2.
  - cbn [rmatch] in H. apply rmatch_via in H as [st1 H]. eauto.
Qed.

Lemma search_from_attempt ml (r : regex) :
  forall (rest : str) pos prev m,
    search_from ml r pos prev rest = Some m ->
    ∃ pos' prev' rest', attempt ml r false pos' prev' rest' = Some m.
Proof.
  induction rest as [|c rest IH]; intros pos prev m H; cbn [search_from] in H.
  - destruct (attempt ml r false pos prev []) as [m'|] eqn:Ha; [|done].
    injection H as <-. eauto.
  - destruct (attempt ml r false pos prev (c :: rest)) as [m'|] eqn:Ha.
    + injection H as <-. eauto.
    + by eapply IH.
Qed.

(** A pattern that ends with group 1 gives every match a group 1. *)
Lemma search_group1 ml (r : regex) (s : str) (m : Match) :
  closes_group 1 r = true -> search ml r s = Some m -> is_Some (group_text s m 1).
Proof.
  intros Hc (pos & prev & rest & H)%search_from_attempt.
  unfold attempt in H.
  destruct (rmatch ml r _ _) as [res|] eqn:Hm; [|done]. injection H as <-.
  apply (rmatch_closes ml 1 r Hc) in Hm as (st1 & start & Hm).
  cbn [andb] in Hm. injection Hm as <-.
  unfold group_text, group_span. cbn. eauto.
Qed.

(** **** The field loop under the default configuration *)

(** The field patterns of the default configuration compile, and each
    ends with its group 1. *)
Lemma default_field_patterns :
  ∃ rules fields,
    getitem load_default_config (utf8 "parsing_rules") = Return rules
    ∧ getitem rules (utf8 "field_patterns") = Return (PyDict fields)
    ∧ NoDup fields.*1
    ∧ (name_key, PyStr (plain_pattern name_key)) ∈ fields
    ∧ (amount_key, PyStr (plain_pattern amount_key)) ∈ fields
    ∧ Forall (fun fp => ∃ pat, re_compile (snd fp) = Return pat
                               ∧ p_groups pat = 1
                               ∧ closes_group 1 (p_regex pat) = true) fields.
Proof.
  eexists _, _. split; [vm_compute; reflexivity|].
  split; [vm_compute; reflexivity|]. split; [|split; [|split]].
  - cbn [fmap list_fmap fst].
    repeat (apply NoDup_cons; split;
      [intros H; repeat (apply elem_of_cons in H as [H | H]; [discriminate H|]);
       by apply elem_of_nil in H|]).
    apply NoDup_nil_2.
  - apply list_elem_of_In. vm_compute. tauto.
  - apply list_elem_of_In. vm_compute. tauto.
  - repeat (apply List.Forall_cons;
            [eexists; split; [vm_compute; reflexivity|split; reflexivity]|]).
    apply List.Forall_nil.
Qed.

(** The loop over such fields raises nothing. *)
Lemma extract_fields_total (entry : str) (fields : list (str * pyobj)) :
  Forall (fun fp => ∃ pat, re_compile (snd fp) = Return pat
                           ∧ p_groups pat = 1
                           ∧ closes_group 1 (p_regex pat) = true) fields ->
  forall r0, ∃ r, extract_fields fields entry r0 = Return r.
Proof.
  induction 1 as [|[f pattern] fields (pat & Hpat & Hn & Hc) _ IH]; intros r0.
  { by exists r0. }
  cbn [extract_fields snd] in *. unfold re_search. rewrite Hpat. mstep.
  destruct (search false (p_regex pat) entry) as [m|] eqn:Hs.
  - unfold group1_strip, match_group1. rewrite Hn. cbn [Nat.ltb Nat.leb]. mstep.
    destruct (search_group1 false _ _ _ Hc Hs) as [t ->]. mstep. apply IH.
  - destruct (_ && _); mstep; apply IH.
Qed.

(** **** The check of a record under the default configuration *)

Lemma default_validation :
  validation_of load_default_config [name_key; amount_key] true.
Proof. eexists. split; [vm_compute; reflexivity|]. split; vm_compute; reflexivity. Qed.

Lemma validate_default (r : record) :
  strip (field_value r name_key) ≠ [] ->
  strip (field_value r amount_key) ≠ [] ->
  search false amount_regex (field_value r amount_key) ≠ None ->
  validate_record load_default_config r = Return true.
Proof.
  intros Hname Hamount Hdigit. destruct default_validation as (v & Hv & Hreq & Hav).
  unfold validate_record. rewrite Hv. mstep. rewrite Hreq, Hav.
  assert (truthy (PyList (PyStr <$> [name_key; amount_key])) = true) as -> by reflexivity.
  cbn [negb py_iter truthy]. mstep.
  destruct (required_present_spec [name_key; amount_key] r) as (b & -> & Hfalse).
  destruct b; cbn [negb].
  - fold amount_key. fold (field_value r amount_key).
    rewrite bool_decide_eq_false_2 by (intros Hnil; by rewrite Hnil in Hamount).
    rewrite re_search_amount. mstep.
    by destruct (search false amount_regex (field_value r amount_key)).
  - destruct (proj1 Hfalse eq_refl) as (f & Hf & Hw). apply strip_nil in Hw.
    apply elem_of_cons in Hf as [-> | Hf]; [done|].
    apply list_elem_of_singleton in Hf as ->. done.
Qed.

(** **** An entry under the header 张三 *)

Lemma header_example (entry : str) :
  first_line entry = utf8 "张三" ->
  extract_name_from_header load_default_config entry = Return (Some (utf8 "张三")).
Proof.
  intros Hline. change (utf8 "张三") with [24352%N; 19977%N] in Hline.
  unfold extract_name_from_header.
  destruct default_header_rules as (rules & -> & Hflag & Hpatterns). mstep.
  rewrite Hflag, Hpatterns. cbn [truthy negb].
  unfold first_line in Hline.
  destruct (split_char 10 (strip entry)) as [|line lines]; [done|].
  cbn [hd] in Hline. rewrite Hline.
  destruct (try_default_patterns 24352%N [19977%N]) as (patterns & -> & ->).
  - reflexivity.
  - intros H. vm_compute in H. discriminate H.
  - intros H. vm_compute in H. discriminate H.
  - vm_compute. reflexivity.
Qed.

(** Where no label and colon start, the pattern of the field has no
    match. *)
Lemma search_field_None (label entry : str) :
  (forall k, label_at label (drop k entry) = false) ->
  search false (field_regex label) entry = None.
Proof.
  intros H. unfold search.
  destruct (search_field_skip label [] entry 0 None) as [prev' Hs].
  { intros k _. rewrite app_nil_r. apply H. }
  rewrite app_nil_r in Hs. rewrite Hs. cbn [search_from].
  rewrite attempt_field_None; [done|].
  specialize (H (length entry)). by rewrite drop_all in H.
Qed.

(** **** The extractor example *)

Lemma example_amount_parts (post : str) :
  example_amount ++ post = amount_key ++ 65306%N :: (example_value ++ post).
Proof. vm_compute. reflexivity. Qed.

Lemma example_value_read (post : str) :
  labelled_value (example_value ++ post) = utf8 "100.50元".
Proof. vm_compute. reflexivity. Qed.

(** The row of the exported frame for one record with an amount. *)
Lemma export_one (r : record) (amount : str) (f : pyfloat) :
  dict_get amount_key r = Some amount -> clean_amount amount = Return f ->
  ∃ row, export_frame [r] = Return [row]
         ∧ dict_get amount_value_key row = Some (XFloat f).
Proof.
  intros Hamount Hf. rewrite export_frame_rows by done.
  assert (amount_key ∈ frame_columns [r]) as Hcol.
  { apply frame_columns_elem. exists r. split; [by left|]. by rewrite Hamount. }
  rewrite bool_decide_eq_true_2 by done. cbn [fmap list_fmap].
  destruct (add_amount_column_rows [frame_row (frame_columns [r]) r])
    as (rows' & -> & Hrows).
  { apply List.Forall_cons; [|apply List.Forall_nil]. exists amount.
    by rewrite (dict_get_frame_row _ r amount_key Hcol), Hamount. }
  apply Forall2_cons_inv_l in Hrows as (row' & rest & (v & f' & Hv & Hf' & ->) & Hrest & ->).
  apply Forall2_nil_inv_l in Hrest as ->.
  rewrite (dict_get_frame_row _ r amount_key Hcol), Hamount in Hv.
  injection Hv as <-. rewrite Hf in Hf'. injection Hf' as <-.
  eexists. split; [done|]. apply dict_get_set_eq.
Qed.

(** C5, the extractor example.  Under the default configuration, take an
    entry whose first line, stripped, is 张三, which holds
    交易金额：100.50元； with no label 交易金额 and colon starting before
    it, and which holds no label 姓名 followed by a colon.  The header
    name is 张三; the entry parses to a record that is kept, with 姓名 =
    张三 and 交易金额 = 100.50元; and the exported frame has 金额数值 =
    100.5. *)
Theorem C5_extractor_example (date entry pre post : str) :
  first_line entry = utf8 "张三" ->
  entry = pre ++ example_amount ++ post ->
  (forall k, k < length pre -> label_at amount_key (drop k entry) = false) ->
  (forall k, label_at name_key (drop k entry) = false) ->
  extract_name_from_header load_default_config entry = Return (Some (utf8 "张三"))
  ∧ ∃ r, parse_entry load_default_config date entry = Return (Some r)
         ∧ dict_get name_key r = Some (utf8 "张三")
         ∧ dict_get amount_key r = Some (utf8 "100.50元")
         ∧ ∃ row, export_frame [r] = Return [row]
                  ∧ dict_get amount_value_key row = Some (XFloat (FFinite (201 # 2))).
Proof.
  intros Hline Hentry Hfirst Hname. split; [by apply header_example|].
  destruct default_field_patterns
    as (rules & fields & Hrules & Hfp & Hnd & Hin_name & Hin_amount & Hall).
  destruct (extract_fields_total entry fields Hall
              (first_record date (Some [24352%N; 19977%N]))) as [r Hr].
  assert (dict_get name_key r = Some (utf8 "张三")) as Hn.
  { destruct (extract_fields_field _ fields _ _ name_key _ Hnd Hin_name Hr)
      as (pat & found & Hs & Hres).
    unfold re_search, re_compile in Hs. rewrite plain_pattern_compile in Hs.
    2:{ apply list_elem_of_In. vm_compute. tauto. }
    mstep_in Hs. injection Hs as <- <-. cbn [p_regex] in Hres.
    rewrite (search_field_None name_key entry Hname) in Hres.
    rewrite Hres. vm_compute. reflexivity. }
  assert (dict_get amount_key r = Some (utf8 "100.50元")) as Ha.
  { destruct (extract_fields_field _ fields _ _ amount_key _ Hnd Hin_amount Hr)
      as (pat & found & Hs & Hres).
    unfold re_search, re_compile in Hs. rewrite plain_pattern_compile in Hs.
    2:{ apply list_elem_of_In. vm_compute. tauto. }
    mstep_in Hs. injection Hs as <- <-. cbn [p_regex] in Hres.
    rewrite example_amount_parts in Hentry. subst entry.
    destruct (search_field amount_key pre 65306%N (example_value ++ post)) as (m & Hm & Hg).
    - reflexivity.
    - rewrite example_value_read. intros H. vm_compute in H. discriminate H.
    - exact Hfirst.
    - rewrite Hm in Hres. destruct Hres as (g & Hg1 & ->).
      unfold group1_strip, match_group1 in Hg1. cbn [p_groups Nat.ltb Nat.leb] in Hg1.
      mstep_in Hg1. rewrite Hg, example_value_read in Hg1. injection Hg1 as <-.
      vm_compute. reflexivity. }
  exists r. split; [|split; [done|split; [done|]]].
  - unfold parse_entry. rewrite (header_example _ Hline). mstep.
    change (utf8 "张三") with [24352%N; 19977%N]. cbv iota.
    rewrite Hrules. mstep. rewrite Hfp. cbn [py_items]. mstep.
    change (dict_set (utf8 "姓名") [24352%N; 19977%N] [(utf8 "日期", date)])
      with (first_record date (Some [24352%N; 19977%N])).
    rewrite Hr. mstep. rewrite validate_default; [done|..]; unfold field_value.
    + rewrite Hn. intros H. vm_compute in H. discriminate H.
    + rewrite Ha. intros H. vm_compute in H. discriminate H.
    + rewrite Ha. intros H. vm_compute in H. discriminate H.
  - apply (export_one r (utf8 "100.50元")); [done|]. vm_compute. reflexivity.
Qed.

(** An entry with a first line 张三 and the amount of the example after
    another amount keeps the other amount; one with a name label keeps
    the name of the label. *)
Lemma C5_counterexample :
  (first_line two_amounts_entry = utf8 "张三"
   ∧ (∃ pre post, two_amounts_entry = pre ++ example_amount ++ post)
   ∧ ∃ r, parse_entry load_default_config (utf8 "2025-01-19") two_amounts_entry
          = Return (Some r)
          ∧ dict_get name_key r = Some (utf8 "张三")
          ∧ dict_get amount_key r = Some (utf8 "7元")
          ∧ ∃ row, export_frame [r] = Return [row]
                   ∧ dict_get amount_value_key row = Some (XFloat (FFinite 7)))
  ∧ (first_line named_entry = utf8 "张三"
     ∧ (∃ pre post, named_entry = pre ++ example_amount ++ post)
     ∧ ∃ r, parse_entry load_default_config (utf8 "2025-01-19") named_entry
            = Return (Some r)
            ∧ dict_get name_key r = Some (utf8 "李四")
            ∧ dict_get amount_key r = Some (utf8 "100.50元")).
Proof.
  split.
  - split; [vm_compute; reflexivity|]. split.
    + exists (utf8 "张三
交易金额：7元；"), (utf8 "
"). vm_compute. reflexivity.
    + eexists. split; [vm_compute; reflexivity|].
      split; [vm_compute; reflexivity|]. split; [vm_compute; reflexivity|].
      eexists. split; vm_compute; reflexivity.
  - split; [vm_compute; reflexivity|]. split.
    + exists (utf8 "张三
姓名：李四；"), (utf8 "
"). vm_compute. reflexivity.
    + eexists. split; [vm_compute; reflexivity|].
      split; vm_compute; reflexivity.
Qed.

(** The example on the entry of the sample document. *)
Lemma C5_extractor_example_witness :
  extract_name_from_header load_default_config sample_entry
  = Return (Some (utf8 "张三"))
  ∧ ∃ r, parse_entry load_default_config (utf8 "2025-01-19") sample_entry
         = Return (Some r)
         ∧ dict_get name_key r = Some (utf8 "张三")
         ∧ dict_get amount_key r = Some (utf8 "100.50元")
         ∧ ∃ row, export_frame [r] = Return [row]
                  ∧ dict_get amount_value_key row = Some (XFloat (FFinite (201 # 2))).
Proof.
  apply (C5_extractor_example (utf8 "2025-01-19") sample_entry (utf8 "张三
") (utf8 "
")).
  - vm_compute. reflexivity.
  - vm_compute. reflexivity.
  - intros k Hk. change (length (utf8 "张三
")) with 3 in Hk.
    destruct k as [|[|[|k]]]; [vm_compute; reflexivity..|lia].
  - intros k.
    do 17 (destruct k as [|k]; [vm_compute; reflexivity|]).
    change (drop _ sample_entry) with (drop k (@nil N)). by rewrite drop_nil.
Defined.

End ExtractorProps.
